(* ===== verification/_CoqProject ===== *)
-Q . S2P
Prelude.v
Geometry.v
Graph.v
Search.v
Planner.v
Cli.v
FileIO.v
Radix.v
Float32.v
UserInput.v
Main.v
Format.v
Render.v
Scenarios.v
