(* ===== verification/Prelude.v ===== *)
(** * Route planner: a verification development

    ** The program

    The repository is a route planner over OpenStreetMap data.  Its only
    source file under [src/] is [src/src/main.cpp]: [main] chooses a map
    file from the command line (lines 17-28), reads it with [ReadFile]
    (lines 30-40, 96-110), asks for four coordinates with
    [get_user_input] (lines 42-45, 79-94), builds a [RouteModel] from the
    bytes, builds a [RoutePlanner] from the model and the coordinates,
    runs its A* search and prints the distance (lines 47-54), and opens a
    window that renders the result (lines 56-70).  The graph model
    ([RouteModel]) and the planner ([RoutePlanner]) are part of the
    program but not of [src/]: they are modelled from the contract of
    the spec (sections 3, 4 and 9), and the manifest marks those
    definitions as modelled from the spec.

    ** Files, in dependency order

    - [Prelude] (this file): error kinds and the [result] type with
      stdpp's monadic notation, standard-output events [Out], boolean
      comparisons on rationals with their [Proper] instances over [Qeq],
      the [route] hint database, the tactics [qbool] and [vm_decide],
      generic lemmas on folds and lists.  [Float32] and [Format] add
      [Proper (Qeq ==> eq)] instances for [round_ne], [strtof] and
      [format_g]: the value read or printed depends on a rational's
      value, not its representation, and [rewrite] goes under them.
    - [Geometry]: coordinates and [distance] ([RouteModel::Node::distance]).
    - [Graph]: [MapData] (the parser's output), [RouteModel] and its
      construction ([build_model]: an undirected edge for every pair of
      consecutive nodes of a way), [neighbors], [FindClosestNode].
    - [Search]: the A* search, written against the interface class
      [SearchGraph] (node count, neighbours, distance, scale; laws in
      [SearchGraphWf]).  The per-search table [SearchState] holds the open
      list, the visited set, [g], [h] and parents; [step] is one turn of
      the spec's transition rule and [astar_step] the same rule for any
      tie-break; [search_loop] iterates it; [ConstructFinalPath] walks the
      parents; [search] is the spec's [Search(graph, start, end)].
    - [Planner]: the [SearchGraph] instance of [RouteModel], the planner
      object ([make_planner], [AStarSearch], [GetDistance]).
    - [Cli]: lines 17-28 ([select_osm_file], [scan_args]).
    - [FileIO]: [ReadFile] over a file system given as a function: the
      [std::ifstream] as the file's bytes, a read position and a good
      flag, with the operations of lines 97-105 ([ifstream_open],
      [tellg], [seekg], [read]); [ReadFile_from] is lines 98-109 on an
      opened stream; then the loading block of [main] ([load_osm_data]).
    - [Radix]: powers [bpow b k] of a radix [b >= 2] for every integer
      [k], the integer logarithm [ilog] and the binade [flog] of a
      positive rational, shared by the binary input and decimal output.
    - [Float32]: IEEE 754 binary32 rounding of an exact rational as
      libstdc++'s [strtof] does it under [operator>>(float&)]: nearest,
      ties to even, subnormals down to [2^-149], overflow to an infinity
      reported as [failbit] ([strtof], [round_pos], [round_ne]).
    - [UserInput]: float extraction as libstdc++ does it for [float]
      ([extract_float], then [strtof]), one line's value ([read_value]),
      the prompt loop [get_user_input] over the list of remaining input
      lines.
    - [Main]: [main_route] (lines 47-54), [read_coordinates] (42-45) and
      [main] (17-54), with the map-data parser as a section variable.
    - [Format]: the text of the printed distance (line 54): a [float]
      inserted into [std::cout] is printed as [printf("%.6g")] ([format_g],
      [format_pos], [fixed_digits], [exponent_text]); [stdout_text] is the
      text of a list of output events.
    - [Render]: the window of lines 56-70: the [io2d::output_surface],
      its size-change and draw callbacks, and the [begin_show] event loop
      over a list of window events; what [Render::Display] draws is a
      section variable.  [program] is the whole of [main] (lines
      17-70): the text [main] prints, then the window over the model the
      route was planned on, or no window when no model could be built.
    - [Scenarios]: concrete maps and worlds evaluated by [vm_compute]:
      witnesses, the spec's tests, and the runs behind the findings.

    ** What is proved

    - Graph construction: the neighbours of a node are exactly the nodes
      next to it on some way, so adjacency is symmetric; [FindClosestNode]
      returns the first node nearest to the point, and fails with
      [EmptyGraph] exactly on a model without nodes.
    - Search: an invariant of every reachable table (open nodes are
      visited and distinct; parent links form chains back to the start
      along edges, with [g] the cost of the chain; expanded nodes have all
      neighbours visited; the goal stays open until popped), preserved by
      [astar_step] for any tie-break and refined by the deterministic
      [step]; termination within [node count + 1] turns by a measure
      (unvisited plus open nodes) that every turn decreases; on success a
      duplicate-free path of edges from start to goal whose length is
      [scale * sum of distances = scale * g(goal)], [g] read in the table
      the loop ends in; [NoPathFound] exactly
      when the goal is unreachable; every result of [search] is an
      outcome of the relational rule ([search_refines]); one expansion
      equals a batch update of the table ([fold_add_neighbor]).
    - [main]: the same guarantees for the route [main] prints (claims
      C1-C10 in [Main]); what it prints when no route exists; its error
      outcomes; the coordinates it routes with are in [0,100]; with fewer
      than four valid coordinate lines it never routes; what it does when
      the map file is missing or no [-f] is given; argument selection,
      [ReadFile] and the prompt loop characterised exactly; the four
      coordinates are prompted for in the order start X, start Y, end X,
      end Y, and each is the [strtof] rounding of a number typed
      (C30); the reported route refines the relational A* (C29).
    - Reading the map (C18, C21 in [FileIO]): the stream operations of
      [ReadFile] return exactly the file's contents (C21); but the read
      is never checked, so a file truncated after it was opened comes
      back padded with zero bytes, without error (C18).
    - Input values (C24-C26 in [UserInput]): a value read is within
      [2^-24] of the number typed (relative, plus [2^-150] absolute);
      a number in [[0,100]] is accepted at once; the range test is made
      on the rounded float, so every number above [100] by less than
      [2^-18] is read as [100] and accepted, and every negative number
      above [-2^-150] as [0] (C36).
    - The window (C27-C28 in [Render]): the surface always has the
      display's size, and the pictures drawn are one per frame event
      before closing, each of the model at the current size.
    - Output text (C31-C33 in [Format]): the number of the distance
      line, read back with the program's own [extract_float], is within
      [5 * 10^-6] (relative) of the distance; a distance equal to a whole
      number below [10^6] is printed as its digits; from [10^6] metres on
      the distance is printed in scientific notation.
    - The whole program (C34-C35 in [Render]): when the window opens, the
      data [main] loaded parsed, [main] built its planner on that model and
      the coordinates it read, printed text only and then that planner's
      distance line, and the window draws that model; when no window
      opens, no number was printed.
    - Concrete runs ([Scenarios], examples, not claims): the spec's grid
      and nearest-node tests pass; the specified search is not always
      optimal and not symmetric in its endpoints (the spec says it is);
      the text of some distance lines.  [Scenarios] also holds the
      witnesses of the claims with hypotheses.

    ** Bounds and fuel

    [search] runs [S (node count)] turns of [step]: [search_loop_terminates]
    shows the loop has stopped by then.  [ConstructFinalPath] walks at most
    [node count] parent links: a parent chain has no repeated node
    ([chain_length_bound]), so this is enough ([walk_chain]).
    [get_user_input] and [main] take a fuel argument bounding the number
    of lines read per coordinate; [None] is "no value within the fuel",
    and [get_user_input_diverges] shows that once no usable line remains
    no fuel is enough, which is the program's endless prompt loop.
    [Radix.ilog] divides at most [S (log2 n)] times: base [b >= 2] has no
    more digits than base 2 ([ilog_spec]).  The decimal digits of the
    output are produced by [digits_fixed] for an explicit count, the
    precision 6 or the length given by [ilog 10].

    ** Abstractions and what is not modelled

    Numbers are exact rationals.  The input values are rounded to
    single precision as the program does ([Float32]); the arithmetic of
    the graph model and of the search (sums, distances, comparisons) is
    exact, as the spec describes it, not single precision; the square root
    is the floor of the exact root at resolution 2^-20, exact when the
    squared distance is a rational square.  The OSM XML parser is a
    section variable ([parse_osm]) with a well-formedness contract
    ([map_wfb]).  Of the rendering, the window and its event loop are
    modelled, but not what [Render::Display] draws: [render.h] is not in
    the repository, and the picture is a section variable; window events
    are a finite list given by the environment.  Printed numbers are
    events [ONum q]; their decimal text is [Format.format_g] of the exact
    value (the [float]-to-[double] widening is exact); the stream's
    buffering is not modelled.  The file system is a snapshot:
    a file is its bytes or unopenable (libstdc++ fails to open a file
    whose end cannot be sought, such as a pipe); a file changing while it
    is read is stated on [ReadFile_from] directly, by a stream whose
    position lies beyond the file's end. *)

From Stdlib Require Import QArith Qround Lqa String Ascii Morphisms.
From stdpp Require Import base gmap list.

(** ** Error kinds and the result type

    The three error kinds of the route planner (spec section 7):
    [InvalidMapData] when the map-data parser rejects its input,
    [EmptyGraph] when a nearest-node query runs on a model with no node,
    [NoPathFound] when the A* open list runs empty. *)
Inductive ErrorKind : Type :=
| InvalidMapData
| EmptyGraph
| NoPathFound.

#[export] Instance ErrorKind_eq_dec : EqDecision ErrorKind.
Proof. solve_decision. Defined.

Inductive result (A : Type) : Type :=
| Ok (a : A)
| Err (e : ErrorKind).
Arguments Ok {A} a.
Arguments Err {A} e.

#[export] Instance result_ret : MRet result := fun A a => Ok a.
#[export] Instance result_bind : MBind result :=
  fun A B k r => match r with Ok a => k a | Err e => Err e end.

Declare Scope route_scope.
Delimit Scope route_scope with route.

(** [r ?= e] reads "the computation [r] fails with error [e]". *)
Notation "r ?= e" := (r = Err e) (at level 70, no associativity) : route_scope.

(** ** Standard output

    What the program writes to [std::cout], one event per [<<]: a
    string, or a number (its decimal text is given in [Format]). *)
Inductive Out : Type :=
| OStr (s : string)
| ONum (q : Q).

(** The newline character, written by [std::endl] and by ["\n"]. *)
Definition nl : string := String (ascii_of_nat 10) EmptyString.

#[export] Instance Q_inhabited : Inhabited Q := populate 0%Q.

(** ** Boolean comparisons on rationals *)
Definition Qltb (a b : Q) : bool := negb (Qle_bool b a).

Lemma Qltb_iff a b : Qltb a b = true <-> (a < b)%Q.
Proof.
  unfold Qltb. rewrite negb_true_iff. split.
  - intros H. apply Qnot_le_lt. intros Hle. apply Qle_bool_iff in Hle. congruence.
  - intros H. destruct (Qle_bool b a) eqn:E; [|done].
    apply Qle_bool_iff in E. exfalso. apply (Qlt_not_le a b); done.
Qed.

Lemma Qltb_false a b : Qltb a b = false <-> (b <= a)%Q.
Proof.
  unfold Qltb. rewrite negb_false_iff. apply Qle_bool_iff.
Qed.

Lemma Qle_bool_false a b : Qle_bool a b = false <-> (b < a)%Q.
Proof.
  split.
  - intros H. apply Qnot_le_lt. intros Hle. apply Qle_bool_iff in Hle. congruence.
  - intros H. destruct (Qle_bool a b) eqn:E; [|done].
    apply Qle_bool_iff in E. exfalso. apply (Qlt_not_le _ _ H E).
Qed.

Lemma Qeq_bool_false a b : Qeq_bool a b = false <-> ~ (a == b)%Q.
Proof.
  split.
  - intros H E. apply Qeq_bool_iff in E. congruence.
  - intros H. destruct (Qeq_bool a b) eqn:E; [|done]. by apply Qeq_bool_iff in E.
Qed.

Create HintDb route.

(** [qbool] turns the boolean comparisons of the hypotheses into propositions. *)
Ltac qbool :=
  repeat match goal with
  | H : Qltb _ _ = true |- _ => apply Qltb_iff in H
  | H : Qltb _ _ = false |- _ => apply Qltb_false in H
  | H : Qle_bool _ _ = true |- _ => apply Qle_bool_iff in H
  | H : Qle_bool _ _ = false |- _ => apply Qle_bool_false in H
  | H : Qeq_bool _ _ = true |- _ => apply Qeq_bool_iff in H
  | H : Qeq_bool _ _ = false |- _ => apply Qeq_bool_false in H
  end.

(** The boolean comparison does not see the representation of a rational. *)
Lemma Qltb_compat a a' b b' : (a == a')%Q -> (b == b')%Q -> Qltb a b = Qltb a' b'.
Proof.
  intros Ea Eb. destruct (Qltb a b) eqn:E1, (Qltb a' b') eqn:E2; qbool; try done;
    exfalso; rewrite Ea, Eb in *; apply (Qlt_not_le _ _ E1 E2) || apply (Qlt_not_le _ _ E2 E1).
Qed.

(** The boolean comparisons respect [Qeq]: [rewrite] with an equation
    of rationals goes under them. *)
#[export] Instance Qltb_proper : Proper (Qeq ==> Qeq ==> eq) Qltb.
Proof. intros a a' Ea b b' Eb. by apply Qltb_compat. Qed.

#[export] Instance Qeq_bool_proper : Proper (Qeq ==> Qeq ==> eq) Qeq_bool.
Proof.
  intros a a' Ea b b' Eb. destruct (Qeq_bool a b) eqn:E1, (Qeq_bool a' b') eqn:E2; qbool; try done;
    exfalso; [apply E2|apply E1]; [rewrite <- Ea, <- Eb|rewrite Ea, Eb]; done.
Qed.

(** ** Generic lemmas on lists *)

(** Filters that agree on the elements of a list keep the same elements. *)
Lemma filter_ext_in {A} (P1 P2 : A -> Prop) `{!forall x, Decision (P1 x), !forall x, Decision (P2 x)}
    (l : list A) :
  (forall x, x ∈ l -> P1 x <-> P2 x) -> filter P1 l = filter P2 l.
Proof.
  induction l as [|a l IH]; intros Hiff; [done|]. rewrite !filter_cons.
  rewrite IH by (intros x Hx; apply Hiff; set_solver).
  destruct (decide (P1 a)), (decide (P2 a)); try done; exfalso;
    [apply n|apply n]; apply Hiff; set_solver.
Qed.

(** ** Output events *)

(** Output made of text only: no number is printed. *)
Definition text_only (out : list Out) : Prop := forall q, ONum q ∉ out.

Lemma text_only_nil : text_only [].
Proof. intros q Hq. by apply elem_of_nil in Hq. Qed.

Lemma text_only_cons s out : text_only out -> text_only (OStr s :: out).
Proof. intros H q Hq. apply elem_of_cons in Hq as [Hq|Hq]; [discriminate|by apply (H q)]. Qed.

Lemma text_only_app out1 out2 : text_only out1 -> text_only out2 -> text_only (out1 ++ out2).
Proof. intros H1 H2 q Hq. apply elem_of_app in Hq as [Hq|Hq]; [by apply (H1 q)|by apply (H2 q)]. Qed.

Lemma text_only_replicate n s : text_only (replicate n (OStr s)).
Proof. intros q Hq. apply elem_of_replicate_inv in Hq. discriminate. Qed.

#[export] Hint Resolve text_only_nil text_only_cons text_only_app text_only_replicate : route.

(** ** Strings *)

Lemma str_app_assoc (s1 s2 s3 : string) : ((s1 ++ s2) ++ s3 = s1 ++ (s2 ++ s3))%string.
Proof.
  induction s1 as [|c s1 IH]; [reflexivity|].
  change ((String c s1 ++ s2) ++ s3)%string with (String c ((s1 ++ s2) ++ s3)).
  change (String c s1 ++ s2 ++ s3)%string with (String c (s1 ++ s2 ++ s3)). by rewrite IH.
Qed.

Lemma str_app_nil_r (s : string) : (s ++ "")%string = s.
Proof.
  induction s as [|c s IH]; [reflexivity|].
  change (String c s ++ "")%string with (String c (s ++ "")). by rewrite IH.
Qed.

(** ** Generic lemmas on folds *)

(** A property preserved by every step of a left fold holds of its result. *)
Lemma fold_left_ind {A B} (P : A -> Prop) (f : A -> B -> A) (l : list B) (a : A) :
  P a -> (forall acc x, x ∈ l -> P acc -> P (f acc x)) -> P (fold_left f l a).
Proof.
  revert a. induction l as [|x l IH]; intros a Ha Hstep; simpl; [done|].
  apply IH; [apply (Hstep a x); [set_solver|done]|].
  intros acc y Hy. apply Hstep. set_solver.
Qed.

(** A relation between start and end states of every step carries over
    to the fold, when it is reflexive and transitive. *)
Lemma fold_left_rel {A B} (R : A -> A -> Prop) (f : A -> B -> A) (l : list B) (a : A) :
  (forall x, R x x) -> (forall x y z, R x y -> R y z -> R x z) ->
  (forall acc x, x ∈ l -> R acc (f acc x)) -> R a (fold_left f l a).
Proof.
  intros Hrefl Htrans. revert a. induction l as [|x l IH]; intros a Hstep; simpl; [done|].
  eapply Htrans; [apply (Hstep a x); set_solver|]. apply IH.
  intros acc y Hy. apply Hstep. set_solver.
Qed.

(** Membership in a list all of whose elements satisfy [P]. *)
Lemma Forall_elem {A} (P : A -> Prop) (l : list A) x : Forall P l -> x ∈ l -> P x.
Proof. rewrite Forall_forall. auto. Qed.

(** A duplicate-free list that starts and ends with [a] is [[a]]. *)
Lemma NoDup_head_last {A} (l : list A) a :
  NoDup l -> head l = Some a -> last l = Some a -> l = [a].
Proof.
  destruct l as [|x l]; simpl; [done|]. intros Hnd [= ->] Hl.
  destruct l as [|y l']; [done|]. exfalso.
  apply NoDup_cons in Hnd as [Hx _]. apply Hx. rewrite last_cons_cons in Hl.
  by apply last_Some_elem_of.
Qed.

(** Close a decidable goal on concrete data by evaluation. *)
Ltac vm_decide := apply (bool_decide_unpack _); vm_compute; exact I.
