(* ===== verification/Geometry.v ===== *)
(** * Geometry: planar coordinates and the Euclidean distance

    Map points carry coordinates normalised to the range [0,100] (spec
    section 3).  The graph model measures every cost with one function,
    the Euclidean distance [distance] of two points (spec section 4.1,
    "Distance"), which the program computes in single-precision floats as
    [sqrt(dx*dx + dy*dy)].  Coordinates are rationals here and the square
    root is the floor of the exact root at a resolution of 2^-20: exact
    when the squared distance is the square of a rational, within 2^-20 of
    the real root otherwise, a stand-in for the rounding of [std::sqrt]
    on floats. *)

From Stdlib Require Import QArith Qround Lqa ZArith Lia Morphisms.
From stdpp Require Import base tactics.
From S2P Require Import Prelude.

Record Coord : Type := mkCoord { cx : Q; cy : Q }.

(** The square of the Euclidean distance, computed exactly. *)
Definition sq_dist (p q : Coord) : Q :=
  (cx p - cx q) * (cx p - cx q) + (cy p - cy q) * (cy p - cy q).

Definition sqrt_scale : positive := 1048576%positive.  (* 2^20 *)

(** Square root of a non-negative rational [n/d] (in lowest terms):
    [floor(sqrt(n*d) * 2^20) / (d * 2^20)]. *)
Definition qsqrt (q : Q) : Q :=
  let r := Qred q in
  Qmake (Z.sqrt (Qnum r * Zpos (Qden r) * Zpos sqrt_scale * Zpos sqrt_scale))
        (Qden r * sqrt_scale).

(** [RouteModel::Node::distance]. *)
Definition distance (p q : Coord) : Q := qsqrt (sq_dist p q).

(** ** Lemmas *)

Lemma qsqrt_nonneg q : (0 <= qsqrt q)%Q.
Proof.
  unfold qsqrt, Qle. simpl. pose proof (Z.sqrt_nonneg
    (Qnum (Qred q) * Zpos (Qden (Qred q)) * Zpos sqrt_scale * Zpos sqrt_scale)). lia.
Qed.

(** [qsqrt] respects the equality of rationals, with a Leibniz-equal
    result: rewriting under it by [==] is allowed. *)
#[export] Instance qsqrt_proper : Proper (Qeq ==> eq) qsqrt.
Proof. intros q1 q2 H. unfold qsqrt. by rewrite (Qred_complete q1 q2 H). Qed.

Lemma Qred_inject_Z (n : Z) : Qred (inject_Z n) = inject_Z n.
Proof.
  unfold Qred, inject_Z. pose proof (Z.ggcd_gcd n 1) as Hg.
  pose proof (Z.ggcd_correct_divisors n 1) as Hd.
  destruct (Z.ggcd n 1) as [g [a b]]. simpl in *. rewrite Z.gcd_1_r in Hg. subst g.
  destruct Hd as [Ha Hb]. assert (a = n) as -> by lia. assert (b = 1%Z) as -> by lia. done.
Qed.

(** Exactness on squares of integers. *)

(** Exactness on squares of integers. *)
Lemma qsqrt_square_Z (z : Z) : (qsqrt (inject_Z (z * z)) == inject_Z (Z.abs z))%Q.
Proof.
  unfold qsqrt. rewrite Qred_inject_Z. unfold Qeq. cbn [Qnum Qden inject_Z].
  assert (Z.sqrt (z * z * Zpos 1 * Zpos sqrt_scale * Zpos sqrt_scale) = Z.abs z * Zpos sqrt_scale)%Z as ->.
  { replace (z * z * Zpos 1 * Zpos sqrt_scale * Zpos sqrt_scale)%Z
      with ((Z.abs z * Zpos sqrt_scale) * (Z.abs z * Zpos sqrt_scale))%Z
      by (destruct (Z.abs_spec z) as [[_ ->]|[_ ->]]; ring).
    apply Z.sqrt_square. lia. }
  rewrite Pos2Z.inj_mul. ring.
Qed.

Lemma sq_dist_sym p q : (sq_dist p q == sq_dist q p)%Q.
Proof. unfold sq_dist. ring. Qed.

Lemma distance_sym p q : distance p q = distance q p.
Proof. unfold distance. by rewrite sq_dist_sym. Qed.

Lemma distance_nonneg p q : (0 <= distance p q)%Q.
Proof. apply qsqrt_nonneg. Qed.

Lemma distance_self p : (distance p p == 0)%Q.
Proof.
  unfold distance. assert (Hz : (sq_dist p p == inject_Z (0 * 0))%Q).
  { unfold sq_dist. change (inject_Z (0 * 0)) with 0%Q. ring. }
  rewrite Hz, qsqrt_square_Z. reflexivity.
Qed.

#[export] Hint Resolve distance_nonneg qsqrt_nonneg : route.
