(* ===== verification/Graph.v ===== *)
(** * Graph model ([RouteModel], spec section 4.1)

    The parsed map ([MapData]: nodes with coordinates, ways as ordered
    lists of node indices, and the metres-per-unit scale) is wrapped into a
    searchable graph ([RouteModel]): every pair of consecutive nodes of a
    way becomes an undirected edge, neighbour sets are computed once, and
    [FindClosestNode] resolves a coordinate to the node nearest to it.
    The C++ sources of [RouteModel] are not part of the repository's
    [src/] tree: this file follows the spec's contract. *)

From Stdlib Require Import QArith Lqa Lia.
From stdpp Require Import base gmap list.
From S2P Require Import Prelude Geometry.

(** ** Data *)

(** A way: indices into the node arena, in road order. *)
Definition RawWay : Type := list nat.

(** What the map-data parser produces (spec section 6). *)
Record MapData : Type := mkMapData {
  md_nodes : list Coord;
  md_ways : list RawWay;
  md_scale : Q
}.

(** The graph: the node arena, the immutable neighbour sets, and the
    scale that turns normalised units into metres. *)
Record RouteModel : Type := mkRouteModel {
  rm_nodes : list Coord;
  rm_adj : gmap nat (gset nat);
  rm_scale : Q
}.

(** ** Construction *)

(** The consecutive pairs of a way. *)
Fixpoint way_edges (w : RawWay) : list (nat * nat) :=
  match w with
  | a :: ((b :: _) as rest) => (a, b) :: way_edges rest
  | _ => []
  end.

(** Add [b] to the neighbour set of [a]. *)
Definition link (adj : gmap nat (gset nat)) (a b : nat) : gmap nat (gset nat) :=
  <[a := {[b]} ∪ adj !!! a]> adj.

(** A bidirectional edge. *)
Definition add_edge (adj : gmap nat (gset nat)) (e : nat * nat) : gmap nat (gset nat) :=
  link (link adj e.1 e.2) e.2 e.1.

Definition add_way (adj : gmap nat (gset nat)) (w : RawWay) : gmap nat (gset nat) :=
  fold_left add_edge (way_edges w) adj.

Definition build_adjacency (ways : list RawWay) : gmap nat (gset nat) :=
  fold_left add_way ways ∅.

(** [RouteModel::RouteModel]: the graph of a parsed map. *)
Definition build_model (md : MapData) : RouteModel :=
  {| rm_nodes := md_nodes md;
     rm_adj := build_adjacency (md_ways md);
     rm_scale := md_scale md |}.

(** ** Queries *)

Definition node_count (m : RouteModel) : nat := length (rm_nodes m).

Definition neighbors (m : RouteModel) (n : nat) : list nat := elements (rm_adj m !!! n).

#[export] Instance Coord_inhabited : Inhabited Coord := populate (mkCoord 0 0).

Definition coord_of (m : RouteModel) (n : nat) : Coord := rm_nodes m !!! n.

(** [RouteModel::Node::distance] on node indices. *)
Definition node_distance (m : RouteModel) (a b : nat) : Q :=
  distance (coord_of m a) (coord_of m b).

(** The scan of [FindClosestNode]: [i] is the index of the head of
    [nodes], [best] the closest index so far and [best_d] its distance.
    A node replaces the best one only when strictly closer, so ties go
    to the first node in arena order. *)
Fixpoint closest_from (q : Coord) (nodes : list Coord) (i best : nat) (best_d : Q) : nat :=
  match nodes with
  | [] => best
  | p :: rest =>
      let d := distance q p in
      if Qltb d best_d then closest_from q rest (S i) i d
      else closest_from q rest (S i) best best_d
  end.

(** [RouteModel::FindClosestNode]: the node nearest to [(x, y)] over all
    nodes, connected or not; [EmptyGraph] on a model without nodes. *)
Definition FindClosestNode (m : RouteModel) (x y : Q) : result nat :=
  match rm_nodes m with
  | [] => Err EmptyGraph
  | p :: rest => let q := mkCoord x y in Ok (closest_from q rest 1 0 (distance q p))
  end.

(** Well-formed map data: every way refers to nodes of the arena (the
    parser's contract, spec section 6). *)
Definition map_wfb (md : MapData) : bool :=
  forallb (forallb (fun i => i <? length (md_nodes md))) (md_ways md).

(** ** Adjacency: what construction produces *)

(** [x] and [y] are consecutive, in either order, on some way. *)
Definition road_link (ways : list RawWay) (x y : nat) : Prop :=
  exists w, w ∈ ways /\ ((x, y) ∈ way_edges w \/ (y, x) ∈ way_edges w).

Lemma way_edges_spec (w : RawWay) a b :
  (a, b) ∈ way_edges w <-> exists i, w !! i = Some a /\ w !! S i = Some b.
Proof.
  induction w as [|x w IH]; simpl.
  - split; [intros H; inversion H|]. intros [i [Hi _]]. done.
  - destruct w as [|y w']; simpl.
    + split; [intros H; inversion H|]. intros [[|i] [_ Hi]]; [done|]. by destruct i.
    + rewrite elem_of_cons, IH. split.
      * intros [[= -> ->]|[i Hi]]; [by exists 0|]. by exists (S i).
      * intros [[|i] [Hi1 Hi2]]; simplify_eq/=; [by left|]. right. by exists i.
Qed.

Lemma link_elem adj a b x y :
  y ∈ link adj a b !!! x <-> y ∈ adj !!! x \/ (x = a /\ y = b).
Proof.
  unfold link. rewrite lookup_total_insert. case_decide; set_solver.
Qed.

Lemma add_edge_elem adj e x y :
  y ∈ add_edge adj e !!! x <->
  y ∈ adj !!! x \/ (x = e.1 /\ y = e.2) \/ (x = e.2 /\ y = e.1).
Proof. unfold add_edge. rewrite !link_elem. tauto. Qed.

Lemma fold_add_edge_elem (es : list (nat * nat)) adj x y :
  y ∈ fold_left add_edge es adj !!! x <->
  y ∈ adj !!! x \/ (x, y) ∈ es \/ (y, x) ∈ es.
Proof.
  revert adj. induction es as [|[a b] es IH]; intros adj; simpl.
  - set_solver.
  - rewrite IH, add_edge_elem, !elem_of_cons. simpl. naive_solver.
Qed.

Lemma fold_add_way_elem (ways : list RawWay) adj x y :
  y ∈ fold_left add_way ways adj !!! x <-> y ∈ adj !!! x \/ road_link ways x y.
Proof.
  unfold road_link. revert adj. induction ways as [|w ways IH]; intros adj; simpl.
  - split; [tauto|]. intros [H|[w [Hw _]]]; [done|]. inversion Hw.
  - rewrite IH. unfold add_way. rewrite fold_add_edge_elem.
    setoid_rewrite elem_of_cons. naive_solver.
Qed.

Lemma build_adjacency_elem ways x y :
  y ∈ build_adjacency ways !!! x <-> road_link ways x y.
Proof.
  unfold build_adjacency. rewrite fold_add_way_elem, lookup_total_empty. set_solver.
Qed.

Lemma neighbors_build_model md x y :
  y ∈ neighbors (build_model md) x <-> road_link (md_ways md) x y.
Proof. unfold neighbors. rewrite elem_of_elements. apply build_adjacency_elem. Qed.

Lemma road_link_sym ways x y : road_link ways x y <-> road_link ways y x.
Proof. unfold road_link. naive_solver. Qed.

Lemma neighbors_NoDup m x : NoDup (neighbors m x).
Proof. apply NoDup_elements. Qed.

(** Every node named by a way of well-formed data is in the arena. *)
Lemma map_wfb_spec md :
  map_wfb md = true <-> forall w i, w ∈ md_ways md -> i ∈ w -> i < length (md_nodes md).
Proof.
  unfold map_wfb. rewrite forallb_forall. setoid_rewrite forallb_forall.
  setoid_rewrite Nat.ltb_lt. setoid_rewrite <- list_elem_of_In. naive_solver.
Qed.

Lemma road_link_in_range md x y :
  map_wfb md = true -> road_link (md_ways md) x y -> y < length (md_nodes md).
Proof.
  rewrite map_wfb_spec. intros Hwf [w [Hw [He|He]]]; apply way_edges_spec in He as [i [H1 H2]];
    eapply Hwf; eauto using list_elem_of_lookup_2.
Qed.

(** ** The nearest-node query *)

(** [r] is the first index of [ns] whose point is nearest to [q]. *)
Definition first_closest (q : Coord) (ns : list Coord) (r : nat) : Prop :=
  exists pr, ns !! r = Some pr /\
    (forall j p, ns !! j = Some p -> (distance q pr <= distance q p)%Q) /\
    (forall j p, j < r -> ns !! j = Some p -> (distance q pr < distance q p)%Q).

Lemma first_closest_snoc_keep q pre p best pb :
  pre !! best = Some pb -> first_closest q pre best ->
  (distance q pb <= distance q p)%Q -> first_closest q (pre ++ [p]) best.
Proof.
  intros Hb [pb' [Hb' [Hle Hlt]]] Hp. simplify_eq. exists pb. split; [by apply lookup_app_l_Some|].
  pose proof (lookup_lt_Some _ _ _ Hb). split.
  - intros j p'. rewrite lookup_snoc_Some. intros [[_ ?]|[-> <-]]; eauto.
  - intros j p' Hj. rewrite lookup_snoc_Some. intros [[_ ?]|[-> <-]]; eauto; lia.
Qed.

Lemma first_closest_snoc_new q pre p best pb :
  pre !! best = Some pb -> first_closest q pre best ->
  (distance q p < distance q pb)%Q -> first_closest q (pre ++ [p]) (length pre).
Proof.
  intros Hb [pb' [Hb' [Hle Hlt]]] Hp. simplify_eq. exists p.
  split; [rewrite lookup_snoc_Some; by right|].
  split.
  - intros j p'. rewrite lookup_snoc_Some. intros [[_ Hj']|[-> <-]]; [|lra].
    pose proof (Hle _ _ Hj'). lra.
  - intros j p' Hj. rewrite lookup_snoc_Some. intros [[_ Hj']|[-> <-]]; [|lia].
    pose proof (Hle _ _ Hj'). lra.
Qed.

Lemma closest_from_spec q rest pre best pb :
  pre !! best = Some pb -> first_closest q pre best ->
  first_closest q (pre ++ rest) (closest_from q rest (length pre) best (distance q pb)).
Proof.
  revert pre best pb. induction rest as [|p rest IH]; intros pre best pb Hb Hc; simpl.
  - by rewrite app_nil_r.
  - replace (pre ++ p :: rest) with ((pre ++ [p]) ++ rest) by (rewrite <- app_assoc; done).
    destruct (Qltb (distance q p) (distance q pb)) eqn:E; qbool.
    + replace (S (length pre)) with (length (pre ++ [p])) by (rewrite length_app; simpl; lia).
      apply IH; [by rewrite lookup_snoc_Some; right|].
      eapply first_closest_snoc_new; eauto.
    + replace (S (length pre)) with (length (pre ++ [p])) by (rewrite length_app; simpl; lia).
      apply IH; [by apply lookup_app_l_Some|]. eapply first_closest_snoc_keep; eauto.
Qed.

(** [FindClosestNode] fails exactly on a model without nodes ... *)
Lemma FindClosestNode_Err m x y e :
  FindClosestNode m x y = Err e <-> rm_nodes m = [] /\ e = EmptyGraph.
Proof. unfold FindClosestNode. destruct (rm_nodes m); naive_solver. Qed.

(** ... and otherwise returns the first node nearest to [(x, y)]. *)
Lemma FindClosestNode_Ok m x y r :
  FindClosestNode m x y = Ok r -> first_closest (mkCoord x y) (rm_nodes m) r.
Proof.
  unfold FindClosestNode. destruct (rm_nodes m) as [|p rest] eqn:E; [done|].
  intros [= <-]. change (p :: rest) with ([p] ++ rest).
  apply (closest_from_spec _ _ [p] 0 p); [done|].
  exists p. split; [done|]. split; [|lia].
  intros [|j] p'; [intros [= <-]; lra|by destruct j].
Qed.

Lemma first_closest_lt q ns r : first_closest q ns r -> r < length ns.
Proof. intros [pr [H _]]. by eapply lookup_lt_Some. Qed.

Lemma FindClosestNode_total m x y : rm_nodes m <> [] -> exists r, FindClosestNode m x y = Ok r.
Proof. unfold FindClosestNode. destruct (rm_nodes m); [done|]. eauto. Qed.
