(* ===== verification/Search.v ===== *)
(** * A* search ([RoutePlanner::AStarSearch], spec section 4.2)

    The search is written against the interface [SearchGraph] (node
    count, neighbour lists, the distance, the metric scale) and proved
    against it.  Per-search bookkeeping lives in a separate table
    ([SearchState]: open list, visited set, [g]/[h] values, parents),
    as the spec's design notes ask, so the graph is never mutated.
    One call of [step] is one turn of the spec's transition rule: pop the
    open node of least [f = g + h] (the first such node in insertion
    order), stop on the goal, otherwise discover every unvisited
    neighbour, setting its [g], [h] and parent once.  [astar_step] is the
    same rule as a relation that admits any tie-break, and the invariants
    are proved for it.  The C++ of [RoutePlanner] is not under [src/]:
    this file follows the spec's transition rule. *)

From Stdlib Require Import QArith Lqa Lia.
From stdpp Require Import base gmap list relations.
From S2P Require Import Prelude.

(** ** The interface between the graph model and the search *)

Class SearchGraph (G : Type) := {
  sg_size : G -> nat;
  sg_neighbors : G -> nat -> list nat;
  sg_distance : G -> nat -> nat -> Q;
  sg_scale : G -> Q
}.

(** What a well-formed graph promises the search. *)
Class SearchGraphWf (G : Type) `{SearchGraph G} (g : G) : Prop := {
  sg_neighbors_range : forall a b, b ∈ sg_neighbors g a -> b < sg_size g;
  sg_distance_sym : forall a b, sg_distance g a b = sg_distance g b a
}.

(** ** Search state *)

Record SearchState : Type := mkState {
  open_list : list nat;
  visited : gset nat;
  g_value : gmap nat Q;
  h_value : gmap nat Q;
  parent : gmap nat nat
}.

(** The three states of a run (spec section 4.2, "State machine"). *)
Inductive Status : Type :=
| Running (st : SearchState)
| Succeeded (st : SearchState)
| Failed (st : SearchState).

Definition set_open (st : SearchState) (l : list nat) : SearchState :=
  {| open_list := l; visited := visited st; g_value := g_value st;
     h_value := h_value st; parent := parent st |}.

Fixpoint remove_first (x : nat) (l : list nat) : list nat :=
  match l with
  | [] => []
  | y :: l' => if decide (x = y) then l' else y :: remove_first x l'
  end.

Section Search.
Context {G : Type} `{SearchGraph G} (g : G) (goal : nat).

(** Seed: the start node, visited, [g = 0], [h = distance(start, end)],
    no parent. *)
Definition init_state (start : nat) : SearchState :=
  {| open_list := [start];
     visited := {[start]};
     g_value := {[start := 0%Q]};
     h_value := {[start := sg_distance g start goal]};
     parent := ∅ |}.

Definition f_value (st : SearchState) (n : nat) : Q :=
  (g_value st !!! n + h_value st !!! n)%Q.

(** The first node of least [f] in [best :: l]. *)
Fixpoint min_f (st : SearchState) (best : nat) (l : list nat) : nat :=
  match l with
  | [] => best
  | x :: l' => if Qltb (f_value st x) (f_value st best) then min_f st x l' else min_f st best l'
  end.

Definition pop (cur : nat) (st : SearchState) : SearchState :=
  set_open st (remove_first cur (open_list st)).

(** [RoutePlanner::NextNode]: select and remove the open node of least [f]. *)
Definition NextNode (st : SearchState) : option (nat * SearchState) :=
  match open_list st with
  | [] => None
  | n :: ns => let cur := min_f st n ns in Some (cur, pop cur st)
  end.

(** Discover one neighbour [n] of [cur], unless already visited. *)
Definition add_neighbor (cur : nat) (st : SearchState) (n : nat) : SearchState :=
  if decide (n ∈ visited st) then st
  else {| open_list := open_list st ++ [n];
          visited := {[n]} ∪ visited st;
          g_value := <[n := (g_value st !!! cur + sg_distance g cur n)%Q]> (g_value st);
          h_value := <[n := sg_distance g n goal]> (h_value st);
          parent := <[n := cur]> (parent st) |}.

(** [RoutePlanner::AddNeighbors]. *)
Definition AddNeighbors (cur : nat) (st : SearchState) : SearchState :=
  fold_left (add_neighbor cur) (sg_neighbors g cur) st.

(** One turn of the transition rule. *)
Definition step (st : SearchState) : Status :=
  match NextNode st with
  | None => Failed st
  | Some (cur, st') =>
      if decide (cur = goal) then Succeeded st' else Running (AddNeighbors cur st')
  end.

Fixpoint search_loop (fuel : nat) (st : SearchState) : Status :=
  match fuel with
  | 0 => Running st
  | S f => match step st with Running st' => search_loop f st' | s => s end
  end.

(** The walk of [RoutePlanner::ConstructFinalPath]: push the current
    node, add its distance to its parent, move to the parent, until a
    node without parent (the start) is reached. *)
Fixpoint walk (fuel : nat) (st : SearchState) (n : nat) (acc : list nat) (d : Q) : list nat * Q :=
  match fuel with
  | 0 => (acc ++ [n], d)
  | S f =>
      match parent st !! n with
      | None => (acc ++ [n], d)
      | Some p => walk f st p (acc ++ [n]) (d + sg_distance g n p)%Q
      end
  end.

(** [RoutePlanner::ConstructFinalPath]: the path start-to-end and its
    length in metres. *)
Definition ConstructFinalPath (st : SearchState) (n : nat) : list nat * Q :=
  let '(ns, d) := walk (sg_size g) st n [] 0%Q in (rev ns, (d * sg_scale g)%Q).

(** [Search(graph, start, end)] of the spec's public contract.  A run
    that is still [Running] after [S (sg_size g)] turns cannot happen
    ([search_loop_terminates]); it is reported as [NoPathFound]. *)
Definition search (start : nat) : result (list nat * Q) :=
  match search_loop (S (sg_size g)) (init_state start) with
  | Succeeded st => Ok (ConstructFinalPath st goal)
  | Failed _ => Err NoPathFound
  | Running _ => Err NoPathFound
  end.

(** ** The transition rule as a relation: any tie-break among the
    open nodes of least [f]. *)
Inductive astar_step : SearchState -> SearchState -> Prop :=
| astar_expand st cur :
    cur ∈ open_list st -> cur <> goal ->
    (forall n, n ∈ open_list st -> (f_value st cur <= f_value st n)%Q) ->
    astar_step st (AddNeighbors cur (pop cur st)).

(** The outcomes the rule admits from [start]: in a state it reaches, the
    goal is an open node of least [f] and the path is read off that
    state's parents; or the open list of a reached state is empty. *)
Inductive astar_outcome (start : nat) : result (list nat * Q) -> Prop :=
| outcome_found st :
    rtc astar_step (init_state start) st -> goal ∈ open_list st ->
    (forall n, n ∈ open_list st -> (f_value st goal <= f_value st n)%Q) ->
    astar_outcome start (Ok (ConstructFinalPath st goal))
| outcome_exhausted st :
    rtc astar_step (init_state start) st -> open_list st = [] ->
    astar_outcome start (Err NoPathFound).

End Search.

(** ** Lemmas on the open list and the selection *)

Lemma remove_first_sub c l x : x ∈ remove_first c l -> x ∈ l.
Proof.
  induction l as [|y l IH]; simpl; [done|]. case_decide; set_solver.
Qed.

Lemma remove_first_elem c l x :
  NoDup l -> x ∈ remove_first c l <-> x ∈ l /\ x <> c.
Proof.
  induction l as [|y l IH]; simpl; [set_solver|]. intros [Hy Hl]%NoDup_cons.
  case_decide as E; [subst; set_solver|]. rewrite !elem_of_cons, IH by done. naive_solver.
Qed.

Lemma remove_first_nodup c l : NoDup l -> NoDup (remove_first c l).
Proof.
  induction l as [|y l IH]; simpl; [done|]. intros [Hy Hl]%NoDup_cons.
  case_decide; [done|]. constructor; [|by apply IH].
  intros Hin%remove_first_sub. done.
Qed.

Lemma remove_first_length c l : c ∈ l -> S (length (remove_first c l)) = length l.
Proof.
  induction l as [|y l IH]; simpl; [set_solver|]. intros Hc.
  case_decide; [done|]. simpl. rewrite IH; [done|]. set_solver.
Qed.

Lemma min_f_spec st b l :
  min_f st b l ∈ b :: l /\ forall n, n ∈ b :: l -> (f_value st (min_f st b l) <= f_value st n)%Q.
Proof.
  revert b. induction l as [|x l IH]; intros b; simpl.
  - split; [set_solver|]. intros n ->%list_elem_of_singleton. apply Qle_refl.
  - destruct (Qltb (f_value st x) (f_value st b)) eqn:E; qbool.
    + destruct (IH x) as [Hin Hle]. split; [set_solver|].
      intros n Hn. apply elem_of_cons in Hn as [->|Hn]; [|by apply Hle].
      pose proof (Hle x ltac:(set_solver)). lra.
    + destruct (IH b) as [Hin Hle]. split; [set_solver|].
      intros n Hn. apply elem_of_cons in Hn as [->|Hn]; [apply Hle; set_solver|].
      apply elem_of_cons in Hn as [->|Hn]; [|apply Hle; set_solver].
      pose proof (Hle b ltac:(set_solver)). lra.
Qed.

Lemma NextNode_Some st cur st' :
  NextNode st = Some (cur, st') ->
  cur ∈ open_list st /\ (forall n, n ∈ open_list st -> (f_value st cur <= f_value st n)%Q) /\
  st' = pop cur st.
Proof.
  unfold NextNode. destruct (open_list st) as [|n ns] eqn:E; [done|].
  intros [= <- <-]. pose proof (min_f_spec st n ns) as [? ?]. done.
Qed.

Lemma NextNode_None st : NextNode st = None <-> open_list st = [].
Proof. unfold NextNode. by destruct (open_list st). Qed.

(** The deterministic rule is one of the rule's admissible choices. *)
Lemma step_refines {G} `{SearchGraph G} (g : G) goal st st' :
  step g goal st = Running st' -> astar_step g goal st st'.
Proof.
  unfold step. destruct (NextNode st) as [[cur st0]|] eqn:E; [|done].
  apply NextNode_Some in E as (Hin & Hmin & ->). case_decide; [done|].
  intros [= <-]. by constructor.
Qed.

(** ** Paths, their cost, and parent chains *)

Section Invariants.
Context {G : Type} `{SearchGraph G} (g : G) `{!SearchGraphWf G g} (goal start : nat).

(** Consecutive nodes of a path are neighbours. *)
Fixpoint valid_path (l : list nat) : Prop :=
  match l with
  | a :: ((b :: _) as rest) => b ∈ sg_neighbors g a /\ valid_path rest
  | _ => True
  end.

(** The sum of the distances between consecutive nodes. *)
Fixpoint path_cost (l : list nat) : Q :=
  match l with
  | a :: ((b :: _) as rest) => (sg_distance g a b + path_cost rest)%Q
  | _ => 0%Q
  end.

Lemma valid_path_snoc l p n :
  last l = Some p -> valid_path l -> n ∈ sg_neighbors g p -> valid_path (l ++ [n]).
Proof.
  induction l as [|a l IH]; [done|]. intros Hl Hv Hn.
  destruct l as [|b l']; simpl in *; [by simplify_eq|].
  destruct Hv as [Hab Hv]. split; [done|]. by apply IH.
Qed.

Lemma path_cost_snoc l p n :
  last l = Some p -> (path_cost (l ++ [n]) == path_cost l + sg_distance g p n)%Q.
Proof.
  induction l as [|a l IH]; [done|]. intros Hl.
  destruct l as [|b l']; simpl in *; [simplify_eq; lra|].
  rewrite IH by done. simpl. lra.
Qed.

(** A valid path connects its first node to its last one. *)
Lemma valid_path_rtc l a b :
  valid_path l -> head l = Some a -> last l = Some b ->
  rtc (fun x y => y ∈ sg_neighbors g x) a b.
Proof.
  revert a. induction l as [|x l IH]; intros a Hv Hh Hl; [done|]. simpl in Hh. injection Hh as ->.
  destruct l as [|y l']; simpl in *; [injection Hl as ->; constructor|].
  destruct Hv as [Hy Hv]. eapply rtc_l; [exact Hy|]. by apply IH.
Qed.

(** The parent links from [n] lead back to [start]; [l] lists them
    from [start] to [n]. *)
Inductive chain (st : SearchState) : nat -> list nat -> Prop :=
| chain_root : parent st !! start = None -> chain st start [start]
| chain_link n p l : parent st !! n = Some p -> chain st p l -> chain st n (l ++ [n]).

Lemma chain_last st n l : chain st n l -> last l = Some n.
Proof. destruct 1; [done|apply last_snoc]. Qed.

Lemma chain_head st n l : chain st n l -> head l = Some start.
Proof. induction 1 as [|n p l _ _ IH]; [done|]. by destruct l. Qed.

(** A chain only depends on the parent links of its own nodes. *)
Lemma chain_lift st st' n l :
  chain st n l -> (forall y, y ∈ l -> parent st' !! y = parent st !! y) -> chain st' n l.
Proof.
  induction 1 as [Hr|n p l Hp Hc IH]; intros Heq.
  - constructor. rewrite Heq; [done|set_solver].
  - econstructor; [rewrite Heq; [done|set_solver]|]. apply IH. intros y Hy. apply Heq. set_solver.
Qed.

(** The core invariant of the per-search table. *)
Record core_inv (st : SearchState) : Prop := {
  ci_open : forall n, n ∈ open_list st -> n ∈ visited st;
  ci_nodup : NoDup (open_list st);
  ci_start : start ∈ visited st;
  ci_root : parent st !! start = None;
  ci_g_start : g_value st !!! start = 0%Q;
  ci_parent : forall n p, parent st !! n = Some p ->
    n ∈ visited st /\ p ∈ visited st /\ n ∈ sg_neighbors g p /\
    (g_value st !!! n == g_value st !!! p + sg_distance g p n)%Q;
  ci_chain : forall n, n ∈ visited st ->
    exists l, chain st n l /\ NoDup l /\ Forall (fun x => x ∈ visited st) l;
  ci_range : forall n, n ∈ visited st -> n < sg_size g
}.

(** Along a chain, consecutive nodes are neighbours and [g] is the
    path cost. *)
Lemma chain_path st n l :
  core_inv st -> chain st n l ->
  valid_path l /\ (g_value st !!! n == path_cost l)%Q.
Proof.
  intros Hc. induction 1 as [Hr|n p l Hp Hch IH].
  - simpl. split; [done|]. rewrite (ci_g_start _ Hc). reflexivity.
  - destruct IH as [Hv Hg]. destruct (ci_parent _ Hc n p Hp) as (_ & _ & Hn & Hgn).
    pose proof (chain_last _ _ _ Hch) as Hl. split; [by eapply valid_path_snoc|].
    rewrite path_cost_snoc by done. rewrite Hgn, Hg. reflexivity.
Qed.

Lemma pop_core cur st : core_inv st -> core_inv (pop cur st).
Proof.
  intros []. constructor; simpl; auto using remove_first_nodup.
  - intros n Hn%remove_first_sub. auto.
  - intros n Hn. destruct (ci_chain0 n Hn) as (l & Hl & ?). exists l. split; [|done].
    by eapply chain_lift.
Qed.

(** A node discovered from [cur] extends [cur]'s chain. *)
Lemma fresh_chain st st' cur n l :
  chain st cur l -> NoDup l -> Forall (fun x => x ∈ visited st) l -> n ∉ visited st ->
  parent st' !! n = Some cur ->
  (forall y, y ∈ visited st -> parent st' !! y = parent st !! y) ->
  chain st' n (l ++ [n]) /\ NoDup (l ++ [n]).
Proof.
  intros Hl Hnd Hall Hv Hn Hlift. split.
  - econstructor; [done|]. eapply chain_lift; [done|].
    intros y Hy. apply Hlift. by eapply Forall_elem in Hall.
  - apply NoDup_app. split_and!; [done| |apply NoDup_singleton].
    intros x Hx ->%list_elem_of_singleton. apply Hv. by eapply Forall_elem in Hall.
Qed.

Lemma add_neighbor_core cur st n :
  core_inv st -> cur ∈ visited st -> n ∈ sg_neighbors g cur ->
  core_inv (add_neighbor g goal cur st n).
Proof.
  intros Hc Hcur Hn. unfold add_neighbor. case_decide as Hv; [done|].
  match goal with |- core_inv ?s => set (st' := s) end.
  destruct Hc as [Ho Hnd Hs Hr Hg0 Hp Hch Hrg].
  assert (n <> start) by set_solver. assert (n <> cur) by set_solver.
  (* parent links of visited nodes are unchanged *)
  assert (Hlift : forall y, y ∈ visited st -> parent st' !! y = parent st !! y).
  { intros y Hy. apply lookup_insert_ne. set_solver. }
  constructor; simpl.
  - intros x. rewrite elem_of_app, list_elem_of_singleton. set_solver.
  - apply NoDup_app. split_and!; [done| |apply NoDup_singleton].
    intros x Hx ->%list_elem_of_singleton. set_solver.
  - set_solver.
  - by rewrite lookup_insert_ne.
  - by rewrite lookup_total_insert_ne.
  - intros x p. rewrite lookup_insert_Some. intros [[<- <-]|[Hne Hxp]].
    + split_and!; [set_solver|set_solver|done|].
      rewrite lookup_total_insert_eq, lookup_total_insert_ne by done. reflexivity.
    + destruct (Hp x p Hxp) as (Hx & Hpv & Hnb & Hgx).
      split_and!; [set_solver|set_solver|done|].
      rewrite !lookup_total_insert_ne by set_solver. done.
  - intros x Hx. apply elem_of_union in Hx as [->%elem_of_singleton|Hx].
    + destruct (Hch cur Hcur) as (l & Hl & Hnd' & Hall).
      destruct (fresh_chain st st' cur n l Hl Hnd' Hall Hv (lookup_insert_eq _ _ _) Hlift) as [? ?].
      exists (l ++ [n]). split_and!; [done|done|].
      apply Forall_app. split; [|by constructor; [set_solver|]].
      eapply Forall_impl; [done|]. set_solver.
    + destruct (Hch x Hx) as (l & Hl & Hnd' & Hall). exists l. split_and!; [| done |].
      * eapply chain_lift; [done|]. intros y Hy. apply Hlift. by eapply Forall_elem in Hall.
      * eapply Forall_impl; [done|]. set_solver.
  - intros x. rewrite elem_of_union, elem_of_singleton. intros [->|?]; [|auto].
    by eapply sg_neighbors_range.
Qed.

End Invariants.

Section Steps.
Context {G : Type} `{SearchGraph G} (g : G) `{!SearchGraphWf G g} (goal start : nat).

Lemma AddNeighbors_core cur st :
  core_inv g start st -> cur ∈ visited st -> core_inv g start (AddNeighbors g goal cur st).
Proof.
  intros Hc Hcur. unfold AddNeighbors.
  apply (fold_left_ind (fun s => core_inv g start s /\ cur ∈ visited s)); [done|].
  intros acc x Hx [Hacc Hin]. split; [by apply add_neighbor_core|].
  unfold add_neighbor. case_decide; set_solver.
Qed.

(** How one state extends another during expansion: visited and open
    nodes are kept, and every new visited node is open. *)
Definition grows (st st' : SearchState) : Prop :=
  visited st ⊆ visited st' /\
  (forall x, x ∈ open_list st -> x ∈ open_list st') /\
  (forall x, x ∈ visited st' -> x ∈ visited st \/ x ∈ open_list st').

Lemma grows_refl st : grows st st.
Proof. split_and!; auto. Qed.

Lemma grows_trans s1 s2 s3 : grows s1 s2 -> grows s2 s3 -> grows s1 s3.
Proof.
  intros (H1 & H2 & H3) (H4 & H5 & H6). split_and!; [set_solver|auto|].
  intros x Hx. destruct (H6 x Hx) as [Hv|]; [|auto]. destruct (H3 x Hv); auto.
Qed.

Lemma add_neighbor_grows cur st n : grows st (add_neighbor g goal cur st n).
Proof.
  unfold add_neighbor. case_decide; [apply grows_refl|]. split_and!; simpl.
  - set_solver.
  - intros x Hx. apply elem_of_app. by left.
  - intros x. rewrite elem_of_union, elem_of_singleton, elem_of_app, list_elem_of_singleton.
    naive_solver.
Qed.

#[local] Hint Resolve grows_refl grows_trans add_neighbor_grows : route.

Lemma AddNeighbors_grows cur st : grows st (AddNeighbors g goal cur st).
Proof. unfold AddNeighbors. apply fold_left_rel; eauto with route. Qed.

(** After expansion every neighbour of the expanded node is visited. *)
Lemma AddNeighbors_visits cur st m :
  m ∈ sg_neighbors g cur -> m ∈ visited (AddNeighbors g goal cur st).
Proof.
  unfold AddNeighbors. generalize (sg_neighbors g cur) as l. intros l.
  revert st. induction l as [|x l IH]; intros st Hm; simpl; [set_solver|].
  apply elem_of_cons in Hm as [->|Hm]; [|by apply IH].
  destruct (fold_left_rel grows (add_neighbor g goal cur) l (add_neighbor g goal cur st x)
    grows_refl grows_trans (fun acc y _ => add_neighbor_grows cur acc y)) as [Hsub _].
  apply Hsub. unfold add_neighbor. case_decide; set_solver.
Qed.

(** The invariant of every state the search reaches: the core invariant,
    expanded nodes have all their neighbours visited, and the goal, once
    visited, stays open until it is popped. *)
Definition search_inv (st : SearchState) : Prop :=
  core_inv g start st /\
  (forall n m, n ∈ visited st -> n ∉ open_list st -> m ∈ sg_neighbors g n -> m ∈ visited st) /\
  (goal ∈ visited st -> goal ∈ open_list st).

Lemma init_inv : start < sg_size g -> search_inv (init_state g goal start).
Proof.
  intros Hs. split_and!; simpl.
  - constructor; simpl.
    + set_solver.
    + apply NoDup_singleton.
    + set_solver.
    + apply lookup_empty.
    + apply lookup_total_singleton_eq.
    + intros n p. by rewrite lookup_empty.
    + intros n ->%elem_of_singleton. exists [start]. split_and!.
      * constructor. apply lookup_empty.
      * apply NoDup_singleton.
      * constructor; [set_solver|constructor].
    + intros n ->%elem_of_singleton. done.
  - intros n m ->%elem_of_singleton Hn. set_solver.
  - intros ->%elem_of_singleton. set_solver.
Qed.

Lemma astar_step_inv st st' : search_inv st -> astar_step g goal st st' -> search_inv st'.
Proof.
  intros (Hc & Hcl & Hgl) Hstep. destruct Hstep as [st cur Hin Hne Hmin].
  pose proof (ci_open _ _ _ Hc) as Hov. pose proof (ci_nodup _ _ _ Hc) as Hnd.
  destruct (AddNeighbors_grows cur (pop cur st)) as (Hsub & Hopen & Hnew). simpl in *.
  split_and!.
  - apply AddNeighbors_core; [by apply pop_core|simpl; auto].
  - intros n m Hn Hno Hm. destruct (decide (n = cur)) as [->|Hnc].
    + by apply AddNeighbors_visits.
    + destruct (Hnew n Hn) as [Hv|]; [|done]. apply Hsub. apply (Hcl n); [done| |done].
      intros Hno'. apply Hno, Hopen. by apply remove_first_elem.
  - intros Hg. destruct (Hnew goal Hg) as [Hv|]; [|done].
    apply Hopen. apply remove_first_elem; auto.
Qed.

Lemma rtc_astar_inv st st' :
  search_inv st -> rtc (astar_step g goal) st st' -> search_inv st'.
Proof. intros Hi Hr. induction Hr; eauto using astar_step_inv. Qed.

Lemma reachable_inv st :
  start < sg_size g -> rtc (astar_step g goal) (init_state g goal start) st -> search_inv st.
Proof. intros Hs. apply rtc_astar_inv. by apply init_inv. Qed.

End Steps.

(** ** Termination *)

Section Termination.
Context {G : Type} `{SearchGraph G} (g : G) `{!SearchGraphWf G g} (goal start : nat).

(** Unvisited nodes plus open nodes: every turn pops one open node and
    turns each discovered node from unvisited to open. *)
Definition measure (st : SearchState) : nat :=
  (sg_size g - size (visited st)) + length (open_list st).

Lemma visited_size_bound st : core_inv g start st -> size (visited st) <= sg_size g.
Proof.
  intros Hc. rewrite <- (size_set_seq (C:=gset nat) 0 (sg_size g)).
  apply subseteq_size. intros x Hx. apply elem_of_set_seq.
  pose proof (ci_range _ _ _ Hc x Hx). lia.
Qed.

Definition conserves (st st' : SearchState) : Prop :=
  length (open_list st') + size (visited st) = length (open_list st) + size (visited st').

Lemma AddNeighbors_conserves cur st : conserves st (AddNeighbors g goal cur st).
Proof.
  unfold AddNeighbors, conserves. apply (fold_left_rel conserves); unfold conserves; [lia|lia|].
  intros acc x _. unfold add_neighbor. case_decide; [lia|]. simpl.
  rewrite length_app, size_union, size_singleton by set_solver. simpl. lia.
Qed.

Lemma step_measure st st' :
  search_inv g goal start st -> step g goal st = Running st' -> measure st' < measure st.
Proof.
  intros Hi Hs. pose proof (astar_step_inv g goal start _ _ Hi (step_refines g goal _ _ Hs)) as Hi'.
  unfold step in Hs. destruct (NextNode st) as [[cur st0]|] eqn:E; [|done].
  apply NextNode_Some in E as (Hin & _ & ->). case_decide; [done|]. injection Hs as <-.
  pose proof (AddNeighbors_conserves cur (pop cur st)) as Hc.
  pose proof (remove_first_length cur _ Hin).
  pose proof (visited_size_bound _ (proj1 Hi')).
  unfold measure, conserves, pop, set_open in *. simpl in *. lia.
Qed.

(** With more turns of fuel than the measure, the loop stops in
    [Succeeded] or [Failed]. *)
Lemma search_loop_terminates fuel st :
  search_inv g goal start st -> measure st < fuel -> forall st', search_loop g goal fuel st <> Running st'.
Proof.
  revert st. induction fuel as [|f IH]; intros st Hi Hm st'; [lia|]. simpl.
  destruct (step g goal st) as [st1|st1|st1] eqn:E; [|done|done].
  apply IH; [|pose proof (step_measure _ _ Hi E); lia].
  exact (astar_step_inv g goal start _ _ Hi (step_refines g goal _ _ E)).
Qed.

Lemma measure_init : start < sg_size g -> measure (init_state g goal start) = sg_size g.
Proof. intros Hs. unfold measure, init_state. cbn [visited open_list length]. rewrite size_singleton. lia. Qed.

End Termination.

(** Every result of the loop comes from a reachable state. *)
Lemma search_loop_reach {G} `{SearchGraph G} (g : G) goal fuel st s :
  search_loop g goal fuel st = s ->
  exists st0, rtc (astar_step g goal) st st0 /\ (s = Running st0 \/ step g goal st0 = s).
Proof.
  revert st. induction fuel as [|f IH]; intros st Hs; simpl in Hs.
  - exists st. split; [done|]. by left.
  - destruct (step g goal st) as [st1|st1|st1] eqn:E.
    + destruct (IH st1 Hs) as (st0 & Hr & Hor). exists st0. split; [|done].
      eapply rtc_l; [|done]. by apply step_refines.
    + exists st. split; [done|]. right. congruence.
    + exists st. split; [done|]. right. congruence.
Qed.

(** ** The final path *)

Section Walk.
Context {G : Type} `{SearchGraph G} (g : G) `{!SearchGraphWf G g} (start : nat).

Lemma chain_nonempty st n l : chain start st n l -> 1 <= length l.
Proof. intros Hc%chain_last. destruct l; [done|simpl; lia]. Qed.

(** Walking the parent links from [n] with enough fuel lists the chain
    backwards and sums its distances. *)
Lemma walk_chain st n l fuel acc d :
  chain start st n l -> length l <= S fuel ->
  exists c, walk g fuel st n acc d = (acc ++ rev l, c) /\ (c == d + path_cost g l)%Q.
Proof.
  intros Hc. revert fuel acc d. induction Hc as [Hr|n p l Hp Hch IH]; intros fuel acc d Hlen.
  - exists d. split; [|simpl; lra]. destruct fuel; simpl; [done|]. by rewrite Hr.
  - pose proof (chain_nonempty _ _ _ Hch). rewrite length_app in Hlen. simpl in Hlen.
    destruct fuel as [|f]; [lia|]. simpl. rewrite Hp.
    destruct (IH f (acc ++ [n]) (d + sg_distance g n p)%Q) as (c & Hw & Hc'); [lia|].
    exists c. rewrite Hw, rev_app_distr, <- app_assoc. split; [done|].
    rewrite path_cost_snoc by (by eapply chain_last). rewrite Hc', (sg_distance_sym n p). lra.
Qed.

Lemma chain_length_bound (l : list nat) :
  NoDup l -> Forall (fun x => x < sg_size g) l -> length l <= sg_size g.
Proof.
  intros Hnd Hall. rewrite <- (size_list_to_set (C:=gset nat) l Hnd).
  rewrite <- (size_set_seq (C:=gset nat) 0 (sg_size g)). apply subseteq_size.
  intros x Hx%elem_of_list_to_set. apply elem_of_set_seq.
  pose proof (Forall_elem _ _ _ Hall Hx) as Hlt. simpl in Hlt. lia.
Qed.

End Walk.

(** ** What [search] guarantees *)

Section Results.
Context {G : Type} `{SearchGraph G} (g : G) `{!SearchGraphWf G g} (goal start : nat).

(** One traversal step of the graph. *)
Definition edge (a b : nat) : Prop := b ∈ sg_neighbors g a.

Lemma search_loop_not_running st :
  start < sg_size g -> search_loop g goal (S (sg_size g)) (init_state g goal start) <> Running st.
Proof.
  intros Hs. apply (search_loop_terminates g goal start); [by apply init_inv|].
  rewrite measure_init by done. lia.
Qed.

(** Every node reachable from the start is visited once the open list
    is empty. *)
Lemma closed_reach st :
  search_inv g goal start st -> open_list st = [] ->
  forall x, rtc edge start x -> x ∈ visited st.
Proof.
  intros (Hc & Hcl & _) Ho. apply rtc_ind_r; [apply (ci_start _ _ _ Hc)|].
  intros b c _ Hbc Hb. apply (Hcl b c); [done|rewrite Ho; set_solver|done].
Qed.

(** The success case in detail: the final table [st] holds a parent
    chain from the start to the goal; the returned path is that chain. *)
Lemma search_Ok_chain path d :
  start < sg_size g -> search g goal start = Ok (path, d) ->
  exists st, search_loop g goal (S (sg_size g)) (init_state g goal start) = Succeeded st /\
    core_inv g start st /\ chain start st goal path /\ NoDup path /\
    (d == path_cost g path * sg_scale g)%Q.
Proof.
  intros Hs. unfold search.
  destruct (search_loop g goal (S (sg_size g)) (init_state g goal start)) as [st|st|st] eqn:E;
    [by apply search_loop_not_running in E| |done].
  intros Hr. destruct (search_loop_reach g goal _ _ _ E) as (st0 & Hreach & [Hc|Hstep]); [done|].
  pose proof (reachable_inv g goal start st0 Hs Hreach) as (Hc & _ & Hgl).
  unfold step in Hstep. destruct (NextNode st0) as [[cur st1]|] eqn:En; [|done].
  apply NextNode_Some in En as (Hin & _ & ->). case_decide as Hcur; [|done]. subst cur.
  injection Hstep as <-.
  destruct (ci_chain _ _ _ Hc goal (ci_open _ _ _ Hc goal Hin)) as (l & Hl & Hnd & Hall).
  assert (Hl' : chain start (pop goal st0) goal l) by (apply (chain_lift g start st0); [done|done]).
  assert (Hlen : length l <= sg_size g).
  { apply chain_length_bound; [done|]. eapply Forall_impl; [done|]. apply (ci_range _ _ _ Hc). }
  destruct (walk_chain g start _ _ _ (sg_size g) [] 0%Q Hl' ltac:(lia)) as (c & Hw & Hcost).
  unfold ConstructFinalPath in Hr. rewrite Hw in Hr. simpl in Hr. rewrite rev_involutive in Hr.
  injection Hr as <- <-. exists (pop goal st0). split_and!; [done|by apply pop_core|done|done|].
  rewrite Hcost. lra.
Qed.

Theorem search_Ok path d :
  start < sg_size g -> search g goal start = Ok (path, d) ->
  head path = Some start /\ last path = Some goal /\ valid_path g path /\ NoDup path /\
  (d == path_cost g path * sg_scale g)%Q /\
  exists st, search_loop g goal (S (sg_size g)) (init_state g goal start) = Succeeded st /\
    (g_value st !!! goal == path_cost g path)%Q.
Proof.
  intros Hs Hr. destruct (search_Ok_chain path d Hs Hr) as (st & Hl & Hc & Hch & Hnd & Hd).
  destruct (chain_path g start st goal path Hc Hch) as [Hv Hg].
  split_and!; eauto using chain_head, chain_last.
Qed.

(** [NoPathFound] is the only error, and it is reported exactly when
    the goal cannot be reached. *)
Theorem search_Err e :
  start < sg_size g -> search g goal start = Err e -> e = NoPathFound /\ ~ rtc edge start goal.
Proof.
  intros Hs. unfold search.
  destruct (search_loop g goal (S (sg_size g)) (init_state g goal start)) as [st|st|st] eqn:E;
    [by apply search_loop_not_running in E|done|].
  intros [= <-]. split; [done|]. intros Hreach.
  destruct (search_loop_reach g goal _ _ _ E) as (st0 & Hr & [Hc|Hstep]); [done|].
  pose proof (reachable_inv g goal start st0 Hs Hr) as Hi.
  unfold step in Hstep. destruct (NextNode st0) as [[cur st1]|] eqn:En;
    [by case_decide|]. apply NextNode_None in En.
  pose proof (closed_reach st0 Hi En goal Hreach) as Hgv.
  destruct Hi as (_ & _ & Hgl). specialize (Hgl Hgv). rewrite En in Hgl. set_solver.
Qed.

Theorem search_complete :
  start < sg_size g -> rtc edge start goal -> exists path d, search g goal start = Ok (path, d).
Proof.
  intros Hs Hr. destruct (search g goal start) as [[path d]|e] eqn:E; [eauto|].
  destruct (search_Err e Hs E) as [_ Hn]. done.
Qed.

(** The walk reads only the parents. *)
Lemma walk_parent f st st' n acc d :
  parent st = parent st' -> walk g f st n acc d = walk g f st' n acc d.
Proof.
  intros Hp. revert n acc d. induction f as [|f IH]; intros n acc d; simpl; [done|].
  rewrite Hp. destruct (parent st' !! n); [apply IH|done].
Qed.

(** The deterministic search refines the relational A*: for a start node
    of the graph, every result of [search] is an outcome the rule admits,
    whatever the tie-break among nodes of least [f]. *)
Theorem search_refines :
  start < sg_size g -> astar_outcome g goal start (search g goal start).
Proof.
  intros Hs. unfold search.
  destruct (search_loop g goal _ (init_state g goal start)) as [st|st|st] eqn:E.
  - by destruct (search_loop_not_running st Hs).
  - destruct (search_loop_reach g goal _ _ _ E) as (st0 & Hr & [Hc|Hstep]); [done|].
    unfold step in Hstep. destruct (NextNode st0) as [[cur st1]|] eqn:En; [|done].
    apply NextNode_Some in En as (Hin & Hmin & ->).
    case_decide; [subst cur|done]. injection Hstep as <-.
    unfold ConstructFinalPath. rewrite (walk_parent _ _ st0) by done.
    by apply outcome_found.
  - destruct (search_loop_reach g goal _ _ _ E) as (st0 & Hr & [Hc|Hstep]); [done|].
    unfold step in Hstep. destruct (NextNode st0) as [[cur st1]|] eqn:En.
    + by case_decide.
    + apply NextNode_None in En. by apply (outcome_exhausted g goal start st0).
Qed.

End Results.

(** ** Expansion as one batch *)

Section Expansion.
Context {G : Type} `{SearchGraph G} (g : G) (goal : nat).

(** Discovering the nodes of a duplicate-free list one by one appends the
    unvisited ones to the open list in their order, marks all of them
    visited, and makes [cur] the parent of exactly the unvisited ones. *)
Lemma fold_add_neighbor cur ns st :
  NoDup ns ->
  let st' := fold_left (add_neighbor g goal cur) ns st in
  open_list st' = open_list st ++ filter (fun n => n ∉ visited st) ns /\
  visited st' = list_to_set ns ∪ visited st /\
  (forall n, parent st' !! n =
     if decide (n ∈ ns /\ n ∉ visited st) then Some cur else parent st !! n).
Proof.
  revert st. induction ns as [|n ns IH]; intros st Hnd; simpl.
  { rewrite app_nil_r. split_and!; [done|set_solver|]. done. }
  apply NoDup_cons in Hnd as [Hn Hnd]. destruct (decide (n ∈ visited st)) as [Hv|Hv].
  - assert (E : add_neighbor g goal cur st n = st) by (unfold add_neighbor; by rewrite decide_True).
    rewrite E. destruct (IH st Hnd) as (Ho & Hvis & Hp). rewrite filter_cons_False by tauto.
    split; [done|split; [rewrite Hvis; set_solver|]]. intros x. rewrite Hp.
    repeat case_decide; set_solver.
  - set (st1 := add_neighbor g goal cur st n).
    assert (E1 : open_list st1 = open_list st ++ [n] /\ visited st1 = {[n]} ∪ visited st /\
                 parent st1 = <[n:=cur]> (parent st))
      by (unfold st1, add_neighbor; by rewrite decide_False).
    destruct E1 as (E1o & E1v & E1p). destruct (IH st1 Hnd) as (Ho & Hvis & Hp).
    rewrite E1o, E1v in *. rewrite filter_cons_True by done.
    rewrite (filter_ext_in _ (fun m => m ∉ visited st)) in Ho by set_solver.
    split; [by rewrite Ho, <- app_assoc|split; [rewrite Hvis; set_solver|]].
    intros x. rewrite Hp, E1p. destruct (decide (x = n)) as [->|Hx].
    + rewrite lookup_insert_eq. repeat case_decide; set_solver.
    + rewrite lookup_insert_ne by done. repeat case_decide; set_solver.
Qed.

End Expansion.
