(* ===== verification/Planner.v ===== *)
(** * The route planner object ([RoutePlanner], spec sections 4.2 and 9)

    [main] builds a [RoutePlanner] from the model and the four user
    coordinates, runs [AStarSearch] and reads [GetDistance].  The
    constructor resolves both coordinates with [FindClosestNode]; the
    search runs the generic A* of [Search] on the model through the
    [SearchGraph] instance below; the planner keeps the path and the
    distance of the last successful search.  Before a search, and after a
    search that found no path, the distance is [0] and the path empty. *)

From Stdlib Require Import QArith Lqa Lia.
From stdpp Require Import base gmap list relations.
From S2P Require Import Prelude Geometry Graph Search.

(** ** The graph model seen through the search interface *)

#[export] Instance RouteModel_SearchGraph : SearchGraph RouteModel := {|
  sg_size := node_count;
  sg_neighbors := neighbors;
  sg_distance := node_distance;
  sg_scale := rm_scale
|}.

(** A model built from well-formed map data fulfils the interface. *)
Lemma build_model_wf md : map_wfb md = true -> SearchGraphWf RouteModel (build_model md).
Proof.
  intros Hwf. constructor.
  - intros a b Hb. apply neighbors_build_model in Hb. by eapply road_link_in_range.
  - intros a b. apply distance_sym.
Qed.

(** ** The planner *)

Record RoutePlanner : Type := mkPlanner {
  rp_model : RouteModel;
  rp_start : nat;
  rp_end : nat;
  rp_path : list nat;
  rp_distance : Q
}.

(** [RoutePlanner::RoutePlanner]: resolve the two coordinates to nodes. *)
Definition make_planner (m : RouteModel) (sx sy ex ey : Q) : result RoutePlanner :=
  s ← FindClosestNode m sx sy;
  e ← FindClosestNode m ex ey;
  mret {| rp_model := m; rp_start := s; rp_end := e; rp_path := []; rp_distance := 0%Q |}.

(** [RoutePlanner::AStarSearch]: run the search from the start node to
    the end node, store the path and distance on success, and report the
    outcome. *)
Definition AStarSearch (p : RoutePlanner) : RoutePlanner * result unit :=
  match search (rp_model p) (rp_end p) (rp_start p) with
  | Ok (path, d) =>
      ({| rp_model := rp_model p; rp_start := rp_start p; rp_end := rp_end p;
          rp_path := path; rp_distance := d |}, Ok tt)
  | Err e => (p, Err e)
  end.

(** [RoutePlanner::GetDistance]. *)
Definition GetDistance (p : RoutePlanner) : Q := rp_distance p.

(** ** Lemmas *)

Lemma make_planner_Ok m sx sy ex ey p :
  make_planner m sx sy ex ey = Ok p ->
  rp_model p = m /\ rp_path p = [] /\ rp_distance p = 0%Q /\
  FindClosestNode m sx sy = Ok (rp_start p) /\ FindClosestNode m ex ey = Ok (rp_end p).
Proof.
  unfold make_planner. destruct (FindClosestNode m sx sy) eqn:E1; [|done]. simpl.
  destruct (FindClosestNode m ex ey) eqn:E2; [|done]. simpl. by intros [= <-].
Qed.

Lemma make_planner_Err m sx sy ex ey e :
  make_planner m sx sy ex ey = Err e <-> rm_nodes m = [] /\ e = EmptyGraph.
Proof.
  unfold make_planner. destruct (FindClosestNode m sx sy) eqn:E1; simpl.
  - destruct (FindClosestNode m ex ey) eqn:E2; simpl.
    + split; [done|]. intros [Hn _]. unfold FindClosestNode in E1. by rewrite Hn in E1.
    + rewrite FindClosestNode_Err in E2. naive_solver.
  - rewrite FindClosestNode_Err in E1. naive_solver.
Qed.

(** ** The search results on a model built from well-formed data *)

Section ModelSearch.
Variable md : MapData.
Hypothesis Hwf : map_wfb md = true.

#[local] Instance model_wf : SearchGraphWf RouteModel (build_model md) := build_model_wf md Hwf.

Lemma model_search_Ok s e path d :
  s < node_count (build_model md) -> search (build_model md) e s = Ok (path, d) ->
  head path = Some s /\ last path = Some e /\ valid_path (build_model md) path /\ NoDup path /\
  (d == path_cost (build_model md) path * rm_scale (build_model md))%Q /\
  exists st, search_loop (build_model md) e (S (node_count (build_model md)))
               (init_state (build_model md) e s) = Succeeded st /\
    (g_value st !!! e == path_cost (build_model md) path)%Q.
Proof. apply (@search_Ok RouteModel RouteModel_SearchGraph (build_model md) _ e s). Qed.

Lemma model_search_Err s e err :
  s < node_count (build_model md) -> search (build_model md) e s = Err err ->
  err = NoPathFound /\ ~ rtc (edge (build_model md)) s e.
Proof. apply (@search_Err RouteModel RouteModel_SearchGraph (build_model md) _ e s). Qed.

Lemma model_search_complete s e :
  s < node_count (build_model md) -> rtc (edge (build_model md)) s e ->
  exists path d, search (build_model md) e s = Ok (path, d).
Proof. apply (@search_complete RouteModel RouteModel_SearchGraph (build_model md) _ e s). Qed.

Lemma model_search_loop_stops s e :
  s < node_count (build_model md) ->
  exists st, search_loop (build_model md) e (S (node_count (build_model md)))
               (init_state (build_model md) e s) = Succeeded st \/
             search_loop (build_model md) e (S (node_count (build_model md)))
               (init_state (build_model md) e s) = Failed st.
Proof.
  intros Hs.
  pose proof (@search_loop_not_running RouteModel RouteModel_SearchGraph (build_model md) _ e s) as Hn.
  destruct (search_loop _ _ _ _) as [st|st|st]; eauto. exfalso. by apply (Hn st).
Qed.

End ModelSearch.
