(* ===== verification/Cli.v ===== *)
(** * Command line ([main], lines 17-28 of [src/src/main.cpp])

    [main] looks for the map file among its arguments: every ["-f"] that
    has a following argument makes that argument the file name, so the
    last one wins; a ["-f"] in last position is ignored.  Without any
    argument it prints a usage message and falls back to ["../map.osm"].
    With arguments but no usable ["-f"], the file name stays empty. *)

From Stdlib Require Import String Lia Wf_nat.
From stdpp Require Import base list sets.
From S2P Require Import Prelude.

Local Open Scope string_scope.

Definition default_osm_file : string := "../map.osm".

(** Lines 24-26. *)
Definition usage_message : list Out :=
  [OStr "To specify a map file use the following format: "; OStr nl;
   OStr "Usage: [executable] [-f filename.osm]"; OStr nl].

(** Line 21: [std::string_view{argv[i]} == "-f"]. *)
Definition is_file_flag (a : string) : bool := String.eqb a "-f".

(** Line 19: [argc > 1], with [argv] the whole argument vector. *)
Definition has_arguments (argv : list string) : bool := Nat.ltb 1 (List.length argv).

(** The loop of lines 20-22 over [argv[1..]]:
    [if (argv[i] == "-f" && ++i < argc) osm_data_file = argv[i];]. *)
Fixpoint scan_args (args : list string) (file : string) : string :=
  match args with
  | [] => file
  | a :: rest =>
      if is_file_flag a then
        match rest with
        | [] => file
        | f :: rest' => scan_args rest' f
        end
      else scan_args rest file
  end.

(** Lines 18-28: [argv] is the whole argument vector, program name
    included, so [argc > 1] means at least one argument. *)
Definition select_osm_file (argv : list string) : string * list Out :=
  if has_arguments argv then (scan_args (tail argv) "", [])
  else (default_osm_file, usage_message).

(** ** Lemmas *)

(** The scan returns its initial value or an argument that follows a
    ["-f"]. *)
Lemma scan_args_source args file :
  scan_args args file = file \/
  exists i, args !! i = Some "-f" /\ args !! S i = Some (scan_args args file).
Proof.
  remember (List.length args) as n eqn:Hn. revert args file Hn.
  induction n as [n IH] using lt_wf_ind. intros args file ->.
  destruct args as [|a rest]; [by left|]. simpl.
  unfold is_file_flag; destruct (String.eqb_spec a "-f") as [->|Hne].
  - destruct rest as [|f rest']; [by left|].
    destruct (IH (List.length rest') ltac:(simpl; lia) rest' f eq_refl) as [Hf|(i & Hi & Hsi)]; right.
    + exists 0. by rewrite Hf.
    + exists (S (S i)). done.
  - destruct (IH (List.length rest) ltac:(simpl; lia) rest file eq_refl) as [Hf|(i & Hi & Hsi)];
      [by left|]. right. by exists (S i).
Qed.

(** With no ["-f"] before the last argument, the file name is unchanged. *)
Lemma scan_args_no_flag args file :
  "-f" ∉ removelast args -> scan_args args file = file.
Proof.
  induction args as [|a rest IH]; intros Hno; simpl; [done|].
  destruct rest as [|b rest']; [by unfold is_file_flag; destruct (String.eqb a "-f")|].
  unfold is_file_flag; destruct (String.eqb_spec a "-f") as [->|Hne]; [simpl in Hno; set_solver|].
  apply IH. simpl in Hno. set_solver.
Qed.


(** Run without arguments, [main] prints the usage message and uses
    ["../map.osm"]. *)
Lemma select_osm_file_default argv :
  List.length argv <= 1 -> select_osm_file argv = (default_osm_file, usage_message).
Proof.
  intros Hle. unfold select_osm_file, has_arguments.
  replace (Nat.ltb 1 (List.length argv)) with false by (symmetry; apply Nat.ltb_ge; lia). done.
Qed.

(** C19: run with arguments, [main] prints nothing, and the file name is
    empty or an argument that follows a ["-f"]. *)
Theorem select_osm_file_args argv :
  1 < List.length argv ->
  snd (select_osm_file argv) = [] /\
  (fst (select_osm_file argv) = "" \/
   exists i, tail argv !! i = Some "-f" /\ tail argv !! S i = Some (fst (select_osm_file argv))).
Proof.
  intros Hlt. unfold select_osm_file, has_arguments.
  replace (Nat.ltb 1 (List.length argv)) with true by (symmetry; apply Nat.ltb_lt; lia).
  split; [done|]. apply scan_args_source.
Qed.

(** C20: the first ["-f"] followed by an argument sets the file name and
    the scan continues after that argument, so a later ["-f"] overrides
    it. *)
Theorem scan_args_flag_value pre f rest file :
  "-f" ∉ pre -> scan_args (pre ++ "-f" :: f :: rest) file = scan_args rest f.
Proof.
  induction pre as [|a pre IH]; intros Hnin; simpl; [done|].
  unfold is_file_flag; destruct (String.eqb_spec a "-f") as [->|_]; [set_solver|]. apply IH. set_solver.
Qed.

Lemma select_osm_file_args_witness :
  snd (select_osm_file ["route"; "-f"; "map.osm"]) = [] /\
  (fst (select_osm_file ["route"; "-f"; "map.osm"]) = "" \/
   exists i, tail ["route"; "-f"; "map.osm"] !! i = Some "-f" /\
     tail ["route"; "-f"; "map.osm"] !! S i = Some (fst (select_osm_file ["route"; "-f"; "map.osm"]))).
Proof. apply select_osm_file_args. simpl. lia. Defined.

Lemma scan_args_flag_value_witness :
  scan_args (["-x"] ++ "-f" :: "a.osm" :: ["-f"; "b.osm"]) "" = scan_args ["-f"; "b.osm"] "a.osm".
Proof. apply scan_args_flag_value. vm_decide. Defined.
