(* ===== verification/FileIO.v ===== *)
(** * Reading the map file ([ReadFile] and lines 30-40 of [main])

    The file system is a function from paths to contents, [None] for a
    file that cannot be opened.  [ReadFile] (lines 96-110) works on an
    [std::ifstream] opened in binary mode at the end of the file
    ([std::ios::ate]): it takes the size from [tellg], allocates a
    zero-filled buffer of that size, seeks back to the start and reads
    that many bytes into the buffer.  An [ifstream] is modelled by the
    file's bytes, the read position and whether the stream is good.
    libstdc++ closes a file opened with [ate] whose end cannot be sought
    (a pipe, a terminal), so such a file is one that cannot be opened.
    [main] reads the file only when a file name was chosen, announces it,
    and on failure prints ["Failed to read."] and goes on with no data.
    The theorems: the stream operations return the whole file (C21),
    and a read that comes up short is not detected (C18). *)

From Stdlib Require Import String ZArith Lia.
From stdpp Require Import base list.
From S2P Require Import Prelude.

Local Open Scope string_scope.

Definition FileSystem : Type := string -> option (list Byte.byte).

(** ** The input file stream *)

Record ifstream : Type := mkIfstream {
  is_file : list Byte.byte;
  is_pos : nat;
  is_good : bool
}.

(** [std::ifstream is{path, std::ios::binary | std::ios::ate}] (line 97):
    positioned at the end, or failed when the file cannot be opened. *)
Definition ifstream_open (fs : FileSystem) (path : string) : ifstream :=
  match fs path with
  | Some bytes => mkIfstream bytes (List.length bytes) true
  | None => mkIfstream [] 0 false
  end.

(** [is.tellg()] (line 101): the position, [-1] on a failed stream. *)
Definition tellg (s : ifstream) : Z :=
  if is_good s then Z.of_nat (is_pos s) else (-1)%Z.

(** [is.seekg(off)] (line 104); a failed stream is left as it is. *)
Definition seekg (off : nat) (s : ifstream) : ifstream :=
  if is_good s then mkIfstream (is_file s) off true else s.

(** [is.read(buf, n)] (line 105): up to [n] bytes from the position
    overwrite the front of the buffer; reading fewer fails the stream. *)
Definition read (buf : list Byte.byte) (n : nat) (s : ifstream) : list Byte.byte * ifstream :=
  if is_good s then
    let got := take n (drop (is_pos s) (is_file s)) in
    ((got ++ drop (List.length got) buf)%list, mkIfstream (is_file s) (is_pos s + List.length got) (Nat.eqb (List.length got) n))
  else (buf, s).

(** Lines 98-109 of [ReadFile], on the stream line 97 opened. *)
Definition ReadFile_from (s : ifstream) : option (list Byte.byte) :=
  if negb (is_good s) then None else
  let size := tellg s in
  let contents := replicate (Z.to_nat size) Byte.x00 in
  let s := seekg 0 s in
  let '(contents, s) := read contents (Z.to_nat size) s in
  match contents with [] => None | _ => Some contents end.

(** [ReadFile] (lines 96-110). *)
Definition ReadFile (fs : FileSystem) (path : string) : option (list Byte.byte) :=
  ReadFile_from (ifstream_open fs path).

(** Lines 33-34. *)
Definition reading_message (file : string) : list Out :=
  [OStr "Reading OpenStreetMap data from the following file: "; OStr file; OStr nl].

(** Line 37. *)
Definition failed_message : list Out := [OStr "Failed to read."; OStr nl].

(** Lines 30-40; the data buffer starts empty, so its emptiness test
    always holds. *)
Definition load_osm_data (fs : FileSystem) (osm_data_file : string) : list Byte.byte * list Out :=
  let osm_data : list Byte.byte := [] in
  if (match osm_data with [] => true | _ => false end) && negb (String.eqb osm_data_file "") then
    match ReadFile fs osm_data_file with
    | None => (osm_data, app (reading_message osm_data_file) failed_message)
    | Some data => (data, reading_message osm_data_file)
    end
  else (osm_data, []).

(** ** Lemmas *)


(** C22: loading reads nothing and prints nothing when no file name was
    chosen; otherwise it announces the file and returns its contents, or,
    when [ReadFile] fails, prints ["Failed to read."] and returns no data
    rather than stopping. *)
Theorem load_osm_data_cases fs file :
  (file = "" /\ load_osm_data fs file = ([], [])) \/
  (file <> "" /\ exists data, ReadFile fs file = Some data /\
     load_osm_data fs file = (data, reading_message file)) \/
  (file <> "" /\ ReadFile fs file = None /\
     load_osm_data fs file = ([], app (reading_message file) failed_message)).
Proof.
  unfold load_osm_data. simpl. destruct (String.eqb_spec file "") as [->|Hne]; [by left|]. simpl.
  right. destruct (ReadFile fs file) as [data|]; [left|right]; eauto.
Qed.

(** Reading [n] bytes from the start into a zero-filled buffer of [n]
    bytes: the bytes the file has, then what is left of the zeros. *)
Lemma read_from_start bytes n :
  fst (read (replicate n Byte.x00) n (mkIfstream bytes 0 true)) =
  (take n bytes ++ replicate (n - List.length (take n bytes)) Byte.x00)%list.
Proof. unfold read. simpl. by rewrite drop_0, drop_replicate. Qed.

(** Lines 98-109 on a good stream positioned at [n]: the buffer read
    from the start. *)
Lemma ReadFile_from_good bytes n :
  ReadFile_from (mkIfstream bytes n true) =
  match (take n bytes ++ replicate (n - List.length (take n bytes)) Byte.x00)%list with
  | [] => None | c => Some c end.
Proof.
  unfold ReadFile_from. cbn -[read]. unfold tellg. cbn -[read].
  rewrite Nat2Z.id. destruct (read _ _ _) as [c s'] eqn:E.
  pose proof (read_from_start bytes n) as H. rewrite E in H. simpl in H. subst c. by destruct (take n bytes ++ _)%list.
Qed.

(** The stream operations of [ReadFile] on a file that opens. *)
Lemma ReadFile_opened fs path bytes :
  fs path = Some bytes -> ReadFile fs path = match bytes with [] => None | _ => Some bytes end.
Proof.
  intros E. unfold ReadFile, ifstream_open. rewrite E, ReadFile_from_good, take_ge by lia.
  rewrite Nat.sub_diag. simpl. rewrite app_nil_r. by destruct bytes.
Qed.

(** C21: [ReadFile]'s stream operations (open at the end, [tellg], a
    zero-filled buffer of that size, [seekg(0)], [read]) return exactly
    the contents of the file when it can be opened and is not empty, and
    nothing otherwise: the buffer is never left holding zeros. *)
Theorem ReadFile_spec fs path data :
  (ReadFile fs path = Some data <-> fs path = Some data /\ data <> []) /\
  (ReadFile fs path = None <-> fs path = None \/ fs path = Some []).
Proof.
  destruct (fs path) as [bytes|] eqn:E.
  - rewrite (ReadFile_opened _ _ _ E). destruct bytes; naive_solver.
  - unfold ReadFile, ifstream_open. rewrite E. naive_solver.
Qed.

(** C18: [ReadFile] does not check the stream after [is.read] (line
    105).  When the file has become shorter than the size [tellg] gave
    (it was truncated after line 97 opened it), the read comes up short
    and fails the stream, yet [ReadFile] returns the whole buffer: the
    bytes the file still has followed by zero bytes, as map data. *)
Theorem ReadFile_short_read bytes n :
  List.length bytes < n ->
  ReadFile_from (mkIfstream bytes n true) = Some (bytes ++ replicate (n - List.length bytes) Byte.x00)%list /\
  is_good (snd (read (replicate n Byte.x00) n (mkIfstream bytes 0 true))) = false.
Proof.
  intros Hlt. rewrite ReadFile_from_good, take_ge by lia. split.
  - by destruct bytes, n; simpl; try lia.
  - unfold read. simpl. rewrite drop_0, take_ge by lia. apply Nat.eqb_neq. lia.
Qed.
