(* ===== verification/Radix.v ===== *)
(** * Powers and logarithms in a radix

    The number formats of the program's input and output are positional:
    binary for [float] ([Float32]), decimal for the text [std::cout]
    prints ([Format]).  This file gives, for a radix [b >= 2], the powers
    [bpow b k = b^k] as rationals for every integer [k], the integer
    logarithm [ilog b n] of a positive integer, and the binade [flog b q]
    of a positive rational: the [k] with [b^k <= q < b^(k+1)]. *)

From Stdlib Require Import QArith Qpower ZArith Lia Lqa.
From stdpp Require Import base tactics.
From S2P Require Import Prelude.

Local Open Scope Q_scope.

Section Radix.

Variable b : Z.

Definition bpow (k : Z) : Q := Qpower (inject_Z b) k.

(** The number of divisions by [b] that keep an integer at least [b]. *)
Fixpoint ilog_fuel (fuel : nat) (n : Z) : Z :=
  match fuel with
  | O => 0
  | S f => if (n <? b)%Z then 0 else 1 + ilog_fuel f (n / b)
  end.

(** Base [b] has no more digits than base 2. *)
Definition ilog (n : Z) : Z := ilog_fuel (S (Z.to_nat (Z.log2 n))) n.

(** The estimate from the lengths of numerator and denominator is exact
    or one too large. *)
Definition flog (q : Q) : Z :=
  let L := (ilog (Qnum q) - ilog (Zpos (Qden q)))%Z in
  if Qltb q (bpow L) then (L - 1)%Z else L.

Lemma ilog_nonneg n : (0 <= ilog n)%Z.
Proof.
  unfold ilog. generalize (S (Z.to_nat (Z.log2 n))). intros f. revert n.
  induction f as [|f IH]; intros n; simpl; [lia|]. destruct (n <? b)%Z; [lia|]. specialize (IH (n / b)%Z). lia.
Qed.

Hypothesis Hb : (2 <= b)%Z.

Lemma bpow_pos k : 0 < bpow k.
Proof. apply Qpower_0_lt. unfold Qlt; simpl. lia. Qed.

Lemma bpow_add k l : bpow (k + l) == bpow k * bpow l.
Proof. apply Qpower_plus. intros E. unfold Qeq in E; simpl in E. lia. Qed.

Lemma bpow_Z k : (0 <= k)%Z -> bpow k == inject_Z (b ^ k).
Proof. intros Hk. unfold bpow. by rewrite Zpower_Qpower. Qed.

Lemma bpow_le_mono k l : (k <= l)%Z -> bpow k <= bpow l.
Proof. intros. apply Qpower_le_compat_l; [lia|unfold Qle; simpl; lia]. Qed.

Lemma bpow_lt_mono k l : (k < l)%Z -> bpow k < bpow l.
Proof. intros. apply Qpower_lt_compat_l; [lia|unfold Qlt; simpl; lia]. Qed.

Lemma bpow_lt_inv k l : bpow k < bpow l -> (k < l)%Z.
Proof. intros H. eapply Qpower_lt_compat_l_inv; [exact H|unfold Qlt; simpl; lia]. Qed.

Lemma bpow_neq0 k : ~ bpow k == 0.
Proof. pose proof (bpow_pos k). intros E. rewrite E in H. discriminate. Qed.

Lemma bpow_sub k l : (0 <= k)%Z -> (0 <= l)%Z -> bpow (k - l) == inject_Z (b ^ k) / inject_Z (b ^ l).
Proof.
  intros Hk Hl. replace (k - l)%Z with (k + - l)%Z by lia.
  rewrite bpow_add. unfold bpow at 2. rewrite Qpower_opp.
  fold (bpow l). rewrite !bpow_Z by done. reflexivity.
Qed.

Lemma ilog_fuel_spec f n :
  (0 < n)%Z -> (n < b ^ Z.of_nat f)%Z ->
  (0 <= ilog_fuel f n)%Z /\ (b ^ ilog_fuel f n <= n < b ^ (ilog_fuel f n + 1))%Z.
Proof.
  revert n. induction f as [|f IH]; intros n Hn Hf; simpl in *; [lia|].
  destruct (Z.ltb_spec n b) as [Hlt|Hge]; [lia|].
  assert (Hq : (0 < n / b)%Z) by (apply Z.div_str_pos; lia).
  rewrite Nat2Z.inj_succ, Z.pow_succ_r in Hf by lia.
  assert (Hf' : (n / b < b ^ Z.of_nat f)%Z) by (apply Z.div_lt_upper_bound; lia).
  destruct (IH _ Hq Hf') as (H0 & H1 & H2).
  pose proof (Z.mul_div_le n b ltac:(lia)). pose proof (Z.mod_pos_bound n b ltac:(lia)).
  pose proof (Z_div_mod_eq_full n b).
  remember (ilog_fuel f (n / b)) as r eqn:Er. clear Er.
  rewrite Z.pow_add_r, Z.pow_1_r in H2 by lia.
  replace (1 + r + 1)%Z with (Z.succ (Z.succ r)) by lia. replace (1 + r)%Z with (Z.succ r) by lia.
  rewrite !Z.pow_succ_r by lia.
  assert (b * b ^ r <= b * (n / b))%Z by (apply Z.mul_le_mono_nonneg_l; lia).
  assert (b * (n / b + 1) <= b * (b * b ^ r))%Z by (apply Z.mul_le_mono_nonneg_l; lia).
  lia.
Qed.

Lemma ilog_spec n : (0 < n)%Z -> (0 <= ilog n)%Z /\ (b ^ ilog n <= n < b ^ (ilog n + 1))%Z.
Proof.
  intros Hn. apply ilog_fuel_spec; [done|].
  pose proof (Z.log2_spec n Hn) as [_ H]. eapply Z.lt_le_trans; [exact H|].
  rewrite Nat2Z.inj_succ, Z2Nat.id by apply Z.log2_nonneg.
  apply Z.pow_le_mono_l. lia.
Qed.

Lemma frac_lt x y n d :
  (0 < y)%Z -> (0 < d)%Z -> (x * d < n * y)%Z -> inject_Z x / inject_Z y < inject_Z n / inject_Z d.
Proof.
  intros Hy Hd H. destruct y, d; try lia.
  unfold Qlt, Qdiv, Qmult, Qinv; simpl. lia.
Qed.

Lemma flog_bracket q : 0 < q ->
  let L := (ilog (Qnum q) - ilog (Zpos (Qden q)))%Z in
  bpow (L - 1) < q /\ q < bpow (L + 1).
Proof.
  destruct q as [n d]. intros Hq; cbn [Qnum Qden].
  assert (Hn : (0 < n)%Z) by (unfold Qlt in Hq; simpl in Hq; lia).
  destruct (ilog_spec n Hn) as (Hn0 & Hn1 & Hn2).
  destruct (ilog_spec (Zpos d) eq_refl) as (Hd0 & Hd1 & Hd2).
  rewrite Qmake_Qdiv.
  replace (ilog n - ilog (Zpos d) - 1)%Z with (ilog n - (ilog (Zpos d) + 1))%Z by lia.
  replace (ilog n - ilog (Zpos d) + 1)%Z with ((ilog n + 1) - ilog (Zpos d))%Z by lia.
  rewrite !bpow_sub by lia.
  split; apply frac_lt; try lia; nia.
Qed.

Lemma flog_spec q : 0 < q -> bpow (flog q) <= q /\ q < bpow (flog q + 1).
Proof.
  intros Hq. pose proof (flog_bracket q Hq) as [H1 H2]. unfold flog.
  destruct (Qltb q _) eqn:E; qbool.
  - replace (_ - 1 + 1)%Z with (ilog (Qnum q) - ilog (Zpos (Qden q)))%Z by lia. split; [lra|done].
  - done.
Qed.

Lemma flog_unique q k : bpow k <= q -> q < bpow (k + 1) -> flog q = k.
Proof.
  intros H1 H2. assert (Hq : 0 < q) by (pose proof (bpow_pos k); lra).
  pose proof (flog_spec q Hq) as [H3 H4].
  assert (flog q < k + 1)%Z by (apply bpow_lt_inv; lra).
  assert (k < flog q + 1)%Z by (apply bpow_lt_inv; lra).
  lia.
Qed.

Lemma flog_Qeq q q' : 0 < q -> q == q' -> flog q' = flog q.
Proof.
  intros Hq E. pose proof (flog_spec q Hq) as [H1 H2].
  apply flog_unique; by rewrite <- E.
Qed.

End Radix.
