(* ===== verification/Float32.v ===== *)
(** * Single-precision conversion ([strtof] under [operator>>(float&)])

    [get_user_input] (line 87 of [src/src/main.cpp]) extracts a [float]:
    libstdc++'s [num_get] collects the characters of a decimal number and
    converts them with [strtof] ([__convert_to_v] in [c++locale.cc]),
    which rounds the exact decimal value to the nearest IEEE 754 binary32
    number, ties to the even significand.  A result that overflows to an
    infinity makes [__convert_to_v] set [failbit]; the program then stores
    [-1].  Underflow is not an error: tiny values become subnormals or
    zero.

    binary32 has a 24-bit significand and its least exponent (of the last
    bit of a subnormal) is [-149]; finite values are below [2^128].  A
    positive [q] lies in the binade [[2^k, 2^(k+1))] with [k = flog2 q];
    its last significant bit is [2^(float_exp q)] with
    [float_exp q = max (-149) (k - 23)], and [round_pos] rounds [q] to a
    multiple of that bit.  Values are exact rationals ([Q]) in lowest
    terms ([Qred]) so that equal floats are equal terms. *)

From Stdlib Require Import QArith Qpower Qround Qabs ZArith Lia Lqa Morphisms.
From stdpp Require Import base tactics.
From S2P Require Import Prelude Radix.

Local Open Scope Q_scope.

(** ** The format *)

Definition prec : Z := 24.
Definition emin : Z := -149.
Definition emax : Z := 128.

Definition pow2 (k : Z) : Q := bpow 2 k.

(** The exponent of the binade of a positive rational. *)
Definition flog2 (q : Q) : Z := flog 2 q.

(** The weight of the last significand bit of the float nearest [q]. *)
Definition float_exp (q : Q) : Z := Z.max emin (flog2 q - (prec - 1)).

(** Rounding to an integer, ties to even. *)
Definition round_ne (x : Q) : Z :=
  let f := Qfloor x in
  let r := x - inject_Z f in
  if Qltb r (1#2) then f
  else if Qltb (1#2) r then (f + 1)%Z
  else if Z.even f then f else (f + 1)%Z.

(** Rounding of a positive rational to binary32, ignoring overflow. *)
Definition round_pos (q : Q) : Q :=
  let e := float_exp q in Qred (inject_Z (round_ne (q / pow2 e)) * pow2 e).

(** [strtof] and the overflow test of [__convert_to_v]: [None] is the
    [failbit] of a value that rounds to an infinity. *)
Definition strtof (q : Q) : option Q :=
  if Qeq_bool q 0 then Some 0
  else let r := round_pos (Qabs q) in
       if Qle_bool (pow2 emax) r then None
       else Some (if Qltb q 0 then Qred (- r) else r).

(** ** Powers of two and binades, from [Radix] *)

Lemma radix2 : (2 <= 2)%Z.
Proof. lia. Qed.

Lemma pow2_pos k : 0 < pow2 k.
Proof. apply bpow_pos, radix2. Qed.

Lemma pow2_add a b : pow2 (a + b) == pow2 a * pow2 b.
Proof. apply bpow_add, radix2. Qed.

Lemma pow2_succ k : pow2 (k + 1) == 2 * pow2 k.
Proof. rewrite pow2_add. assert (E : pow2 1 == 2) by reflexivity. rewrite E. ring. Qed.

Lemma pow2_Z k : (0 <= k)%Z -> pow2 k == inject_Z (2 ^ k).
Proof. apply bpow_Z. Qed.

Lemma pow2_le_mono a b : (a <= b)%Z -> pow2 a <= pow2 b.
Proof. apply bpow_le_mono, radix2. Qed.

Lemma pow2_lt_mono a b : (a < b)%Z -> pow2 a < pow2 b.
Proof. apply bpow_lt_mono, radix2. Qed.

Lemma pow2_lt_inv a b : pow2 a < pow2 b -> (a < b)%Z.
Proof. apply bpow_lt_inv, radix2. Qed.

Lemma pow2_neq0 k : ~ pow2 k == 0.
Proof. apply bpow_neq0, radix2. Qed.

#[export] Hint Resolve pow2_pos pow2_neq0 : route.

Lemma flog2_spec q : 0 < q -> pow2 (flog2 q) <= q /\ q < pow2 (flog2 q + 1).
Proof. apply flog_spec, radix2. Qed.

Lemma flog2_unique q k : pow2 k <= q -> q < pow2 (k + 1) -> flog2 q = k.
Proof. apply flog_unique, radix2. Qed.

Lemma flog2_Qeq q q' : 0 < q -> q == q' -> flog2 q' = flog2 q.
Proof. apply flog_Qeq, radix2. Qed.

(** ** Rounding to an integer *)

(** The case analysis of [round_ne] with the floor's bounds in context. *)
Ltac round_cases x :=
  unfold round_ne;
  pose proof (Qfloor_le x); pose proof (Qlt_floor x);
  repeat match goal with
  | |- context [Qltb ?a ?b] => let E := fresh "E" in destruct (Qltb a b) eqn:E; qbool
  | |- context [Z.even ?z] => destruct (Z.even z)
  end;
  rewrite ?inject_Z_plus in *; change (inject_Z 1) with 1 in *.

Lemma round_ne_approx x : Qabs (x - inject_Z (round_ne x)) <= 1#2.
Proof. apply Qabs_Qle_condition. round_cases x; split; lra. Qed.

Lemma round_ne_le x k : x <= inject_Z k -> (round_ne x <= k)%Z.
Proof.
  intros Hx. pose proof (Qfloor_resp_le _ _ Hx) as Hf. rewrite Qfloor_Z in Hf.
  destruct (Z.eq_dec (Qfloor x) k) as [Ek|Nk].
  - assert (x == inject_Z k) by (pose proof (Qfloor_le x); rewrite Ek in *; lra).
    round_cases x; rewrite ?Ek in *; try lia; lra.
  - round_cases x; lia.
Qed.

Lemma round_ne_ge x k : inject_Z k <= x -> (k <= round_ne x)%Z.
Proof.
  intros Hx. pose proof (Qfloor_resp_le _ _ Hx) as Hf. rewrite Qfloor_Z in Hf.
  round_cases x; lia.
Qed.

(** Less than half a unit above an integer rounds down to it. *)
Lemma round_ne_near x k : inject_Z k <= x -> x < inject_Z k + (1#2) -> round_ne x = k.
Proof.
  intros H1 H2. pose proof (round_ne_ge x k H1).
  pose proof (round_ne_approx x) as Ha. apply Qabs_Qle_condition in Ha as [Ha _].
  assert (Hr : inject_Z (round_ne x) < inject_Z (k + 1)).
  { rewrite inject_Z_plus. change (inject_Z 1) with 1. lra. }
  rewrite <- Zlt_Qlt in Hr. lia.
Qed.

Lemma round_ne_Z k : round_ne (inject_Z k) = k.
Proof.
  unfold round_ne. rewrite Qfloor_Z.
  replace (Qltb (inject_Z k - inject_Z k) (1#2)) with true; [done|].
  symmetry. apply Qltb_iff. lra.
Qed.

(** Rounding sees the value of a rational, not its representation. *)
#[export] Instance round_ne_proper : Proper (Qeq ==> eq) round_ne.
Proof.
  intros x y E. unfold round_ne. rewrite (Qfloor_comp x y E).
  assert (H1 : Qltb (x - inject_Z (Qfloor y)) (1#2) = Qltb (y - inject_Z (Qfloor y)) (1#2)) by (by rewrite E).
  assert (H2 : Qltb (1#2) (x - inject_Z (Qfloor y)) = Qltb (1#2) (y - inject_Z (Qfloor y))) by (by rewrite E).
  by rewrite H1, H2.
Qed.

(** ** Rounding a positive rational *)

Lemma round_pos_eq q :
  round_pos q == inject_Z (round_ne (q / pow2 (float_exp q))) * pow2 (float_exp q).
Proof. apply Qred_correct. Qed.

Lemma round_pos_Qeq q q' : 0 < q -> q == q' -> round_pos q' = round_pos q.
Proof.
  intros Hq E. unfold round_pos, float_exp. rewrite (flog2_Qeq q q' Hq E).
  apply Qred_complete. set (p := pow2 _).
  by rewrite E.
Qed.

Section RoundPos.

Variable q : Q.
Hypothesis Hq : 0 < q.

Lemma float_exp_above : q < pow2 (float_exp q + prec).
Proof.
  pose proof (flog2_spec q Hq) as [_ H]. eapply Qlt_le_trans; [exact H|].
  apply pow2_le_mono. unfold float_exp, prec. lia.
Qed.

Lemma float_exp_normal :
  (emin <= flog2 q - (prec - 1))%Z -> pow2 (float_exp q + (prec - 1)) <= q.
Proof.
  intros H. pose proof (flog2_spec q Hq) as [H1 _]. unfold float_exp.
  rewrite Z.max_r by done. by replace (_ + _)%Z with (flog2 q) by lia.
Qed.

Lemma round_pos_err : Qabs (round_pos q - q) <= pow2 (float_exp q - 1).
Proof.
  rewrite round_pos_eq. set (e := float_exp q). set (x := q / pow2 e).
  assert (Hx : q == x * pow2 e) by (unfold x; field; auto with route).
  assert (Hh : pow2 (e - 1) == (1#2) * pow2 e).
  { rewrite <- (Z.sub_add 1 e) at 2. rewrite pow2_succ. ring. }
  rewrite Hx, Hh.
  assert (Ed : inject_Z (round_ne x) * pow2 e - x * pow2 e
               == - (x - inject_Z (round_ne x)) * pow2 e) by ring.
  rewrite Ed.
  rewrite Qabs_Qmult, Qabs_opp, (Qabs_pos (pow2 e)) by (apply Qlt_le_weak; auto with route).
  apply Qmult_le_compat_r; [apply round_ne_approx|apply Qlt_le_weak; auto with route].
Qed.

Lemma round_pos_le_grid K :
  q <= inject_Z K * pow2 (float_exp q) -> round_pos q <= inject_Z K * pow2 (float_exp q).
Proof.
  intros H. rewrite round_pos_eq. apply Qmult_le_compat_r; [|apply Qlt_le_weak; auto with route].
  rewrite <- Zle_Qle. apply round_ne_le. apply Qle_shift_div_r; auto with route.
Qed.

Lemma round_pos_ge_grid K :
  inject_Z K * pow2 (float_exp q) <= q -> inject_Z K * pow2 (float_exp q) <= round_pos q.
Proof.
  intros H. rewrite round_pos_eq. apply Qmult_le_compat_r; [|apply Qlt_le_weak; auto with route].
  rewrite <- Zle_Qle. apply round_ne_ge. apply Qle_shift_div_l; auto with route.
Qed.

Lemma round_pos_nonneg : 0 <= round_pos q.
Proof.
  pose proof (round_pos_ge_grid 0) as H. change (inject_Z 0) with 0 in H.
  rewrite Qmult_0_l in H. apply H. lra.
Qed.

(** A multiple of a bit at least as heavy as the last significand bit is
    a float: rounding leaves it unchanged. *)
Lemma round_pos_exact M k :
  q == inject_Z M * pow2 k -> (float_exp q <= k)%Z -> round_pos q == q.
Proof.
  intros E Hk. rewrite round_pos_eq. set (e := float_exp q) in *.
  assert (Hx : q / pow2 e == inject_Z (M * 2 ^ (k - e))).
  { rewrite inject_Z_mult, <- pow2_Z by lia. rewrite E.
    rewrite <- (Z.sub_add e k) at 1. rewrite pow2_add. field. auto with route. }
  rewrite Hx, round_ne_Z, inject_Z_mult, <- pow2_Z by lia.
  rewrite E, <- Qmult_assoc, <- pow2_add. by rewrite Z.sub_add.
Qed.

End RoundPos.

(** ** The error of one rounding *)

Lemma round_pos_err_bound p : 0 < p ->
  pow2 (float_exp p - 1) <= p * pow2 (-24) + pow2 (emin - 1) /\
  (pow2 (emin + prec - 1) <= p -> pow2 (float_exp p - 1) <= p * pow2 (-24)).
Proof.
  intros Hp. pose proof (flog2_spec p Hp) as [H1 H2].
  assert (Hn : (emin <= flog2 p - (prec - 1))%Z -> pow2 (float_exp p - 1) <= p * pow2 (-24)).
  { intros H. unfold float_exp. rewrite Z.max_r by done.
    replace (flog2 p - (prec - 1) - 1)%Z with (flog2 p + -24)%Z by (unfold prec; lia).
    rewrite pow2_add. apply Qmult_le_compat_r; [done|apply Qlt_le_weak, pow2_pos]. }
  split.
  - destruct (Z.le_gt_cases emin (flog2 p - (prec - 1))) as [H|H].
    + pose proof (pow2_pos (emin - 1)). specialize (Hn H). lra.
    + unfold float_exp. rewrite Z.max_l by lia.
      assert (0 <= p * pow2 (-24)) by (apply Qmult_le_0_compat; [lra|apply Qlt_le_weak, pow2_pos]).
      lra.
  - intros Hm. apply Hn. enough (emin + prec - 1 < flog2 p + 1)%Z by lia.
    apply pow2_lt_inv. lra.
Qed.

(** ** [strtof] *)

Lemma strtof_zero : strtof 0 = Some 0.
Proof. reflexivity. Qed.

Lemma Qabs_nonzero q : ~ q == 0 -> 0 < Qabs q.
Proof.
  intros Hq. destruct (Q_dec 0 q) as [[H|H]|H].
  - by rewrite Qabs_pos by lra.
  - rewrite Qabs_neg by lra. lra.
  - by destruct Hq.
Qed.

(** A non-zero value converts to the rounding of its magnitude, with its sign. *)
(** [strtof] sees the value of a rational, not its representation. *)
#[export] Instance strtof_proper : Proper (Qeq ==> eq) strtof.
Proof.
  intros q q' E. unfold strtof.
  assert (Hz : Qeq_bool q 0 = Qeq_bool q' 0) by (by rewrite E).
  assert (Hn : Qltb q 0 = Qltb q' 0) by (by rewrite E).
  rewrite Hz, Hn. destruct (Qeq_bool q' 0) eqn:Ez; [done|]. qbool.
  assert (Ha : Qabs q' == Qabs q) by (by rewrite E).
  by rewrite (round_pos_Qeq (Qabs q') (Qabs q) (Qabs_nonzero q' Ez) Ha).
Qed.

Lemma strtof_Some q f : strtof q = Some f -> ~ q == 0 ->
  round_pos (Qabs q) < pow2 emax /\
  f = (if Qltb q 0 then Qred (- round_pos (Qabs q)) else round_pos (Qabs q)).
Proof.
  unfold strtof. intros H Hq. destruct (Qeq_bool q 0) eqn:E0; qbool; [done|].
  destruct (Qle_bool _ _) eqn:E1; qbool; [done|]. by simplify_eq.
Qed.

Lemma strtof_err_Some q f : strtof q = Some f -> ~ q == 0 ->
  Qabs (f - q) <= pow2 (float_exp (Qabs q) - 1).
Proof.
  intros H Hq. apply strtof_Some in H as [_ ->]; [|done].
  pose proof (Qabs_nonzero q Hq) as Ha.
  pose proof (round_pos_err (Qabs q)) as Herr.
  set (a := Qabs q) in *.
  assert (Ed : (if Qltb q 0 then Qred (- round_pos a) else round_pos a) - q
               == if Qltb q 0 then - (round_pos a - a) else round_pos a - a).
  { destruct (Qltb q 0) eqn:E; qbool.
    - assert (a == - q) by (apply Qabs_neg; lra). rewrite Qred_correct. lra.
    - assert (a == q) by (apply Qabs_pos; lra). lra. }
  rewrite Ed. destruct (Qltb q 0); [by rewrite Qabs_opp|done].
Qed.

(** ** Rounded values are floats *)

Lemma round_pos_red x : Qred (round_pos x) = round_pos x.
Proof. apply Qred_complete, Qred_correct. Qed.

Lemma pow2_top e k : (0 <= k)%Z -> inject_Z (2 ^ k) * pow2 e == pow2 (e + k).
Proof. intros Hk. by rewrite <- pow2_Z, pow2_add, Qmult_comm by done. Qed.

(** The significand of a rounding is at most [2^24]. *)
Lemma round_pos_le_top p : 0 < p -> round_pos p <= inject_Z (2 ^ prec) * pow2 (float_exp p).
Proof.
  intros Hp. apply round_pos_le_grid. rewrite pow2_top by (unfold prec; lia).
  apply Qlt_le_weak, float_exp_above, Hp.
Qed.

Lemma round_pos_float_Qeq p : 0 < p -> 0 < round_pos p -> round_pos (round_pos p) == round_pos p.
Proof.
  intros Hp Hr. pose proof (round_pos_eq p) as Er. pose proof (round_pos_le_top p Hp) as Htop.
  assert (He : (emin <= float_exp p)%Z) by (unfold float_exp; lia).
  revert Hr Er Htop He. generalize (float_exp p) as e. generalize (round_pos p) as r.
  intros r e Hr Er Htop He.
  destruct (Qle_lt_or_eq _ _ Htop) as [Hlt|Heq].
  - apply (round_pos_exact r _ e Er). pose proof (flog2_spec r Hr) as [H1 _].
    rewrite pow2_top in Hlt by (unfold prec; lia).
    assert (flog2 r < e + prec)%Z by (apply pow2_lt_inv; lra).
    unfold float_exp, prec in *. lia.
  - rewrite pow2_top in Heq by (unfold prec; lia).
    assert (Er' : r == inject_Z (2 ^ (prec - 1)) * pow2 (e + 1)).
    { rewrite Heq, pow2_top by (unfold prec; lia). by replace (e + 1 + (prec - 1))%Z with (e + prec)%Z by lia. }
    apply (round_pos_exact r _ (e + 1) Er').
    assert (Hf : flog2 r = (e + prec)%Z).
    { apply flog2_unique; rewrite Heq; [lra|apply pow2_lt_mono; lia]. }
    unfold float_exp. rewrite Hf. unfold prec in *. lia.
Qed.

Lemma round_pos_float p : 0 < p -> 0 < round_pos p -> round_pos (round_pos p) = round_pos p.
Proof.
  intros Hp Hr. rewrite <- (round_pos_red (round_pos p)) at 1.
  rewrite (Qred_complete _ _ (round_pos_float_Qeq p Hp Hr)). apply round_pos_red.
Qed.

(** A positive float and its negation convert to themselves. *)
Lemma strtof_float r : 0 < r -> round_pos r = r -> r < pow2 emax ->
  strtof r = Some r /\ strtof (Qred (- r)) = Some (Qred (- r)).
Proof.
  intros Hr Hf Ho. unfold strtof.
  assert (Ha : Qabs r == r) by (apply Qabs_pos; lra).
  assert (Ha' : Qabs (Qred (- r)) == r) by (rewrite Qred_correct, Qabs_opp; exact Ha).
  rewrite (round_pos_Qeq r _ Hr (Qeq_sym _ _ Ha)), (round_pos_Qeq r _ Hr (Qeq_sym _ _ Ha')), Hf.
  assert (Hb : Qle_bool (pow2 emax) r = false) by (apply Qle_bool_false; done).
  assert (Hz1 : Qeq_bool r 0 = false) by (apply Qeq_bool_false; lra).
  assert (Hz2 : Qeq_bool (Qred (- r)) 0 = false) by (apply Qeq_bool_false; rewrite Qred_correct; lra).
  assert (Hs1 : Qltb r 0 = false) by (apply Qltb_false; lra).
  assert (Hs2 : Qltb (Qred (- r)) 0 = true) by (apply Qltb_iff; rewrite Qred_correct; lra).
  by rewrite Hb, Hz1, Hz2, Hs1, Hs2.
Qed.

(** ** Conversion of the coordinates' range *)

(** [100] lies on the grid of every binade below [2^7]. *)
Lemma hundred_grid e : (e <= 0)%Z -> inject_Z (100 * 2 ^ (- e)) * pow2 e == 100.
Proof.
  intros He. rewrite inject_Z_mult, <- pow2_Z by lia.
  rewrite <- Qmult_assoc, <- pow2_add. by replace (- e + e)%Z with 0%Z by lia.
Qed.

(** A decimal value in [[0,100]] converts without overflow to a float in
    [[0,100]]. *)
Lemma strtof_unit q : 0 <= q <= 100 -> exists f, strtof q = Some f /\ 0 <= f <= 100.
Proof.
  intros [H0 H1]. destruct (Qeq_dec q 0) as [Hq|Hq].
  { exists 0. unfold strtof. replace (Qeq_bool q 0) with true by (symmetry; by apply Qeq_bool_iff).
    split; [done|lra]. }
  assert (Ha : Qabs q == q) by (apply Qabs_pos; lra).
  assert (Hp : 0 < q) by (pose proof (Qabs_nonzero q Hq); lra).
  assert (Hr : round_pos (Qabs q) = round_pos q) by (apply round_pos_Qeq; [done|by symmetry]).
  assert (He : (float_exp q <= 0)%Z).
  { pose proof (flog2_spec q Hp) as [Hl _].
    assert (flog2 q < 7)%Z by (apply pow2_lt_inv; change (pow2 7) with (128#1); lra).
    unfold float_exp, emin, prec. lia. }
  assert (Hle : round_pos q <= 100).
  { rewrite <- (hundred_grid _ He). apply round_pos_le_grid. by rewrite hundred_grid. }
  pose proof (round_pos_nonneg q Hp).
  exists (round_pos q). split; [|lra]. unfold strtof. rewrite Hr.
  assert (Hz : Qeq_bool q 0 = false) by (by apply Qeq_bool_false).
  assert (Hb : Qle_bool (pow2 emax) (round_pos q) = false).
  { apply Qle_bool_false. assert (100 < pow2 emax) by (vm_compute; reflexivity). lra. }
  assert (Hs : Qltb q 0 = false) by (apply Qltb_false; lra).
  by rewrite Hz, Hb, Hs.
Qed.

(** The float [strtof] returns differs from the decimal value by at most
    one part in [2^24] of it (half an ulp) plus half the least subnormal
    [2^-150]; from the least normal number [2^-126] on, the relative bound
    [2^-24] alone holds. *)
Lemma strtof_error q f : strtof q = Some f ->
  Qabs (f - q) <= Qabs q * pow2 (-24) + pow2 (emin - 1) /\
  (pow2 (emin + prec - 1) <= Qabs q -> Qabs (f - q) <= Qabs q * pow2 (-24)).
Proof.
  intros H. destruct (Qeq_dec q 0) as [Hq|Hq].
  - unfold strtof in H. replace (Qeq_bool q 0) with true in H by (symmetry; by apply Qeq_bool_iff).
    simplify_eq. assert (E1 : Qabs (0 - q) == 0) by (rewrite Hq; reflexivity).
    assert (E2 : Qabs q == 0) by (rewrite Hq; reflexivity).
    rewrite E1, E2. pose proof (pow2_pos (emin - 1)). split; [|intros _]; lra.
  - pose proof (strtof_err_Some q f H Hq) as Herr.
    pose proof (round_pos_err_bound (Qabs q) (Qabs_nonzero q Hq)) as [B1 B2].
    split; [lra|]. intros Hn. specialize (B2 Hn). lra.
Qed.

(** Whatever [strtof] returns is a binary32 value, which [strtof] leaves
    unchanged. *)
Lemma strtof_idempotent q f : strtof q = Some f -> strtof f = Some f.
Proof.
  intros H. destruct (Qeq_dec q 0) as [Hq|Hq].
  - unfold strtof in H. replace (Qeq_bool q 0) with true in H by (symmetry; by apply Qeq_bool_iff).
    simplify_eq. apply strtof_zero.
  - pose proof (strtof_Some q f H Hq) as [Ho ->].
    pose proof (Qabs_nonzero q Hq) as Hp. set (r := round_pos (Qabs q)) in *.
    destruct (Qlt_le_dec 0 r) as [Hr|Hr].
    + pose proof (strtof_float r Hr (round_pos_float _ Hp Hr) Ho) as [E1 E2].
      by destruct (Qltb q 0).
    + assert (Hz : r = 0).
      { unfold r in *. rewrite <- round_pos_red. apply (Qred_complete _ 0).
        pose proof (round_pos_nonneg (Qabs q) Hp). lra. }
      rewrite Hz. by destruct (Qltb q 0).
Qed.

(** Between [64] and [128] floats are [2^-17] apart: every number less
    than half of that above [100] is converted to the float [100]. *)
Lemma strtof_near_100 q : 100 < q < 100 + pow2 (-18) -> strtof q = Some 100.
Proof.
  intros [H1 H2]. change (pow2 (-18)) with (1 # 262144) in H2.
  assert (Ef : flog2 q = 6%Z).
  { apply flog2_unique; [change (pow2 6) with (64 # 1)|change (pow2 (6 + 1)) with (128 # 1)]; lra. }
  assert (Er : round_pos q = 100).
  { unfold round_pos, float_exp. rewrite Ef. change (Z.max emin (6 - (prec - 1))) with (-17)%Z.
    assert (Hd : q / pow2 (-17) == q * 131072) by (change (pow2 (-17)) with (1 # 131072); field).
    rewrite Hd, (round_ne_near _ 13107200); [reflexivity| |]; unfold inject_Z; lra. }
  unfold strtof.
  replace (Qeq_bool q 0) with false by (symmetry; apply Qeq_bool_false; lra).
  rewrite (round_pos_Qeq q (Qabs q) ltac:(lra) ltac:(rewrite Qabs_pos; [reflexivity|lra])), Er.
  replace (Qltb q 0) with false by (symmetry; apply Qltb_false; lra). reflexivity.
Qed.

(** Below half the least subnormal [2^-149], a negative number is
    converted to zero. *)
Lemma strtof_tiny_negative q : - pow2 (-150) < q < 0 -> strtof q = Some 0.
Proof.
  intros [H1 H2]. assert (Ha : Qabs q == - q) by (apply Qabs_neg; lra).
  assert (Hp : 0 < - q) by lra.
  assert (Ef : (flog2 (- q) < -150)%Z).
  { apply pow2_lt_inv. pose proof (flog2_spec (- q) Hp). lra. }
  assert (Er : round_pos (- q) = 0).
  { unfold round_pos, float_exp. replace (Z.max emin (flog2 (- q) - (prec - 1))) with emin
      by (unfold emin, prec; lia).
    assert (Hd : - q / pow2 emin == - q * 713623846352979940529142984724747568191373312)
      by (change (pow2 emin) with (1 # 713623846352979940529142984724747568191373312); field).
    change (pow2 (-150)) with (1 # 1427247692705959881058285969449495136382746624) in H1.
    rewrite Hd, (round_ne_near _ 0); [reflexivity| |]; unfold inject_Z; lra. }
  unfold strtof.
  replace (Qeq_bool q 0) with false by (symmetry; apply Qeq_bool_false; lra).
  rewrite (round_pos_Qeq (- q) (Qabs q) Hp ltac:(by rewrite Ha)), Er.
  replace (Qltb q 0) with true by (symmetry; apply Qltb_iff; lra). reflexivity.
Qed.
