(* ===== verification/UserInput.v ===== *)
(** * Reading a coordinate ([get_user_input], lines 79-94 of [src/src/main.cpp])

    [get_user_input] prompts, reads a line with [std::getline], extracts
    a float from it with [operator>>], and repeats until the value lies in
    [0,100]; a line from which no float can be extracted counts as [-1].
    Standard input is the list of the lines still to be read; once it is
    exhausted [std::getline] yields the empty line again and again, from
    which no float is extracted, so the loop never ends.  The loop runs
    here with fuel: [None] means "no value within [fuel] prompts".

    [extract_float] models the extraction of libstdc++'s [num_get] for
    [float] in the classic locale: skip white space, an optional sign,
    decimal digits with an optional point (at least one digit), and an
    optional exponent ([e] or [E], optional sign, at least one digit).
    Characters after the number are left in the stream and ignored by
    the program.  The decimal value is computed exactly and rounded to
    a single-precision float by [Float32.strtof]. *)

From Stdlib Require Import String Ascii QArith Qabs ZArith Lia Lqa.
From stdpp Require Import base list sets.
From S2P Require Import Prelude Float32.

(** ** Float extraction ([std::istream::operator>>(float&)]) *)

Definition is_space (c : ascii) : bool :=
  let n := nat_of_ascii c in (n =? 32)%nat || ((9 <=? n)%nat && (n <=? 13)%nat).

Definition digit_value (c : ascii) : option Z :=
  let n := nat_of_ascii c in
  if (48 <=? n)%nat && (n <=? 57)%nat then Some (Z.of_nat (n - 48)) else None.

Fixpoint skip_ws (s : string) : string :=
  match s with
  | String c s' => if is_space c then skip_ws s' else s
  | EmptyString => EmptyString
  end.

(** Digits appended to [acc]; returns the value, the digit count and the
    rest of the string. *)
Fixpoint read_digits (s : string) (acc : Z) (k : nat) : Z * nat * string :=
  match s with
  | String c s' =>
      match digit_value c with
      | Some d => read_digits s' (10 * acc + d) (S k)
      | None => (acc, k, s)
      end
  | EmptyString => (acc, k, EmptyString)
  end.

Definition read_sign (s : string) : Z * string :=
  match s with
  | String c s' =>
      if (c =? "-")%char then (-1, s')%Z else if (c =? "+")%char then (1, s')%Z else (1, s)%Z
  | EmptyString => (1%Z, s)
  end.

(** The fraction: digits after a point extend the mantissa. *)
Definition read_fraction (s : string) (ip : Z) : Z * nat * string :=
  match s with
  | String c s' => if (c =? ".")%char then read_digits s' ip 0 else (ip, 0%nat, s)
  | EmptyString => (ip, 0%nat, s)
  end.

(** The exponent: [Some e], [Some 0] when there is none, [None] when an
    [e] is not followed by digits. *)
Definition read_exponent (s : string) : option Z :=
  match s with
  | String c s' =>
      if (c =? "e")%char || (c =? "E")%char then
        let '(es, s1) := read_sign s' in
        let '(ev, ke, _) := read_digits s1 0 0 in
        if (ke =? 0)%nat then None else Some (es * ev)%Z
      else Some 0%Z
  | EmptyString => Some 0%Z
  end.

(** The number after its sign: digits, fraction, exponent. *)
Definition extract_number (sg : Z) (s1 : string) : option Q :=
  let '(ip, ki, s2) := read_digits s1 0 0 in
  let '(m, kf, s3) := read_fraction s2 ip in
  if (ki + kf =? 0)%nat then None
  else match read_exponent s3 with
       | None => None
       | Some ex => Some (inject_Z (sg * m) * 10 ^ (ex - Z.of_nat kf))%Q
       end.

Definition extract_float (line : string) : option Q :=
  let '(sg, s1) := read_sign (skip_ws line) in extract_number sg s1.

(** ** The input loop *)

(** Lines 86-90: the float extracted from one line, rounded by [strtof];
    [-1] when extraction fails, including the [failbit] of a value that
    overflows. *)
Definition read_value (line : string) : Q :=
  match extract_float line with
  | Some q => match strtof q with Some f => f | None => (-1)%Q end
  | None => (-1)%Q
  end.

(** The loop condition of line 91. *)
Definition out_of_range (v : Q) : bool := Qltb v 0 || Qltb 100 v.

(** Lines 82-83. *)
Definition prompt (coordinate : string) : Out :=
  OStr ("Please enter the " ++ coordinate ++ " coordinate of the route (0 to 100): ").

(** [std::getline] on standard input: the next line, or the empty line
    once the input is exhausted. *)
Definition getline (inp : list string) : string * list string :=
  match inp with [] => (EmptyString, []) | l :: r => (l, r) end.

(** Lines 79-94: the value read, the input left, the prompts printed. *)
Fixpoint get_user_input (fuel : nat) (coordinate : string) (inp : list string)
    : option (Q * list string * list Out) :=
  match fuel with
  | 0 => None
  | S f =>
      let '(line, inp') := getline inp in
      let v := read_value line in
      if out_of_range v then
        match get_user_input f coordinate inp' with
        | Some (v', rest, outs) => Some (v', rest, prompt coordinate :: outs)
        | None => None
        end
      else Some (v, inp', [prompt coordinate])
  end.

(** ** Lemmas *)

(** The loop condition fails exactly on values in [0,100]. *)
Lemma out_of_range_false v : out_of_range v = false <-> (0 <= v <= 100)%Q.
Proof.
  unfold out_of_range. rewrite orb_false_iff, !Qltb_false. tauto.
Qed.

(** No float can be extracted from the empty line. *)
Lemma read_value_empty : read_value EmptyString = (-1)%Q.
Proof. reflexivity. Qed.

Lemma get_user_input_Some_inv fuel c inp v rest outs :
  get_user_input fuel c inp = Some (v, rest, outs) ->
  exists pre line, inp = pre ++ line :: rest /\
    Forall (fun l => out_of_range (read_value l) = true) pre /\
    read_value line = v /\ out_of_range v = false /\
    outs = replicate (S (length pre)) (prompt c) /\ length pre < fuel.
Proof.
  revert inp outs. induction fuel as [|f IH]; intros inp outs; [done|]. simpl.
  destruct inp as [|l r]; simpl.
  - destruct (get_user_input f c []) as [[[v' rest'] outs']|] eqn:E; [|done].
    intros [= -> -> <-]. destruct (IH _ _ E) as (pre & line & Hinp & _). by destruct pre.
  - destruct (out_of_range (read_value l)) eqn:Hl.
    + destruct (get_user_input f c r) as [[[v' rest'] outs']|] eqn:E; [|done].
      intros [= -> -> <-]. destruct (IH _ _ E) as (pre & line & -> & Hpre & Hv & Hr & -> & Hlen).
      exists (l :: pre), line. split_and!; [done|by constructor|done|done|done|simpl; lia].
    + intros [= <- <- <-]. exists [], l. split_and!; [done|by constructor|done|done|done|simpl; lia].
Qed.

Lemma get_user_input_Some_intro fuel c pre line rest :
  Forall (fun l => out_of_range (read_value l) = true) pre ->
  out_of_range (read_value line) = false -> length pre < fuel ->
  get_user_input fuel c (pre ++ line :: rest) =
    Some (read_value line, rest, replicate (S (length pre)) (prompt c)).
Proof.
  revert fuel. induction pre as [|l pre IH]; intros fuel Hpre Hline Hlen;
    (destruct fuel as [|f]; [simpl in Hlen; lia|]); simpl.
  - by rewrite Hline.
  - apply Forall_cons in Hpre as [Hl Hpre]. rewrite Hl, IH by (simpl in Hlen; auto with lia).
    done.
Qed.

(** The number of lines that yield a value in [0,100]. *)
Definition valid_count (inp : list string) : nat :=
  length (List.filter (fun l => negb (out_of_range (read_value l))) inp).

(** Each value read consumes exactly one such line. *)
Lemma get_user_input_consumes fuel c inp v rest outs :
  get_user_input fuel c inp = Some (v, rest, outs) -> valid_count inp = S (valid_count rest).
Proof.
  intros (pre & line & -> & Hpre & <- & Hv & _)%get_user_input_Some_inv.
  unfold valid_count. rewrite List.filter_app. simpl. rewrite Hv. simpl.
  assert (List.filter (fun l => negb (out_of_range (read_value l))) pre = []) as ->.
  { induction pre as [|l pre IH]; [done|]. apply Forall_cons in Hpre as [Hl Hpre].
    simpl. rewrite Hl. simpl. by apply IH. }
  done.
Qed.

(** C11: [get_user_input] returns [v] exactly when the input holds some
    lines none of which yields a value in [0,100], then a line that yields
    [v] in [0,100]; it prints one prompt per line read, and the input left
    is what follows that line. *)
Theorem get_user_input_spec fuel c inp v rest outs :
  get_user_input fuel c inp = Some (v, rest, outs) <->
  exists pre line, inp = pre ++ line :: rest /\
    Forall (fun l => out_of_range (read_value l) = true) pre /\
    read_value line = v /\ out_of_range v = false /\
    outs = replicate (S (length pre)) (prompt c) /\ length pre < fuel.
Proof.
  split; [apply get_user_input_Some_inv|].
  intros (pre & line & -> & Hpre & <- & Hv & -> & Hlen). by apply get_user_input_Some_intro.
Qed.

(** C12: a coordinate returned by [get_user_input] lies in [0,100]. *)
Theorem get_user_input_bounds fuel c inp v rest outs :
  get_user_input fuel c inp = Some (v, rest, outs) -> (0 <= v <= 100)%Q.
Proof.
  intros (pre & line & _ & _ & _ & Hv & _)%get_user_input_Some_inv. by apply out_of_range_false.
Qed.

(** C13: when no remaining line yields a value in [0,100], and in
    particular once standard input is exhausted, [get_user_input] never
    returns: it prompts forever. *)
Theorem get_user_input_diverges c inp :
  Forall (fun l => out_of_range (read_value l) = true) inp ->
  forall fuel, get_user_input fuel c inp = None.
Proof.
  intros Hall fuel. destruct (get_user_input fuel c inp) as [[[v rest] outs]|] eqn:E; [|done].
  apply get_user_input_Some_inv in E as (pre & line & -> & _ & <- & Hv & _).
  apply Forall_app in Hall as [_ Hl]. apply Forall_cons in Hl as [Hl _]. congruence.
Qed.

Local Open Scope string_scope.

Lemma get_user_input_bounds_witness :
  (0 <= 50 <= 100)%Q.
Proof.
  apply (get_user_input_bounds 3 "start X" ["abc"; "50"; "7"]%string 50 ["7"]%string
    (replicate 2 (prompt "start X"))). vm_compute. reflexivity.
Defined.

Lemma get_user_input_diverges_witness :
  get_user_input 10 "start X" ["abc"; "150"] = None.
Proof. apply get_user_input_diverges. vm_decide. Defined.

(** The value of a line from which a number is extracted, when it does
    not overflow. *)
Lemma read_value_strtof line q f :
  extract_float line = Some q -> strtof q = Some f -> read_value line = f.
Proof. intros Hx Hf. unfold read_value. by rewrite Hx, Hf. Qed.

(** A value is either the [-1] of a refused line or the float of a
    number extracted from the line. *)
Lemma read_value_cases line :
  read_value line = (-1)%Q \/
  exists q, extract_float line = Some q /\ strtof q = Some (read_value line).
Proof.
  unfold read_value. destruct (extract_float line) as [q|]; [|by left].
  destruct (strtof q) as [f|] eqn:Hf; [right; by exists q|by left].
Qed.

(** The value returned comes from a line of the input, and what is left
    is a part of it. *)
Lemma get_user_input_from fuel c inp v rest outs :
  get_user_input fuel c inp = Some (v, rest, outs) ->
  (exists line, line ∈ inp /\ read_value line = v) /\ (forall x, x ∈ rest -> x ∈ inp).
Proof.
  intros (pre & line & -> & _ & <- & _)%get_user_input_Some_inv.
  split; [exists line; split; [set_solver|done]|set_solver].
Qed.

(** C24: the coordinate read from a line differs from the decimal number
    typed on it by at most [2^-24] of that number plus [2^-150]; from
    [2^-126] on by at most [2^-24] of it (single-precision rounding),
    unless the number overflows [float]. *)
Theorem read_value_error line q :
  extract_float line = Some q -> strtof q <> None ->
  (Qabs (read_value line - q) <= Qabs q * pow2 (-24) + pow2 (emin - 1) /\
   (pow2 (emin + prec - 1) <= Qabs q -> Qabs (read_value line - q) <= Qabs q * pow2 (-24)))%Q.
Proof.
  intros Hx Ho. destruct (strtof q) as [f|] eqn:Hf; [|done].
  rewrite (read_value_strtof line q f Hx Hf). by apply strtof_error.
Qed.

(** C25: a line holding a decimal number in [0,100] is accepted at the
    first prompt: [get_user_input] returns the float [strtof] rounds the
    number to, which lies in [0,100] too. *)
Theorem get_user_input_accepts fuel c line rest q :
  extract_float line = Some q -> (0 <= q <= 100)%Q ->
  exists f, strtof q = Some f /\ (0 <= f <= 100)%Q /\
    get_user_input (S fuel) c (line :: rest) = Some (f, rest, [prompt c]).
Proof.
  intros Hx Hq. destruct (strtof_unit q Hq) as (f & Hf & Hr). exists f. do 2 (split; [done|]).
  assert (Hv : read_value line = f) by (unfold read_value; by rewrite Hx, Hf).
  simpl. rewrite Hv. by rewrite (proj2 (out_of_range_false f) Hr).
Qed.

(** C26: the range test of line 91 is made on the float, not on the
    number typed: every number above [100] by less than [2^-18] is read as
    the float [100] and accepted at the first prompt. *)
Theorem get_user_input_rounds_into_range fuel c line rest q :
  extract_float line = Some q -> (100 < q < 100 + pow2 (-18))%Q ->
  get_user_input (S fuel) c (line :: rest) = Some (100%Q, rest, [prompt c]).
Proof.
  intros Hx Hq. simpl.
  rewrite (read_value_strtof line q 100 Hx (strtof_near_100 q Hq)). reflexivity.
Qed.

(** C36: at the other end of the range, every negative number above
    [-2^-150] is read as the float [0] and accepted at the first prompt,
    although it lies below 0. *)
Theorem get_user_input_rounds_to_zero fuel c line rest q :
  extract_float line = Some q -> (- pow2 (-150) < q < 0)%Q ->
  get_user_input (S fuel) c (line :: rest) = Some (0%Q, rest, [prompt c]).
Proof.
  intros Hx Hq. simpl.
  rewrite (read_value_strtof line q 0 Hx (strtof_tiny_negative q Hq)). reflexivity.
Qed.
