(* ===== verification/Main.v ===== *)
(** * The program's entry point ([main] of [src/src/main.cpp])

    [main_route] is lines 47-54 of [main]: build the [RouteModel] from the
    OSM bytes, build the [RoutePlanner] from the model and the four
    coordinates, run [AStarSearch], and print the distance.  The OSM
    parser is a library outside the repository (spec section 6); it is the
    section variable [parse_osm], and a parse failure aborts the program
    with [InvalidMapData] (the model's constructor throws). *)

From Stdlib Require Import QArith Lqa Lia String.
From stdpp Require Import base gmap list relations.
From S2P Require Import Prelude Geometry Graph Search Planner Cli FileIO Float32 UserInput.

(** How the route computation of [main] ends: with the model and the
    planner after the search (and [main] goes on to render them), or
    aborted by an error. *)
Inductive RouteOutcome : Type :=
| Routed (m : RouteModel) (p : RoutePlanner)
| Aborted (e : ErrorKind).

(** Line 54: the report of the distance. *)
Definition distance_report (d : Q) : list Out :=
  [OStr "Distance: "; ONum d; OStr (" meters. " ++ nl)].

Section MainRoute.
Variable parse_osm : list Byte.byte -> option MapData.

(** Lines 47-54 of [main].  The outcome of [AStarSearch] is not looked
    at: the distance is printed whatever the search found. *)
Definition main_route (osm_data : list Byte.byte) (sx sy ex ey : Q) : RouteOutcome * list Out :=
  match parse_osm osm_data with
  | None => (Aborted InvalidMapData, [])
  | Some md =>
      let model := build_model md in
      match make_planner model sx sy ex ey with
      | Err e => (Aborted e, [])
      | Ok rp =>
          let rp' := fst (AStarSearch rp) in
          (Routed model rp', distance_report (GetDistance rp'))
      end
  end.

(** A run that routes: the model is the parsed map's, the planner's
    endpoints are the nodes nearest to the coordinates, and the planner
    holds exactly what the search returned. *)
Lemma main_route_Routed osm sx sy ex ey m p out :
  main_route osm sx sy ex ey = (Routed m p, out) ->
  exists md p0, parse_osm osm = Some md /\ m = build_model md /\
    make_planner m sx sy ex ey = Ok p0 /\ p = fst (AStarSearch p0) /\
    out = distance_report (GetDistance p).
Proof.
  unfold main_route. destruct (parse_osm osm) as [md|]; [|done].
  destruct (make_planner (build_model md) sx sy ex ey) as [p0|e] eqn:E; [|done].
  intros [= <- <- <-]. eauto 10.
Qed.

(** The search result stored in the planner. *)
Lemma planner_after_search p0 :
  (exists path d, search (rp_model p0) (rp_end p0) (rp_start p0) = Ok (path, d) /\
     rp_path (fst (AStarSearch p0)) = path /\ rp_distance (fst (AStarSearch p0)) = d) \/
  (exists e, search (rp_model p0) (rp_end p0) (rp_start p0) = Err e /\ fst (AStarSearch p0) = p0).
Proof.
  unfold AStarSearch. destruct (search _ _ _) as [[path d]|e]; [left|right]; eauto 10.
Qed.

(** An aborted route computation prints nothing. *)
Lemma main_route_Aborted osm sx sy ex ey e out :
  main_route osm sx sy ex ey = (Aborted e, out) -> out = [].
Proof.
  unfold main_route. destruct (parse_osm osm); [|by intros [= _ <-]].
  destruct (make_planner _ _ _ _ _); by intros [= _ <-].
Qed.

(** Everything a routed run determines, in one place. *)
Lemma routed_facts osm md sx sy ex ey m p out :
  parse_osm osm = Some md -> main_route osm sx sy ex ey = (Routed m p, out) ->
  m = build_model md /\ rp_model p = m /\
  FindClosestNode m sx sy = Ok (rp_start p) /\ FindClosestNode m ex ey = Ok (rp_end p) /\
  rp_start p < node_count m /\ rp_end p < node_count m /\
  out = distance_report (GetDistance p) /\
  (search m (rp_end p) (rp_start p) = Ok (rp_path p, rp_distance p) \/
   (exists e, search m (rp_end p) (rp_start p) = Err e /\ rp_path p = [] /\ rp_distance p = 0%Q)).
Proof.
  intros Hp Hr. destruct (main_route_Routed _ _ _ _ _ _ _ _ Hr) as (md' & p0 & Hp' & -> & Hmk & -> & Hout).
  rewrite Hp in Hp'. injection Hp' as <-.
  destruct (make_planner_Ok _ _ _ _ _ _ Hmk) as (Hm & Hpath & Hd & Hs & He).
  pose proof (first_closest_lt _ _ _ (FindClosestNode_Ok _ _ _ _ Hs)) as Hsl.
  pose proof (first_closest_lt _ _ _ (FindClosestNode_Ok _ _ _ _ He)) as Hel.
  destruct (planner_after_search p0) as [(path & d & Hsr & Hpp & Hdd)|(e & Hsr & Hpp)];
    unfold AStarSearch in *; rewrite Hsr in *; simpl in *; rewrite Hm in *.
  - split_and!; auto; left; by subst.
  - split_and!; auto; right; eauto.
Qed.

(** A successful search leaves a non-empty path in the planner. *)
Lemma routed_path_nonempty osm md sx sy ex ey m p out :
  parse_osm osm = Some md -> map_wfb md = true ->
  main_route osm sx sy ex ey = (Routed m p, out) ->
  rp_path p <> [] <-> search m (rp_end p) (rp_start p) = Ok (rp_path p, rp_distance p).
Proof.
  intros Hp Hwf Hr. pose proof (build_model_wf md Hwf) as Hwfm.
  destruct (routed_facts _ _ _ _ _ _ _ _ _ Hp Hr) as (-> & _ & _ & _ & Hs & _ & _ & [Hok|(e & Herr & Hnil & _)]).
  - split; [done|]. intros _ Hnil. rewrite Hnil in Hok.
    destruct (@search_Ok RouteModel RouteModel_SearchGraph (build_model md) _ (rp_end p) (rp_start p) _ _ Hs Hok) as (Hh & _). done.
  - rewrite Herr, Hnil. done.
Qed.

End MainRoute.

(** ** What [main] computes *)

Section MainRouteProperties.
Variable parse_osm : list Byte.byte -> option MapData.

(** The parser's contract: the data it returns is well formed. *)
Definition parser_ok (osm : list Byte.byte) : Prop :=
  forall md, parse_osm osm = Some md -> map_wfb md = true.

Lemma routed_search_Ok osm md sx sy ex ey m p out :
  parse_osm osm = Some md -> map_wfb md = true ->
  main_route parse_osm osm sx sy ex ey = (Routed m p, out) -> rp_path p <> [] ->
  m = build_model md /\ rp_start p < node_count m /\
  search m (rp_end p) (rp_start p) = Ok (rp_path p, rp_distance p) /\
  out = distance_report (GetDistance p).
Proof.
  intros Hp Hwf Hr Hne.
  destruct (routed_facts _ _ _ _ _ _ _ _ _ _ Hp Hr) as (-> & _ & _ & _ & Hs & _ & Hout & _).
  split_and!; auto. by apply (routed_path_nonempty parse_osm osm md sx sy ex ey _ p out).
Qed.

(** C1: when [main] reports a route, consecutive nodes of the route are
    neighbours in the model built from the map (no teleporting hop), the
    route starts at the start node and ends at the end node the planner
    resolved, and no node appears twice. *)
Theorem main_route_path_valid osm md sx sy ex ey m p out :
  parse_osm osm = Some md -> map_wfb md = true ->
  main_route parse_osm osm sx sy ex ey = (Routed m p, out) -> rp_path p <> [] ->
  valid_path m (rp_path p) /\ head (rp_path p) = Some (rp_start p) /\
  last (rp_path p) = Some (rp_end p) /\ NoDup (rp_path p).
Proof.
  intros Hp Hwf Hr Hne.
  destruct (routed_search_Ok _ _ _ _ _ _ _ _ _ Hp Hwf Hr Hne) as (-> & Hs & Hok & _).
  destruct (model_search_Ok md Hwf _ _ _ _ Hs Hok) as (? & ? & ? & ? & _). done.
Qed.

(** C2: the distance [main] prints for a route is the metric scale times
    the sum of the distances between consecutive nodes of the route, and
    that sum is the accumulated cost [g] of the end node in the table the
    planner's own A* loop ends in. *)
Theorem main_route_distance osm md sx sy ex ey m p out :
  parse_osm osm = Some md -> map_wfb md = true ->
  main_route parse_osm osm sx sy ex ey = (Routed m p, out) -> rp_path p <> [] ->
  out = distance_report (GetDistance p) /\
  (GetDistance p == path_cost m (rp_path p) * rm_scale m)%Q /\
  exists st,
    search_loop m (rp_end p) (S (node_count m)) (init_state m (rp_end p) (rp_start p)) = Succeeded st /\
    (g_value st !!! rp_end p == path_cost m (rp_path p))%Q.
Proof.
  intros Hp Hwf Hr Hne.
  destruct (routed_search_Ok _ _ _ _ _ _ _ _ _ Hp Hwf Hr Hne) as (-> & Hs & Hok & Hout).
  destruct (model_search_Ok md Hwf _ _ _ _ Hs Hok) as (_ & _ & _ & _ & Hd & Hg). done.
Qed.

(** C3: [main] finds no route exactly when the end node cannot be reached
    from the start node along the model's edges. *)
Theorem main_route_no_path_iff osm md sx sy ex ey m p out :
  parse_osm osm = Some md -> map_wfb md = true ->
  main_route parse_osm osm sx sy ex ey = (Routed m p, out) ->
  rp_path p = [] <-> ~ rtc (edge m) (rp_start p) (rp_end p).
Proof.
  intros Hp Hwf Hr.
  destruct (routed_facts _ _ _ _ _ _ _ _ _ _ Hp Hr) as (-> & _ & _ & _ & Hs & _ & _ & Hor).
  split.
  - intros Hnil Hreach. destruct Hor as [Hok|(e & Herr & _)].
    + destruct (model_search_Ok md Hwf _ _ _ _ Hs Hok) as (Hh & _). by rewrite Hnil in Hh.
    + destruct (model_search_complete md Hwf _ _ Hs Hreach) as (path & d & Hok). congruence.
  - intros Hun. destruct Hor as [Hok|(e & Herr & Hnil & _)]; [|done].
    destruct (model_search_Ok md Hwf _ _ _ _ Hs Hok) as (Hh & Hl & Hv & _).
    exfalso. apply Hun. by eapply valid_path_rtc.
Qed.

(** C4: when the end node cannot be reached, [main] does not report a
    missing route: it prints ["Distance: 0 meters."], the distance the
    planner holds before any search. *)
Theorem main_route_no_route_output osm md sx sy ex ey m p out :
  parse_osm osm = Some md -> map_wfb md = true ->
  main_route parse_osm osm sx sy ex ey = (Routed m p, out) ->
  ~ rtc (edge m) (rp_start p) (rp_end p) ->
  out = distance_report 0%Q.
Proof.
  intros Hp Hwf Hr Hun.
  destruct (routed_facts _ _ _ _ _ _ _ _ _ _ Hp Hr) as (-> & _ & _ & _ & Hs & _ & Hout & Hor).
  destruct Hor as [Hok|(e & Herr & Hnil & Hd)].
  - destruct (model_search_Ok md Hwf _ _ _ _ Hs Hok) as (Hh & Hl & Hv & _).
    exfalso. apply Hun. by eapply valid_path_rtc.
  - rewrite Hout. unfold GetDistance. by rewrite Hd.
Qed.

(** C5: the A* loop that [main] runs stops, in the succeeded or the
    failed state, within one more turn than the model has nodes. *)
Theorem main_route_search_terminates osm md sx sy ex ey m p out :
  parse_osm osm = Some md -> map_wfb md = true ->
  main_route parse_osm osm sx sy ex ey = (Routed m p, out) ->
  exists st,
    search_loop m (rp_end p) (S (node_count m)) (init_state m (rp_end p) (rp_start p)) = Succeeded st \/
    search_loop m (rp_end p) (S (node_count m)) (init_state m (rp_end p) (rp_start p)) = Failed st.
Proof.
  intros Hp Hwf Hr.
  destruct (routed_facts _ _ _ _ _ _ _ _ _ _ Hp Hr) as (-> & _ & _ & _ & Hs & _).
  by apply model_search_loop_stops.
Qed.

(** C6: the start and end nodes of the route are the first nodes, in
    arena order, nearest to the entered start and end coordinates. *)
Theorem main_route_endpoints osm sx sy ex ey m p out :
  main_route parse_osm osm sx sy ex ey = (Routed m p, out) ->
  first_closest (mkCoord sx sy) (rm_nodes m) (rp_start p) /\
  first_closest (mkCoord ex ey) (rm_nodes m) (rp_end p).
Proof.
  intros Hr. destruct (main_route_Routed _ _ _ _ _ _ _ _ _ Hr) as (md & _ & Hp & _).
  destruct (routed_facts _ _ _ _ _ _ _ _ _ _ Hp Hr) as (_ & _ & Hs & He & _).
  split; by apply FindClosestNode_Ok.
Qed.

(** C7: [main] gives up on routing, printing nothing, exactly when the
    map data does not parse ([InvalidMapData]) or has no node
    ([EmptyGraph]). *)
Theorem main_route_errors osm sx sy ex ey e out :
  main_route parse_osm osm sx sy ex ey = (Aborted e, out) <->
  out = [] /\ ((parse_osm osm = None /\ e = InvalidMapData) \/
               (exists md, parse_osm osm = Some md /\ md_nodes md = [] /\ e = EmptyGraph)).
Proof.
  unfold main_route. destruct (parse_osm osm) as [md|]; [|naive_solver].
  destruct (make_planner (build_model md) sx sy ex ey) as [rp|e'] eqn:E.
  - split; [done|]. intros (_ & [[? _]|(md' & [= <-] & Hn & ->)]); [done|].
    assert (make_planner (build_model md) sx sy ex ey = Err EmptyGraph) by
      (by apply make_planner_Err). congruence.
  - apply make_planner_Err in E as [Hn ->]. simpl in Hn. naive_solver.
Qed.

(** C8: in the model [main] builds, [b] is a neighbour of [a] exactly
    when [a] and [b] are consecutive, in either order, on a way of the
    parsed map. *)
Theorem main_route_adjacency osm md sx sy ex ey m p out :
  parse_osm osm = Some md -> main_route parse_osm osm sx sy ex ey = (Routed m p, out) ->
  forall a b, b ∈ neighbors m a <-> road_link (md_ways md) a b.
Proof.
  intros Hp Hr a b. destruct (routed_facts _ _ _ _ _ _ _ _ _ _ Hp Hr) as (-> & _).
  apply neighbors_build_model.
Qed.

(** C9: adjacency in the model [main] builds is symmetric. *)
Theorem main_route_adjacency_sym osm md sx sy ex ey m p out :
  parse_osm osm = Some md -> main_route parse_osm osm sx sy ex ey = (Routed m p, out) ->
  forall a b, b ∈ neighbors m a <-> a ∈ neighbors m b.
Proof.
  intros Hp Hr a b. destruct (routed_facts _ _ _ _ _ _ _ _ _ _ Hp Hr) as (-> & _).
  rewrite !neighbors_build_model. apply road_link_sym.
Qed.

(** C10: when both coordinates resolve to the same node, the route is
    that single node and the distance is zero. *)
Theorem main_route_same_node osm md sx sy ex ey m p out :
  parse_osm osm = Some md -> map_wfb md = true ->
  main_route parse_osm osm sx sy ex ey = (Routed m p, out) -> rp_start p = rp_end p ->
  rp_path p = [rp_start p] /\ (GetDistance p == 0)%Q.
Proof.
  intros Hp Hwf Hr Hse.
  destruct (routed_facts _ _ _ _ _ _ _ _ _ _ Hp Hr) as (-> & _ & _ & _ & Hs & _ & _ & Hor).
  rewrite <- Hse in *.
  destruct (model_search_complete md Hwf _ _ Hs (rtc_refl _ _)) as (path & d & Hok).
  destruct Hor as [Hok'|(e & Herr & _)]; [|congruence]. rewrite Hok in Hok'.
  injection Hok' as Hpath Hdist.
  destruct (model_search_Ok md Hwf _ _ _ _ Hs Hok) as (Hh & Hl & _ & Hnd & Hd & _).
  pose proof (NoDup_head_last _ _ Hnd Hh Hl) as ->. split; [done|].
  unfold GetDistance. rewrite <- Hdist, Hd. simpl. lra.
Qed.

(** C29: the route [main] reports refines the relational A*: for
    well-formed map data, what the planner holds after [AStarSearch] is an
    outcome the rule admits from the start node towards the end node,
    whatever its tie-break: the reported path and distance, read off a
    reached state in which the end node had least [f]; or, with the empty
    path and distance 0, an exhausted open list. *)
Theorem main_route_refines osm md sx sy ex ey m p out :
  parse_osm osm = Some md -> map_wfb md = true ->
  main_route parse_osm osm sx sy ex ey = (Routed m p, out) ->
  astar_outcome m (rp_end p) (rp_start p) (Ok (rp_path p, rp_distance p)) \/
  (astar_outcome m (rp_end p) (rp_start p) (Err NoPathFound) /\ rp_path p = [] /\ rp_distance p = 0%Q).
Proof.
  intros Hp Hwf Hr.
  destruct (routed_facts _ _ _ _ _ _ _ _ _ _ Hp Hr) as (-> & _ & _ & _ & Hs & _ & _ & Hres).
  pose proof (@search_refines RouteModel RouteModel_SearchGraph (build_model md)
                (build_model_wf md Hwf) (rp_end p) (rp_start p) Hs) as Ho.
  destruct Hres as [Hok|(e & Herr & Hnil & Hd)].
  - left. by rewrite <- Hok.
  - right. rewrite Herr in Ho. by inversion Ho; subst.
Qed.

End MainRouteProperties.

(** ** The whole of [main] up to rendering *)

(** What [main] runs against: its argument vector (program name
    included), the lines of standard input, the file system. *)
Record World : Type := mkWorld {
  argv : list string;
  stdin : list string;
  files : FileSystem
}.

Section MainProgram.
Variable parse_osm : list Byte.byte -> option MapData.

(** Lines 42-45: the four coordinates, in this order. *)
Definition read_coordinates (fuel : nat) (inp : list string)
    : option (Q * Q * Q * Q * list string * list Out) :=
  match get_user_input fuel "start X" inp with
  | None => None
  | Some (sx, inp1, o1) =>
    match get_user_input fuel "start Y" inp1 with
    | None => None
    | Some (sy, inp2, o2) =>
      match get_user_input fuel "end X" inp2 with
      | None => None
      | Some (ex, inp3, o3) =>
        match get_user_input fuel "end Y" inp3 with
        | None => None
        | Some (ey, inp4, o4) => Some (sx, sy, ex, ey, inp4, o1 ++ o2 ++ o3 ++ o4)
        end
      end
    end
  end.

(** Lines 17-54: choose the file, load it, read the coordinates, compute
    and print the route.  [None] when a coordinate prompt does not end
    within [fuel] lines; rendering (lines 56-70) is not modelled. *)
Definition main (fuel : nat) (w : World) : option (RouteOutcome * list Out) :=
  let '(file, out1) := select_osm_file (argv w) in
  let '(osm_data, out2) := load_osm_data (files w) file in
  match read_coordinates fuel (stdin w) with
  | None => None
  | Some (sx, sy, ex, ey, _, out3) =>
      let '(r, out4) := main_route parse_osm osm_data sx sy ex ey in
      Some (r, out1 ++ out2 ++ out3 ++ out4)
  end.


(** The four reads of [read_coordinates], in order. *)
Lemma read_coordinates_inv fuel inp sx sy ex ey rest outs :
  read_coordinates fuel inp = Some (sx, sy, ex, ey, rest, outs) ->
  exists i1 i2 i3 o1 o2 o3 o4,
    get_user_input fuel "start X" inp = Some (sx, i1, o1) /\
    get_user_input fuel "start Y" i1 = Some (sy, i2, o2) /\
    get_user_input fuel "end X" i2 = Some (ex, i3, o3) /\
    get_user_input fuel "end Y" i3 = Some (ey, rest, o4) /\ outs = o1 ++ o2 ++ o3 ++ o4.
Proof.
  unfold read_coordinates.
  destruct (get_user_input fuel "start X" inp) as [[[v1 i1] o1]|] eqn:E1; [|done].
  destruct (get_user_input fuel "start Y" i1) as [[[v2 i2] o2]|] eqn:E2; [|done].
  destruct (get_user_input fuel "end X" i2) as [[[v3 i3] o3]|] eqn:E3; [|done].
  destruct (get_user_input fuel "end Y" i3) as [[[v4 i4] o4]|] eqn:E4; [|done].
  intros [= <- <- <- <- <- <-].
  eauto 20.
Qed.

Lemma read_coordinates_Some fuel inp sx sy ex ey rest outs :
  read_coordinates fuel inp = Some (sx, sy, ex, ey, rest, outs) ->
  (0 <= sx <= 100 /\ 0 <= sy <= 100 /\ 0 <= ex <= 100 /\ 0 <= ey <= 100)%Q /\
  valid_count inp = 4 + valid_count rest.
Proof.
  intros (i1 & i2 & i3 & o1 & o2 & o3 & o4 & E1 & E2 & E3 & E4 & ->)%read_coordinates_inv.
  pose proof (get_user_input_consumes _ _ _ _ _ _ E1) as C1. pose proof (get_user_input_consumes _ _ _ _ _ _ E2) as C2.
  pose proof (get_user_input_consumes _ _ _ _ _ _ E3) as C3. pose proof (get_user_input_consumes _ _ _ _ _ _ E4) as C4.
  apply get_user_input_Some_inv in E1 as (_ & _ & _ & _ & _ & B1%out_of_range_false & _).
  apply get_user_input_Some_inv in E2 as (_ & _ & _ & _ & _ & B2%out_of_range_false & _).
  apply get_user_input_Some_inv in E3 as (_ & _ & _ & _ & _ & B3%out_of_range_false & _).
  apply get_user_input_Some_inv in E4 as (_ & _ & _ & _ & _ & B4%out_of_range_false & _).
  split; [tauto|lia].
Qed.

Lemma main_Some fuel w r out :
  main fuel w = Some (r, out) ->
  exists sx sy ex ey rest out3,
    read_coordinates fuel (stdin w) = Some (sx, sy, ex, ey, rest, out3) /\
    r = fst (main_route parse_osm (fst (load_osm_data (files w) (fst (select_osm_file (argv w))))) sx sy ex ey) /\
    out = snd (select_osm_file (argv w)) ++ snd (load_osm_data (files w) (fst (select_osm_file (argv w)))) ++
          out3 ++ snd (main_route parse_osm (fst (load_osm_data (files w) (fst (select_osm_file (argv w))))) sx sy ex ey).
Proof.
  unfold main. destruct (select_osm_file (argv w)) as [file out1]. simpl.
  destruct (load_osm_data (files w) file) as [osm out2]. simpl.
  destruct (read_coordinates fuel (stdin w)) as [[[[[[sx sy] ex] ey] rest] out3]|]; [|done].
  destruct (main_route parse_osm osm sx sy ex ey) as [r' out4] eqn:E. intros [= <- <-].
  exists sx, sy, ex, ey, rest, out3. rewrite E. done.
Qed.

(** A coordinate typed on a line of [inp]: the float [strtof] makes of
    the number extracted from the line. *)
Definition typed (inp : list string) (v : Q) : Prop :=
  exists line q, line ∈ inp /\ extract_float line = Some q /\ strtof q = Some v.

Lemma get_user_input_typed fuel c inp v rest outs :
  get_user_input fuel c inp = Some (v, rest, outs) ->
  typed inp v /\ (forall x, x ∈ rest -> x ∈ inp).
Proof.
  intros H. pose proof (get_user_input_from _ _ _ _ _ _ H) as [(line & Hin & Hv) Hsub].
  apply get_user_input_Some_inv in H as (_ & _ & _ & _ & _ & Hr%out_of_range_false & _).
  split; [|done]. destruct (read_value_cases line) as [Hm|(q & Hx & Hq)].
  - rewrite Hv in Hm. rewrite Hm in Hr. lra.
  - exists line, q. by rewrite <- Hv.
Qed.

Lemma typed_mono inp inp' v : (forall x, x ∈ inp' -> x ∈ inp) -> typed inp' v -> typed inp v.
Proof. intros Hsub (line & q & Hin & Hx & Hq). exists line, q. auto. Qed.

Lemma read_coordinates_typed fuel inp sx sy ex ey rest outs :
  read_coordinates fuel inp = Some (sx, sy, ex, ey, rest, outs) ->
  typed inp sx /\ typed inp sy /\ typed inp ex /\ typed inp ey.
Proof.
  intros (i1 & i2 & i3 & o1 & o2 & o3 & o4 & E1 & E2 & E3 & E4 & ->)%read_coordinates_inv.
  apply get_user_input_typed in E1 as [T1 S1], E2 as [T2 S2], E3 as [T3 S3], E4 as [T4 S4].
  split_and!; [done| |eapply typed_mono; [|exact T3]|eapply typed_mono; [|exact T4]];
    [eapply typed_mono; [|exact T2]|..]; auto.
Qed.

(** C14: the coordinates [main] hands to the route computation are the
    four values it read, each in [0,100]. *)
Theorem main_routes_in_range fuel w r out :
  main fuel w = Some (r, out) ->
  exists sx sy ex ey,
    (0 <= sx <= 100 /\ 0 <= sy <= 100 /\ 0 <= ex <= 100 /\ 0 <= ey <= 100)%Q /\
    r = fst (main_route parse_osm (fst (load_osm_data (files w) (fst (select_osm_file (argv w))))) sx sy ex ey).
Proof.
  intros (sx & sy & ex & ey & rest & out3 & Hrc & Hr & _)%main_Some.
  apply read_coordinates_Some in Hrc as [Hb _]. exists sx, sy, ex, ey. done.
Qed.

(** C15: with fewer than four lines that yield a coordinate in [0,100]
    on standard input, [main] never reaches the route computation. *)
Theorem main_too_few_coordinates fuel w :
  valid_count (stdin w) < 4 -> main fuel w = None.
Proof.
  intros Hlt. destruct (main fuel w) as [[r out]|] eqn:E; [|done].
  apply main_Some in E as (sx & sy & ex & ey & rest & out3 & Hrc & _).
  apply read_coordinates_Some in Hrc as [_ Hc]. lia.
Qed.

(** C16: when the map file cannot be read, [main] prints
    ["Failed to read."], still asks for the four coordinates, and only
    then stops with [InvalidMapData] (when the parser rejects empty
    data). *)
Theorem main_load_failure fuel w file out1 sx sy ex ey rest out3 :
  select_osm_file (argv w) = (file, out1) -> file <> ""%string -> ReadFile (files w) file = None ->
  parse_osm [] = None ->
  read_coordinates fuel (stdin w) = Some (sx, sy, ex, ey, rest, out3) ->
  main fuel w = Some (Aborted InvalidMapData, out1 ++ (reading_message file ++ failed_message) ++ out3).
Proof.
  intros Hsel Hne Hrd Hp Hrc. unfold main. rewrite Hsel. unfold load_osm_data. simpl.
  destruct (String.eqb_spec file "") as [|_]; [done|]. rewrite Hrd. simpl. rewrite Hrc.
  unfold main_route. rewrite Hp. by rewrite app_nil_r.
Qed.

(** C17: with arguments but no ["-f"] followed by a file name, [main]
    reads no map file and prints nothing about it: it asks for the
    coordinates and stops with [InvalidMapData] (when the parser rejects
    empty data). *)
Theorem main_no_file_flag fuel w sx sy ex ey rest out3 :
  1 < length (argv w) ->
  "-f"%string ∉ removelast (tail (argv w)) ->
  parse_osm [] = None ->
  read_coordinates fuel (stdin w) = Some (sx, sy, ex, ey, rest, out3) ->
  main fuel w = Some (Aborted InvalidMapData, out3).
Proof.
  intros Hlen Hno Hp Hrc. unfold main, select_osm_file, has_arguments.
  replace (Nat.ltb 1 (length (argv w))) with true by (symmetry; apply Nat.ltb_lt; lia).
  rewrite (scan_args_no_flag _ _ Hno). simpl. rewrite Hrc. unfold main_route. rewrite Hp.
  simpl. by rewrite app_nil_r.
Qed.


(** C23: [main] asks for the coordinates in the order start X, start Y,
    end X, end Y: its prompts are a run of start X prompts, then start Y,
    then end X, then end Y prompts, each run at least one long. *)
Theorem read_coordinates_prompt_order fuel inp sx sy ex ey rest outs :
  read_coordinates fuel inp = Some (sx, sy, ex, ey, rest, outs) ->
  exists a b c d,
    outs = replicate (S a) (prompt "start X") ++ replicate (S b) (prompt "start Y") ++
           replicate (S c) (prompt "end X") ++ replicate (S d) (prompt "end Y").
Proof.
  intros (i1 & i2 & i3 & o1 & o2 & o3 & o4 & E1 & E2 & E3 & E4 & ->)%read_coordinates_inv.
  apply get_user_input_Some_inv in E1 as (p1 & _ & _ & _ & _ & _ & -> & _).
  apply get_user_input_Some_inv in E2 as (p2 & _ & _ & _ & _ & _ & -> & _).
  apply get_user_input_Some_inv in E3 as (p3 & _ & _ & _ & _ & _ & -> & _).
  apply get_user_input_Some_inv in E4 as (p4 & _ & _ & _ & _ & _ & -> & _).
  eauto.
Qed.

(** C30: each of the four coordinates [main] routes with is a
    single-precision float: the [strtof] rounding of the number typed on
    one of the lines of standard input, never the [-1] of a refused line
    nor a value of its own. *)
Theorem main_coordinates_typed fuel w r out :
  main fuel w = Some (r, out) ->
  exists sx sy ex ey,
    typed (stdin w) sx /\ typed (stdin w) sy /\ typed (stdin w) ex /\ typed (stdin w) ey /\
    r = fst (main_route parse_osm (fst (load_osm_data (files w) (fst (select_osm_file (argv w))))) sx sy ex ey).
Proof.
  intros (sx & sy & ex & ey & rest & out3 & Hrc & Hr & _)%main_Some.
  apply read_coordinates_typed in Hrc as (T1 & T2 & T3 & T4). exists sx, sy, ex, ey. done.
Qed.

(** The prompts of one coordinate are text. *)
Lemma get_user_input_text fuel c inp v rest outs :
  get_user_input fuel c inp = Some (v, rest, outs) -> text_only outs.
Proof. intros (? & ? & _ & _ & _ & _ & -> & _)%get_user_input_Some_inv. apply text_only_replicate. Qed.

(** Before the route computation, [main] prints text only: the usage
    message, the loading messages and the prompts. *)
Lemma main_text fuel w r out :
  main fuel w = Some (r, out) ->
  exists pre sx sy ex ey rest out3 out4, text_only pre /\
    read_coordinates fuel (stdin w) = Some (sx, sy, ex, ey, rest, out3) /\
    main_route parse_osm (fst (load_osm_data (files w) (fst (select_osm_file (argv w))))) sx sy ex ey
      = (r, out4) /\ out = pre ++ out4.
Proof.
  intros (sx & sy & ex & ey & rest & out3 & Hrc & Hr & Hout)%main_Some.
  destruct (read_coordinates_inv _ _ _ _ _ _ _ _ Hrc) as (? & ? & ? & ? & ? & ? & ? & E1 & E2 & E3 & E4 & ->).
  set (osm := fst (load_osm_data (files w) (fst (select_osm_file (argv w))))) in *.
  exists (snd (select_osm_file (argv w)) ++ snd (load_osm_data (files w) (fst (select_osm_file (argv w))))
          ++ (x2 ++ x3 ++ x4 ++ x5)), sx, sy, ex, ey, rest, (x2 ++ x3 ++ x4 ++ x5),
    (snd (main_route parse_osm osm sx sy ex ey)).
  split_and!; [|done|by rewrite Hr; destruct (main_route _ _ _ _ _ _)|by rewrite Hout, !app_assoc].
  repeat apply text_only_app; try (eapply get_user_input_text; eassumption);
    unfold select_osm_file, load_osm_data, usage_message, reading_message, failed_message;
    repeat case_match; simpl; auto 10 with route.
Qed.

End MainProgram.
