(* ===== verification/Format.v ===== *)
(** * The text [std::cout] prints (line 54 of [src/src/main.cpp])

    [main] prints the distance with [std::cout << route_planner.GetDistance()],
    a [float] inserted into a stream with the default format flags and
    precision 6.  libstdc++'s [num_put] converts it to [double] and prints
    it as C's [printf("%.6g")]: the value rounded to 6 significant digits
    (nearest, ties to even, on the exact value), written in fixed notation
    when its decimal exponent [x] satisfies [-4 <= x < 6] and in scientific
    notation [d.ddddde+xx] otherwise, trailing zeros of the fraction and a
    trailing point removed.

    [format_g] is that conversion on the exact value of the model;
    [stdout_text] is the text of a list of output events.  The round trip
    ([distance_report_roundtrip]) reads the printed number back with the
    program's own extraction [extract_float]. *)

From Stdlib Require Import QArith Qpower Qabs ZArith Lia Lqa String Ascii.
From stdpp Require Import base tactics.
From S2P Require Import Prelude Radix Float32 UserInput Main.

(** ** The conversion *)

Definition pow10 (k : Z) : Q := bpow 10 k.
Definition flog10 (q : Q) : Z := flog 10 q.

(** The default precision of a stream. *)
Definition precision : Z := 6.

Definition digit_char (d : Z) : ascii := ascii_of_nat (48 + Z.to_nat d).

(** The last [k] decimal digits of [v], most significant first. *)
Fixpoint digits_fixed (k : nat) (v : Z) : string :=
  match k with
  | O => EmptyString
  | S k' => (digits_fixed k' (v / 10) ++ String (digit_char (v mod 10)) EmptyString)%string
  end.

(** The decimal digits of a non-negative integer, without leading zeros. *)
Definition decimal_Z (n : Z) : string := digits_fixed (S (Z.to_nat (ilog 10 n))) n.

(** A fraction [v / 10^k] without its trailing zeros. *)
Fixpoint strip_zeros (k : nat) (v : Z) : nat * Z :=
  match k with
  | O => (O, v)
  | S k' => if (v mod 10 =? 0)%Z then strip_zeros k' (v / 10) else (k, v)
  end.

(** Integer part, then the [k] digits of the fraction [v] unless they are
    all zero. *)
Definition fixed_digits (ip : Z) (k : nat) (v : Z) : string :=
  let '(k', v') := strip_zeros k v in
  (decimal_Z ip ++ match k' with O => "" | _ => "." ++ digits_fixed k' v' end)%string.

(** The exponent of the scientific notation: a sign and at least two digits. *)
Definition exponent_text (x : Z) : string :=
  ("e" ++ (if (x <? 0)%Z then "-" else "+") ++
   digits_fixed (Nat.max 2 (S (Z.to_nat (ilog 10 (Z.abs x))))) (Z.abs x))%string.

(** [%.6g] of a positive value. *)
Definition format_pos (q : Q) : string :=
  let x0 := flog10 q in
  let m0 := round_ne (q / pow10 (x0 - (precision - 1))) in
  let '(m, x) := if (m0 =? 10 ^ precision)%Z then (10 ^ (precision - 1), x0 + 1)%Z
                 else (m0, x0) in
  if (-4 <=? x)%Z && (x <? precision)%Z then
    let k := Z.to_nat (precision - 1 - x) in
    fixed_digits (m / 10 ^ Z.of_nat k) k (m mod 10 ^ Z.of_nat k)
  else
    (fixed_digits (m / 10 ^ (precision - 1)) (Z.to_nat (precision - 1)) (m mod 10 ^ (precision - 1))
       ++ exponent_text x)%string.

Definition format_g (q : Q) : string :=
  if Qeq_bool q 0 then "0"
  else if Qltb q 0 then ("-" ++ format_pos (- q))%string else format_pos q.

(** The text of the output events. *)
Definition out_text (o : Out) : string :=
  match o with OStr s => s | ONum q => format_g q end.

Fixpoint stdout_text (outs : list Out) : string :=
  match outs with [] => EmptyString | o :: r => (out_text o ++ stdout_text r)%string end.

(** ** Digits *)

Lemma radix10 : (2 <= 10)%Z.
Proof. lia. Qed.

(** The characters of the digits: digits, no space, no sign, no point. *)
Lemma digit_char_spec d : (0 <= d < 10)%Z ->
  digit_value (digit_char d) = Some d /\ is_space (digit_char d) = false /\
  (digit_char d =? "-")%char = false /\ (digit_char d =? "+")%char = false /\
  (digit_char d =? ".")%char = false /\ (digit_char d =? "e")%char = false /\
  (digit_char d =? "E")%char = false.
Proof.
  intros Hd. assert (d = 0 \/ d = 1 \/ d = 2 \/ d = 3 \/ d = 4 \/ d = 5 \/ d = 6 \/ d = 7 \/
                     d = 8 \/ d = 9)%Z as Hc by lia.
  repeat destruct Hc as [->|Hc]; [..|subst]; vm_compute; auto 10.
Qed.

Lemma mod_mul_10 v k : (0 <= k)%Z -> (v mod (10 * 10 ^ k) = v mod 10 + 10 * ((v / 10) mod 10 ^ k))%Z.
Proof.
  intros Hk. assert (Hp : (0 < 10 ^ k)%Z) by (apply Z.pow_pos_nonneg; lia).
  rewrite (Z.mod_eq v (10 * 10 ^ k)) by lia. rewrite <- Z.div_div by lia.
  rewrite (Z.mod_eq (v / 10) (10 ^ k)) by lia.
  pose proof (Z_div_mod_eq_full v 10). lia.
Qed.

Lemma read_digits_fixed k v s acc n :
  read_digits (digits_fixed k v ++ s) acc n =
  read_digits s (acc * 10 ^ Z.of_nat k + v mod 10 ^ Z.of_nat k) (n + k).
Proof.
  revert v s acc n. induction k as [|k IH]; intros v s acc n.
  { cbn [digits_fixed]. change (10 ^ Z.of_nat 0)%Z with 1%Z.
    rewrite Z.mul_1_r, Z.mod_1_r, Z.add_0_r, Nat.add_0_r. reflexivity. }
  cbn [digits_fixed]. rewrite str_app_assoc, IH.
  pose proof (Z.mod_pos_bound v 10 ltac:(lia)) as Hm.
  destruct (digit_char_spec (v mod 10) Hm) as [Hd _].
  change ((String (digit_char (v mod 10)) "" ++ s)%string) with (String (digit_char (v mod 10)) s).
  cbn [read_digits]. rewrite Hd. f_equal; [|lia].
  rewrite Nat2Z.inj_succ, Z.pow_succ_r by lia.
  rewrite mod_mul_10 by lia. ring.
Qed.

Lemma digits_fixed_head k v : exists d s,
  digits_fixed (S k) v = String (digit_char d) s /\ (0 <= d < 10)%Z.
Proof.
  revert v. induction k as [|k IH]; intros v.
  - exists (v mod 10)%Z, EmptyString. split; [reflexivity|apply Z.mod_pos_bound; lia].
  - destruct (IH (v / 10)%Z) as (d & s & E & Hd). exists d.
    exists (s ++ String (digit_char (v mod 10)) EmptyString)%string. split; [|done].
    change (digits_fixed (S (S k)) v) with
      (digits_fixed (S k) (v / 10) ++ String (digit_char (v mod 10)) EmptyString)%string.
    by rewrite E.
Qed.

Lemma strip_zeros_spec k v : (0 <= v < 10 ^ Z.of_nat k)%Z ->
  let '(k', v') := strip_zeros k v in
  (k' <= k)%nat /\ v = (v' * 10 ^ Z.of_nat (k - k'))%Z /\ (0 <= v' < 10 ^ Z.of_nat k')%Z.
Proof.
  revert v. induction k as [|k IH]; intros v Hv; simpl.
  { replace (v * 1)%Z with v by lia. lia. }
  rewrite Nat2Z.inj_succ, Z.pow_succ_r in Hv by lia.
  destruct (Z.eqb_spec (v mod 10) 0) as [Hz|Hz].
  - assert (Hv' : (0 <= v / 10 < 10 ^ Z.of_nat k)%Z).
    { split; [apply Z.div_pos; lia|apply Z.div_lt_upper_bound; lia]. }
    specialize (IH _ Hv'). destruct (strip_zeros k (v / 10)) as [k' v'].
    destruct IH as (Hk & Hv1 & Hv2). split; [lia|split; [|done]].
    replace (S k - k')%nat with (S (k - k')) by lia.
    rewrite Nat2Z.inj_succ, Z.pow_succ_r by lia.
    pose proof (Z_div_mod_eq_full v 10). lia.
  - rewrite Nat.sub_diag. simpl. rewrite Nat2Z.inj_succ, Z.pow_succ_r by lia. lia.
Qed.

Lemma decimal_Z_read n s acc c : (0 <= n)%Z ->
  let len := S (Z.to_nat (ilog 10 n)) in
  read_digits (decimal_Z n ++ s) acc c = read_digits s (acc * 10 ^ Z.of_nat len + n) (c + len) /\
  (n < 10 ^ Z.of_nat len)%Z.
Proof.
  intros Hn len. unfold decimal_Z. fold len. rewrite read_digits_fixed.
  assert (Hlt : (n < 10 ^ Z.of_nat len)%Z).
  { unfold len. rewrite Nat2Z.inj_succ, Z2Nat.id by apply ilog_nonneg.
    destruct (Z.eq_dec n 0) as [->|Hn0]; [apply Z.pow_pos_nonneg; [lia|pose proof (ilog_nonneg 10 0%Z); lia]|].
    rewrite <- Z.add_1_r. apply (ilog_spec 10 radix10); lia. }
  rewrite Z.mod_small by lia. done.
Qed.

Lemma decimal_Z_head n : exists d s, decimal_Z n = String (digit_char d) s /\ (0 <= d < 10)%Z.
Proof. apply digits_fixed_head. Qed.

(** The text after a number: nothing, or an exponent. *)
Definition number_tail (t : string) : Prop := t = EmptyString \/ exists s, t = String "e" s.

Lemma read_digits_tail t acc c : number_tail t -> read_digits t acc c = (acc, c, t).
Proof. intros [->|[s ->]]; reflexivity. Qed.

Lemma read_fraction_tail t ip : number_tail t -> read_fraction t ip = (ip, 0%nat, t).
Proof. intros [->|[s ->]]; reflexivity. Qed.

(** ** Reading the text back *)

Lemma read_digits_dot s acc c : read_digits (String "." s) acc c = (acc, c, String "." s).
Proof. reflexivity. Qed.

Lemma read_fraction_dot s ip : read_fraction (String "." s) ip = read_digits s ip 0.
Proof. reflexivity. Qed.

Lemma pow10_shift A k e : (0 <= k)%Z ->
  (inject_Z (A * 10 ^ k) * pow10 (e - k) == inject_Z A * pow10 e)%Q.
Proof.
  intros Hk. rewrite inject_Z_mult. unfold pow10. rewrite <- (bpow_Z 10 k Hk).
  rewrite <- Qmult_assoc, <- (bpow_add 10 radix10). by replace (k + (e - k))%Z with e by lia.
Qed.

(** A number in fixed notation, possibly followed by an exponent, is read
    as its digits scaled by the exponent. *)
Lemma extract_fixed sg ip k v t e :
  (0 <= ip)%Z -> (0 <= v < 10 ^ Z.of_nat k)%Z -> number_tail t -> read_exponent t = Some e ->
  exists r, extract_number sg (fixed_digits ip k v ++ t) = Some r /\
    (r == inject_Z (sg * (ip * 10 ^ Z.of_nat k + v)) * pow10 (e - Z.of_nat k))%Q.
Proof.
  intros Hip Hv Ht He. unfold fixed_digits.
  pose proof (strip_zeros_spec k v Hv) as Hs.
  destruct (strip_zeros k v) as [k' v'] eqn:Es. destruct Hs as (Hk & Hvv & Hv').
  set (len := S (Z.to_nat (ilog 10 ip))).
  unfold extract_number. destruct k' as [|k''].
  - rewrite str_app_nil_r. destruct (decimal_Z_read ip t 0 0 Hip) as [Hr _]. fold len in Hr.
    rewrite Hr, read_digits_tail, read_fraction_tail by done. simpl. rewrite He.
    eexists; split; [reflexivity|].
    assert (v = 0)%Z as -> by (simpl in Hv'; nia).
    rewrite Z.add_0_r, Z.mul_assoc, pow10_shift by lia. change (10 ^ (e - Z.of_nat 0))%Q with (pow10 (e - 0)).
    by rewrite Z.sub_0_r.
  - rewrite str_app_assoc. destruct (decimal_Z_read ip (("." ++ digits_fixed (S k'') v') ++ t) 0 0 Hip)
      as [Hr _]. fold len in Hr. rewrite Hr.
    change (("." ++ digits_fixed (S k'') v') ++ t)%string
      with (String "." (digits_fixed (S k'') v' ++ t)).
    rewrite read_digits_dot, read_fraction_dot, read_digits_fixed, read_digits_tail by done. rewrite He.
    replace (len + 0 + 0 =? 0)%nat with false by (unfold len; simpl; lia).
    eexists; split; [reflexivity|].
    rewrite Z.mod_small by lia.
    rewrite Hvv. remember (Z.of_nat (k - S k'')) as j eqn:Ej.
    assert (Ek : Z.of_nat k = (Z.of_nat (S k'') + j)%Z) by lia. rewrite Ek.
    rewrite Z.pow_add_r by lia.
    replace (sg * (ip * (10 ^ Z.of_nat (S k'') * 10 ^ j) + v' * 10 ^ j))%Z
      with (sg * (ip * 10 ^ Z.of_nat (S k'') + v') * 10 ^ j)%Z by ring.
    replace (e - (Z.of_nat (S k'') + j))%Z with (e - Z.of_nat (S k'') - j)%Z by lia.
    rewrite pow10_shift by lia.
    replace (0 * 10 ^ Z.of_nat len + ip)%Z with ip by ring. replace (0 + S k'')%nat with (S k'') by lia.
    reflexivity.
Qed.

Lemma read_exponent_sign (c : ascii) sgv s :
  (c = "-"%char /\ sgv = (-1)%Z) \/ (c = "+"%char /\ sgv = 1%Z) ->
  read_exponent (String "e" (String c s)) =
    let '(ev, ke, _) := read_digits s 0 0 in if (ke =? 0)%nat then None else Some (sgv * ev)%Z.
Proof. by intros [[-> ->]|[-> ->]]. Qed.

Lemma exponent_text_read x : number_tail (exponent_text x) /\ read_exponent (exponent_text x) = Some x.
Proof.
  split; [right; eexists; reflexivity|].
  set (w := Nat.max 2 (S (Z.to_nat (ilog 10 (Z.abs x))))).
  assert (Hw : (Z.abs x < 10 ^ Z.of_nat w)%Z).
  { destruct (decimal_Z_read (Z.abs x) "" 0 0 ltac:(lia)) as [_ Hlt].
    eapply Z.lt_le_trans; [exact Hlt|]. apply Z.pow_le_mono_r; [lia|]. unfold w. lia. }
  unfold exponent_text. fold w.
  rewrite <- (str_app_nil_r (digits_fixed w (Z.abs x))).
  assert (Hw0 : (0 + w =? 0)%nat = false) by (apply Nat.eqb_neq; unfold w; lia).
  destruct (Z.ltb_spec x 0) as [Hx|Hx].
  - change ("e" ++ "-" ++ digits_fixed w (Z.abs x) ++ "")%string
      with (String "e" (String "-" (digits_fixed w (Z.abs x) ++ ""))).
    rewrite (read_exponent_sign _ (-1)) by auto.
    rewrite read_digits_fixed. cbn [read_digits]. rewrite Hw0.
    rewrite Z.mod_small by lia. f_equal. lia.
  - change ("e" ++ "+" ++ digits_fixed w (Z.abs x) ++ "")%string
      with (String "e" (String "+" (digits_fixed w (Z.abs x) ++ ""))).
    rewrite (read_exponent_sign _ 1) by auto.
    rewrite read_digits_fixed. cbn [read_digits]. rewrite Hw0.
    rewrite Z.mod_small by lia. f_equal. lia.
Qed.

Lemma fixed_digits_head ip k v t :
  exists d s, (fixed_digits ip k v ++ t)%string = String (digit_char d) s /\ (0 <= d < 10)%Z.
Proof.
  destruct (decimal_Z_head ip) as (d & s & E & Hd). exists d. unfold fixed_digits.
  destruct (strip_zeros k v) as [k' v']. rewrite str_app_assoc, E. by eexists.
Qed.

(** The text starts with a digit: no space is skipped and there is no sign. *)
Lemma extract_float_digit s : (exists d s', s = String (digit_char d) s' /\ (0 <= d < 10)%Z) ->
  extract_float s = extract_number 1 s.
Proof.
  intros (d & s' & -> & Hd). destruct (digit_char_spec d Hd) as (_ & Hsp & Hm & Hp & _).
  unfold extract_float. cbn [skip_ws]. rewrite Hsp. cbn [read_sign]. by rewrite Hm, Hp.
Qed.

Lemma extract_float_minus s : (exists d s', s = String (digit_char d) s' /\ (0 <= d < 10)%Z) ->
  extract_float ("-" ++ s) = extract_number (-1) s.
Proof. intros _. reflexivity. Qed.

(** The digits of [m] with the point [k] places from the right read back
    as [m * 10^(e - k)]. *)
Lemma extract_split sg m k t e :
  (0 <= m)%Z -> number_tail t -> read_exponent t = Some e ->
  exists r, extract_number sg (fixed_digits (m / 10 ^ Z.of_nat k) k (m mod 10 ^ Z.of_nat k) ++ t) = Some r /\
    (r == inject_Z (sg * m) * pow10 (e - Z.of_nat k))%Q.
Proof.
  intros Hm Ht He. assert (Hp : (0 < 10 ^ Z.of_nat k)%Z) by (apply Z.pow_pos_nonneg; lia).
  destruct (extract_fixed sg (m / 10 ^ Z.of_nat k) k (m mod 10 ^ Z.of_nat k) t e) as (r & Hr & Er);
    [apply Z.div_pos; lia|apply Z.mod_pos_bound; lia|done|done|].
  exists r. split; [done|].
  assert (Em : (m / 10 ^ Z.of_nat k * 10 ^ Z.of_nat k + m mod 10 ^ Z.of_nat k = m)%Z)
    by (rewrite Z.mul_comm; symmetry; apply Z_div_mod_eq_full).
  by rewrite Er, Em.
Qed.

Section FormatPos.

Variable q : Q.
Hypothesis Hq : (0 < q)%Q.

Let x0 := flog10 q.
Let m0 := round_ne (q / pow10 (x0 - 5)).

Lemma format_m0_nonneg : (0 <= m0)%Z.
Proof.
  apply round_ne_ge. change (inject_Z 0) with 0%Q.
  apply Qle_shift_div_l; [apply (bpow_pos 10 radix10)|]. rewrite Qmult_0_l. lra.
Qed.

(** [%.6g] of a positive value reads back as [m0 * 10^(x0-5)], in both
    notations, and starts with a digit. *)
Lemma format_pos_read sg :
  (exists d s, format_pos q = String (digit_char d) s /\ (0 <= d < 10)%Z) /\
  exists r, extract_number sg (format_pos q) = Some r /\
    (r == inject_Z (sg * m0) * pow10 (x0 - 5))%Q.
Proof.
  pose proof format_m0_nonneg as Hm0.
  assert (Hx : forall m x, (0 <= m)%Z ->
    (inject_Z (sg * m) * pow10 (x - 5) == inject_Z (sg * m0) * pow10 (x0 - 5))%Q ->
    ((if (-4 <=? x)%Z && (x <? precision)%Z then
      let k := Z.to_nat (precision - 1 - x) in
      fixed_digits (m / 10 ^ Z.of_nat k) k (m mod 10 ^ Z.of_nat k)
      else (fixed_digits (m / 10 ^ (precision - 1)) (Z.to_nat (precision - 1))
              (m mod 10 ^ (precision - 1)) ++ exponent_text x)%string) = format_pos q) ->
    (exists d s, format_pos q = String (digit_char d) s /\ (0 <= d < 10)%Z) /\
    exists r, extract_number sg (format_pos q) = Some r /\
      (r == inject_Z (sg * m0) * pow10 (x0 - 5))%Q).
  { intros m x Hm Hv <-. unfold precision.
    destruct ((-4 <=? x)%Z && (x <? 6)%Z) eqn:Hc; cbn zeta.
    - apply andb_true_iff in Hc as [Hc1 Hc2]. apply Z.leb_le in Hc1. apply Z.ltb_lt in Hc2.
      rewrite <- (str_app_nil_r (fixed_digits _ _ _)).
      split; [apply fixed_digits_head|].
      destruct (extract_split sg m (Z.to_nat (6 - 1 - x)) "" 0 Hm) as (r & Hr & Er);
        [by left|done|].
      exists r. split; [done|]. rewrite Er, <- Hv. rewrite Z2Nat.id by lia.
      by replace (0 - (6 - 1 - x))%Z with (x - 5)%Z by lia.
    - destruct (exponent_text_read x) as [Ht He]. split; [apply fixed_digits_head|].
      destruct (extract_split sg m 5 (exponent_text x) x Hm Ht He) as (r & Hr & Er).
      exists r. split; [exact Hr|]. by rewrite Er, <- Hv. }
  destruct (Z.eqb_spec m0 (10 ^ precision)) as [E|N].
  - apply (Hx (10 ^ (precision - 1))%Z (x0 + 1)%Z).
    + unfold precision; lia.
    + rewrite E. unfold precision.
      replace (sg * 10 ^ 6)%Z with (sg * 10 ^ 5 * 10 ^ 1)%Z by (rewrite <- Z.mul_assoc; reflexivity).
      replace (x0 - 5)%Z with (x0 + 1 - 5 - 1)%Z by lia.
      by rewrite pow10_shift by lia.
    + unfold format_pos.
      replace (round_ne (q / pow10 (flog10 q - (precision - 1)))) with (10 ^ precision)%Z
        by (rewrite <- E; reflexivity).
      by rewrite Z.eqb_refl.
  - apply (Hx m0 x0 Hm0); [reflexivity|].
    unfold format_pos.
    replace (round_ne (q / pow10 (flog10 q - (precision - 1)))) with m0 by reflexivity.
    by rewrite (proj2 (Z.eqb_neq _ _) N).
Qed.

(** The printed value differs from [q] by at most half a unit of its sixth
    significant digit. *)
Lemma format_pos_error : (Qabs (inject_Z m0 * pow10 (x0 - 5) - q) <= q * (5 # 1000000))%Q.
Proof.
  assert (Hp : (0 < pow10 (x0 - 5))%Q) by apply (bpow_pos 10 radix10).
  assert (Hpq : (pow10 (x0 - 5) <= q * (1 # 100000))%Q).
  { destruct (flog_spec 10 radix10 q Hq) as [Hl _]. fold x0 in Hl.
    unfold pow10. replace (x0 - 5)%Z with (x0 + -5)%Z by lia. rewrite (bpow_add 10 radix10).
    change (bpow 10 (-5)) with (1 # 100000)%Q. apply Qmult_le_compat_r; [exact Hl|discriminate]. }
  pose proof (round_ne_approx (q / pow10 (x0 - 5))) as Ha. fold m0 in Ha.
  assert (Hy : (q == (q / pow10 (x0 - 5)) * pow10 (x0 - 5))%Q) by (field; lra).
  revert Hp Hpq Ha Hy. generalize (q / pow10 (x0 - 5))%Q as y. generalize (pow10 (x0 - 5)) as p.
  intros p y Hp Hpq Ha Hy.
  assert (Ed : (inject_Z m0 * p - q == - (y - inject_Z m0) * p)%Q) by (rewrite Hy; ring).
  rewrite Ed, Qabs_Qmult, Qabs_opp, (Qabs_pos p) by lra.
  apply Qle_trans with ((1 # 2) * p)%Q; [apply Qmult_le_compat_r; [exact Ha|lra]|lra].
Qed.

End FormatPos.

(** ** The printed number *)

(** [%.6g] read back by the program's own extraction gives the value to
    within half a unit of its sixth significant digit. *)
(** The text printed for a number depends on its value only. *)
Lemma format_pos_Qeq q q' : (0 < q)%Q -> (q == q')%Q -> format_pos q' = format_pos q.
Proof.
  intros Hq E. unfold format_pos, flog10. cbv zeta.
  rewrite (flog_Qeq 10 radix10 q q' Hq E).
  assert (Hm : forall p, round_ne (q' / p) = round_ne (q / p)) by (intros p; by rewrite E).
  by rewrite Hm.
Qed.

#[export] Instance format_g_proper : Proper (Qeq ==> eq) format_g.
Proof.
  intros q q' E. unfold format_g.
  assert (Hz : Qeq_bool q 0 = Qeq_bool q' 0) by (by rewrite E).
  assert (Hn : Qltb q 0 = Qltb q' 0) by (by rewrite E).
  rewrite Hz, Hn. destruct (Qeq_bool q' 0) eqn:Ez; [done|]. qbool.
  destruct (Qltb q' 0) eqn:Hl; qbool.
  - rewrite (format_pos_Qeq (- q') (- q)); [done|lra|by rewrite E].
  - assert (Hp : (0 < q')%Q) by (apply Qle_lt_or_eq in Hl as [|Hl]; [done|by destruct Ez]).
    rewrite (format_pos_Qeq q' q); [done|done|by rewrite E].
Qed.

Lemma format_g_read q : exists v, extract_float (format_g q) = Some v /\
  (Qabs (v - q) <= Qabs q * (5 # 1000000))%Q.
Proof.
  unfold format_g. destruct (Qeq_bool q 0) eqn:Ez; qbool.
  { exists 0%Q. split; [reflexivity|].
    assert (E1 : (Qabs (0 - q) == 0)%Q) by (rewrite Ez; reflexivity).
    assert (E2 : (Qabs q == 0)%Q) by (rewrite Ez; reflexivity).
    rewrite E1, E2. lra. }
  destruct (Qltb q 0) eqn:Hn; qbool.
  - assert (Hq : (0 < - q)%Q) by lra.
    destruct (format_pos_read (- q) Hq (-1)) as [Hh (r & Hr & Er)].
    exists r. rewrite extract_float_minus by done. split; [done|].
    pose proof (format_pos_error (- q) Hq) as Herr.
    rewrite (Qabs_neg q) by lra. rewrite Z.mul_comm, Zmult_comm, inject_Z_mult in Er.
    change (inject_Z (-1)) with (-1)%Q in Er.
    assert (E : (r - q == - (inject_Z (round_ne (- q / pow10 (flog10 (- q) - 5))) * pow10 (flog10 (- q) - 5)
                 - - q))%Q) by (rewrite Er; ring).
    rewrite E, Qabs_opp. exact Herr.
  - assert (Hq : (0 < q)%Q) by (apply Qnot_le_lt; intros Hle; apply Ez; lra).
    destruct (format_pos_read q Hq 1) as [Hh (r & Hr & Er)].
    exists r. rewrite extract_float_digit by done. split; [done|].
    rewrite Z.mul_1_l in Er. rewrite Er, (Qabs_pos q) by lra. apply format_pos_error, Hq.
Qed.

Lemma strip_zeros_0 k : strip_zeros k 0 = (O, 0%Z).
Proof. induction k as [|k IH]; [done|]. simpl. exact IH. Qed.

(** A whole number below [10^6] is printed as its decimal digits. *)
Lemma format_g_Z n : (0 <= n < 10 ^ precision)%Z -> format_g (inject_Z n) = decimal_Z n.
Proof.
  intros Hn. destruct (Z.eq_dec n 0) as [->|Hn0]; [reflexivity|].
  unfold format_g.
  replace (Qeq_bool (inject_Z n) 0) with false
    by (symmetry; apply Qeq_bool_false; unfold Qeq; simpl; lia).
  replace (Qltb (inject_Z n) 0) with false by (symmetry; apply Qltb_false; unfold Qle; simpl; lia).
  destruct (ilog_spec 10 radix10 n ltac:(lia)) as (Hr0 & Hr1 & Hr2). set (r := ilog 10 n) in *.
  assert (Hr : (r < precision)%Z).
  { unfold precision in *. destruct (Z.lt_ge_cases r 6) as [|Hge]; [done|].
    pose proof (Z.pow_le_mono_r 10 6 r ltac:(lia) Hge). lia. }
  assert (Hx : flog10 (inject_Z n) = r).
  { apply (flog_unique 10 radix10); rewrite (bpow_Z 10) by lia; rewrite <- Zle_Qle || rewrite <- Zlt_Qlt; lia. }
  assert (Hm : round_ne (inject_Z n / pow10 (r - (precision - 1))) = (n * 10 ^ (precision - 1 - r))%Z).
  { rewrite <- round_ne_Z. apply round_ne_proper.
    assert (Hk : (0 <= precision - 1 - r)%Z) by (unfold precision in *; lia).
    assert (E : (pow10 (r - (precision - 1)) == / inject_Z (10 ^ (precision - 1 - r)))%Q).
    { unfold pow10. replace (r - (precision - 1))%Z with (- (precision - 1 - r))%Z by lia.
      unfold bpow. rewrite Qpower_opp. fold (bpow 10 (precision - 1 - r)).
      by rewrite (bpow_Z 10 _ Hk). }
    assert (Hnz : ~ (inject_Z (10 ^ (precision - 1 - r)) == 0)%Q).
    { unfold Qeq; simpl. pose proof (Z.pow_pos_nonneg 10 (precision - 1 - r) ltac:(lia) Hk). lia. }
    rewrite E, inject_Z_mult. field. exact Hnz. }
  unfold format_pos. rewrite Hx, Hm.
  assert (Hlt : (n * 10 ^ (precision - 1 - r) < 10 ^ precision)%Z).
  { replace precision with (r + 1 + (precision - 1 - r))%Z at 2 by lia.
    rewrite Z.pow_add_r by (unfold precision in *; lia).
    apply Z.mul_lt_mono_pos_r; [apply Z.pow_pos_nonneg; unfold precision in *; lia|lia]. }
  replace (n * 10 ^ (precision - 1 - r) =? 10 ^ precision)%Z with false by (symmetry; apply Z.eqb_neq; lia).
  replace ((-4 <=? r)%Z && (r <? precision)%Z) with true by (symmetry; apply andb_true_iff; lia).
  cbn zeta. rewrite Z2Nat.id by (unfold precision in *; lia).
  rewrite Z.div_mul, Z_mod_mult by (apply Z.pow_nonzero; unfold precision in *; lia).
  unfold fixed_digits. rewrite strip_zeros_0. apply str_app_nil_r.
Qed.

(** ** The distance line *)

(** C31: the distance line [main] prints (line 54) holds a number which,
    read back with the program's own float extraction, gives the distance
    to within half a unit of its sixth significant digit
    ([std::cout]'s default precision 6). *)
Theorem distance_report_roundtrip d :
  exists t v, stdout_text (distance_report d) = ("Distance: " ++ t ++ " meters. " ++ nl)%string /\
    extract_float t = Some v /\ (Qabs (v - d) <= Qabs d * (5 # 1000000))%Q.
Proof.
  destruct (format_g_read d) as (v & Hv & Hb). exists (format_g d), v. split; [|done].
  unfold distance_report. cbn [stdout_text out_text]. by rewrite str_app_nil_r.
Qed.

(** C32: a distance equal to a whole number [n] of metres below [10^6],
    however the computation represents it, is printed as the decimal
    digits of [n], without point or exponent. *)
Theorem distance_report_whole d n : (0 <= n < 10 ^ 6)%Z -> (d == inject_Z n)%Q ->
  stdout_text (distance_report d) = ("Distance: " ++ decimal_Z n ++ " meters. " ++ nl)%string.
Proof.
  intros Hn E. unfold distance_report. cbn [stdout_text out_text]. rewrite str_app_nil_r.
  by rewrite E, format_g_Z.
Qed.

(** From [10^6] on, the decimal exponent is at least [6], so [%g] takes
    the scientific style. *)
Lemma format_pos_scientific q : (pow10 6 <= q)%Q ->
  exists mant x, (6 <= x)%Z /\ format_pos q = (mant ++ exponent_text x)%string.
Proof.
  intros Hq. assert (Hq0 : (0 < q)%Q) by (pose proof (bpow_pos 10 radix10 6); unfold pow10 in Hq; lra).
  destruct (flog_spec 10 radix10 q Hq0) as [_ Hhi].
  assert (Hx : (6 <= flog10 q)%Z).
  { enough (6 < flog10 q + 1)%Z by lia. apply (bpow_lt_inv 10 radix10). unfold pow10 in Hq. unfold flog10. lra. }
  unfold format_pos. cbv zeta.
  destruct (_ =? _)%Z; simpl;
    [replace ((-4 <=? flog10 q + 1)%Z && (flog10 q + 1 <? precision)%Z) with false
       by (unfold precision; symmetry; apply andb_false_intro2, Z.ltb_ge; lia)
    |replace ((-4 <=? flog10 q)%Z && (flog10 q <? precision)%Z) with false
       by (unfold precision; symmetry; apply andb_false_intro2, Z.ltb_ge; lia)];
    eexists _, _; split; [|reflexivity| |reflexivity]; lia.
Qed.

(** C33: a distance of at least [10^6] metres is printed in scientific
    notation: the number ends with an exponent [e+xx] of at least [6]. *)
Theorem distance_report_scientific d : (1000000 <= d)%Q ->
  exists mant x, (6 <= x)%Z /\
    stdout_text (distance_report d) = ("Distance: " ++ mant ++ exponent_text x ++ " meters. " ++ nl)%string.
Proof.
  intros Hd. unfold distance_report. cbn [stdout_text out_text]. rewrite str_app_nil_r.
  destruct (format_pos_scientific d ltac:(change (pow10 6) with (1000000 # 1); lra)) as (mant & x & Hx & Hf).
  exists mant, x. split; [done|]. unfold format_g.
  replace (Qeq_bool d 0) with false by (symmetry; apply Qeq_bool_false; lra).
  replace (Qltb d 0) with false by (symmetry; apply Qltb_false; lra).
  by rewrite Hf, !str_app_assoc.
Qed.
