(* ===== verification/Render.v ===== *)
(** * The route window (lines 56-70 of [src/src/main.cpp]) and the whole program

    After printing the distance, [main] builds a [Render] over the model,
    opens a 400x400 [io2d::output_surface] (format [argb32], no scaling,
    fixed refresh at 30 frames per second), registers two callbacks and
    runs the window's event loop with [begin_show]:
    - the size-change callback (lines 65-67) copies the window's display
      dimensions into the surface's dimensions;
    - the draw callback (lines 68-69) lets the renderer draw the model on
      the surface.

    The renderer's drawing ([Render::Display]) is external and taken as a
    section variable [Display]: the picture it draws of a model on a
    surface of given dimensions.  A surface keeps the pictures drawn on
    it, in order.  The event loop is driven by the list of window events
    the environment delivers: a resize of the display, a frame due by the
    fixed refresh, or the window being closed, which ends [begin_show].

    The last section composes [main] (file [Main]) with the window:
    [program] is what lines 17-70 produce, the text printed and, when a
    route was computed, the window over the model. *)

From Stdlib Require Import ZArith QArith.
From stdpp Require Import base list.
From S2P Require Import Prelude Graph Search Planner Cli FileIO Main.

(** ** io2d's enumerations, with the constructors of [io2d::format],
    [io2d::scaling] and [io2d::refresh_style] *)

Inductive format := invalid | argb32 | xrgb32 | rgb16_565 | rgb30 | a8.
Inductive scaling := letterbox | uniform | fill_uniform | fill_exact | none.
Inductive refresh_style := as_needed | as_fast_as_possible | fixed.

Inductive Event := Resized (d : Z * Z) | FrameDue | Closed.

Section Window.

Context {Picture : Type}.

(** [Render::Display]: the picture of a model on a surface of a size. *)
Variable Display : RouteModel -> Z * Z -> Picture.

Record Surface := mkSurface {
  dimensions : Z * Z;
  display_dimensions : Z * Z;
  surface_format : format;
  surface_scaling : scaling;
  surface_refresh : refresh_style;
  surface_fps : Z;
  frames : list Picture
}.

(** An [output_surface] with its registered callbacks. *)
Record OutputSurface := mkOutputSurface {
  surface : Surface;
  on_size_change : option (Surface -> Surface);
  on_draw : option (Surface -> Surface)
}.

(** The constructor of lines 59-64. *)
Definition output_surface (w h : Z) (f : format) (s : scaling) (r : refresh_style) (fps : Z)
    : OutputSurface :=
  mkOutputSurface (mkSurface (w, h) (w, h) f s r fps []) None None.

(** [surface.dimensions(d)]. *)
Definition set_dimensions (d : Z * Z) (s : Surface) : Surface :=
  mkSurface d (display_dimensions s) (surface_format s) (surface_scaling s)
    (surface_refresh s) (surface_fps s) (frames s).

Definition set_display_dimensions (d : Z * Z) (s : Surface) : Surface :=
  mkSurface (dimensions s) d (surface_format s) (surface_scaling s)
    (surface_refresh s) (surface_fps s) (frames s).

Definition set_surface (s : Surface) (o : OutputSurface) : OutputSurface :=
  mkOutputSurface s (on_size_change o) (on_draw o).

Definition size_change_callback (cb : Surface -> Surface) (o : OutputSurface) : OutputSurface :=
  mkOutputSurface (surface o) (Some cb) (on_draw o).

Definition draw_callback (cb : Surface -> Surface) (o : OutputSurface) : OutputSurface :=
  mkOutputSurface (surface o) (on_size_change o) (Some cb).

Definition run_callback (cb : option (Surface -> Surface)) (s : Surface) : Surface :=
  match cb with Some f => f s | None => s end.

(** One event of the loop; [None] when the window is closed. *)
Definition handle_event (o : OutputSurface) (ev : Event) : option OutputSurface :=
  match ev with
  | Resized d => Some (set_surface (run_callback (on_size_change o)
                                      (set_display_dimensions d (surface o))) o)
  | FrameDue => Some (set_surface (run_callback (on_draw o) (surface o)) o)
  | Closed => None
  end.

(** [begin_show()]: the event loop, until the window is closed. *)
Fixpoint begin_show (o : OutputSurface) (evs : list Event) : OutputSurface :=
  match evs with
  | [] => o
  | ev :: evs' => match handle_event o ev with
                  | Some o' => begin_show o' evs'
                  | None => o
                  end
  end.

(** [render.Display(surface)] of the [Render] built on [model] (line 57). *)
Definition render_display (model : RouteModel) (s : Surface) : Surface :=
  mkSurface (dimensions s) (display_dimensions s) (surface_format s) (surface_scaling s)
    (surface_refresh s) (surface_fps s) (frames s ++ [Display model (dimensions s)]).

(** Lines 56-70. *)
Definition show_route (model : RouteModel) (evs : list Event) : OutputSurface :=
  let display := output_surface 400 400 argb32 none fixed 30 in
  let display := size_change_callback
                   (fun s => set_dimensions (display_dimensions s) s) display in
  let display := draw_callback (render_display model) display in
  begin_show display evs.

End Window.

(** ** Properties of the window *)

Section WindowProperties.

Context {Picture : Type}.
Variable Display : RouteModel -> Z * Z -> Picture.
Variable model : RouteModel.

(** The sizes at which frames are due: the latest size of the display,
    one per frame event, none after the window is closed. *)
Fixpoint frame_sizes (cur : Z * Z) (evs : list Event) : list (Z * Z) :=
  match evs with
  | [] => []
  | Resized d :: evs' => frame_sizes d evs'
  | FrameDue :: evs' => cur :: frame_sizes cur evs'
  | Closed :: _ => []
  end.

(** The window of [show_route]: both callbacks registered, the surface as
    large as the display. *)
Definition window_inv (o : OutputSurface) : Prop :=
  on_size_change o = Some (fun s => set_dimensions (display_dimensions s) s) /\
  on_draw o = Some (render_display Display model) /\
  dimensions (surface o) = display_dimensions (surface o).

Lemma handle_event_inv o ev o' :
  window_inv o -> handle_event o ev = Some o' -> window_inv o'.
Proof.
  intros (Hs & Hd & Hdim). destruct ev; simpl; intros [= <-]; unfold window_inv; simpl;
    rewrite ?Hs, ?Hd; simpl; done.
Qed.

Lemma begin_show_frames o evs : window_inv o ->
  window_inv (begin_show o evs) /\
  frames (surface (begin_show o evs)) =
    frames (surface o) ++ map (Display model) (frame_sizes (dimensions (surface o)) evs).
Proof.
  revert o. induction evs as [|ev evs IH]; intros o Hinv; simpl.
  { by rewrite app_nil_r. }
  destruct (handle_event o ev) as [o'|] eqn:E.
  - pose proof (handle_event_inv o ev o' Hinv E) as Hinv'.
    destruct (IH o' Hinv') as [Hi Hf]. split; [done|]. rewrite Hf.
    destruct Hinv as (Hs & Hd & Hdim).
    destruct ev; simpl in E; [| |discriminate]; injection E as <-; simpl; rewrite ?Hs, ?Hd; simpl.
    all: by rewrite <- ?app_assoc, ?Hdim.
  - destruct ev; try discriminate. simpl. by rewrite app_nil_r.
Qed.

Lemma show_route_start : window_inv (draw_callback (render_display Display model)
  (size_change_callback (fun s => set_dimensions (display_dimensions s) s)
     (output_surface (Picture := Picture) 400 400 argb32 none fixed 30))).
Proof. done. Qed.

(** C27: whatever events the window receives, when [begin_show] returns
    the surface is exactly as large as the display: the size-change
    callback of lines 65-67 copies every new display size into the
    surface.  (The events are arbitrary, so this holds after every prefix
    of them too.) *)
Theorem show_route_dimensions evs :
  dimensions (surface (show_route Display model evs)) =
  display_dimensions (surface (show_route Display model evs)).
Proof. apply (begin_show_frames _ evs show_route_start). Qed.

(** C28: the window draws exactly one picture of the model per frame event
    before it is closed, each at the display size current at that frame
    (400x400 until the first resize), and nothing after it is closed. *)
Theorem show_route_frames evs :
  frames (surface (show_route Display model evs)) = map (Display model) (frame_sizes (400, 400)%Z evs).
Proof. apply (begin_show_frames _ evs show_route_start). Qed.

End WindowProperties.

(** ** The whole program *)

Section Program.

Context {Picture : Type}.
Variable Display : RouteModel -> Z * Z -> Picture.
Variable parse_osm : list Byte.byte -> option MapData.

(** [main], lines 17-70: the text it prints, then the route window over
    the model.  When no model can be built ([RouteModel]'s constructor
    fails, or the model has no node to start from) the program ends
    before the window. *)
Definition program (fuel : nat) (w : World) (evs : list Event)
    : option (list Out * option (@OutputSurface Picture)) :=
  match main parse_osm fuel w with
  | None => None
  | Some (Routed m _, out) => Some (out, Some (show_route Display m evs))
  | Some (Aborted _, out) => Some (out, None)
  end.

(** C34: when the window opens, the map data [main] loaded from the file
    it chose parses to some [md], and [main] read four coordinates and
    built its planner on the model of [md] and those coordinates; it has
    printed text only, then the distance line of that planner after its
    A* search as its last output; and the window draws exactly the model
    of [md]: one picture per frame event before the window is closed, at
    the current size. *)
Theorem program_window fuel w evs out o :
  program fuel w evs = Some (out, Some o) ->
  exists md p0 sx sy ex ey rest out3 pre,
    parse_osm (fst (load_osm_data (files w) (fst (select_osm_file (argv w))))) = Some md /\
    read_coordinates fuel (stdin w) = Some (sx, sy, ex, ey, rest, out3) /\
    make_planner (build_model md) sx sy ex ey = Ok p0 /\
    text_only pre /\ out = pre ++ distance_report (GetDistance (fst (AStarSearch p0))) /\
    frames (surface o) = map (Display (build_model md)) (frame_sizes (400, 400)%Z evs).
Proof.
  unfold program. destruct (main parse_osm fuel w) as [[[m p|e] out0]|] eqn:Hm; try discriminate.
  intros [= <- <-].
  destruct (main_text _ _ _ _ _ Hm) as (pre & sx & sy & ex & ey & rest & out3 & out4 & Hpre & Hrc & Hr & ->).
  destruct (main_route_Routed _ _ _ _ _ _ _ _ _ Hr) as (md & p0 & Hp & -> & Hmk & -> & ->).
  exists md, p0, sx, sy, ex, ey, rest, out3, pre. split_and!; try done.
  apply (begin_show_frames Display _ _ evs (show_route_start Display _)).
Qed.

(** C35: when no window opens, [main] has printed no number at all: no
    distance line, only the usage and loading messages and the prompts. *)
Theorem program_no_window fuel w evs out :
  program fuel w evs = Some (out, None) -> text_only out.
Proof.
  unfold program. destruct (main parse_osm fuel w) as [[[m p|e] out0]|] eqn:Hm; try discriminate.
  intros [= <-].
  destruct (main_text _ _ _ _ _ Hm) as (pre & sx & sy & ex & ey & rest & out3 & out4 & Hpre & Hrc & Hr & ->).
  rewrite (main_route_Aborted _ _ _ _ _ _ _ _ Hr), app_nil_r. done.
Qed.

End Program.
