(* ===== verification/Scenarios.v ===== *)
(** * Concrete runs of [main]'s route computation

    Small maps on which [main_route] is evaluated by [vm_compute]: the
    witnesses of the general theorems of [Main], the spec's test cases
    (section 8), and two runs that show what the specified search does not
    guarantee.  All coordinates lie in the input range [0,100]. *)

From Stdlib Require Import QArith Qabs Lqa Lia String.
From stdpp Require Import base gmap list relations.
From S2P Require Import Prelude Geometry Graph Search Planner Cli FileIO Float32 UserInput Main Format Render.

(** ** Maps and runs *)

(** A parser that returns the given map whatever the bytes. *)
Definition parse_as (md : MapData) : list Byte.byte -> option MapData := fun _ => Some md.

Definition run (md : MapData) (sx sy ex ey : Q) : RouteOutcome * list Out :=
  main_route (parse_as md) [] sx sy ex ey.

Definition empty_model : RouteModel := mkRouteModel [] ∅ 0.

Definition run_model (r : RouteOutcome * list Out) : RouteModel :=
  match r.1 with Routed m _ => m | Aborted _ => empty_model end.

Definition run_planner (r : RouteOutcome * list Out) : RoutePlanner :=
  match r.1 with Routed _ p => p | Aborted _ => mkPlanner empty_model 0 0 [] 0 end.

(** Start S=(10,10), goal T=(13,10); roads S-C-N, S-D-N and N-T with
    C=(10,6), D=(6,10), N=(7,10).  Every distance involved is an integer:
    SC=4, CN=5, SD=4, DN=1, NT=6. *)
Definition detour_map : MapData := mkMapData
  [mkCoord 10 10; mkCoord 10 6; mkCoord 6 10; mkCoord 7 10; mkCoord 13 10]
  [[0; 1; 3]; [0; 2; 3]; [3; 4]] 1.

Definition detour_run : RouteOutcome * list Out := run detour_map 10 10 13 10.
Definition detour_back_run : RouteOutcome * list Out := run detour_map 13 10 10 10.

(** The spec's grid test: the corners of a 3-by-4 rectangle, its four
    sides and one diagonal (length 5). *)
Definition grid_map : MapData := mkMapData
  [mkCoord 0 0; mkCoord 3 0; mkCoord 3 4; mkCoord 0 4]
  [[0; 1; 2; 3; 0]; [0; 2]] 1.

Definition grid_run : RouteOutcome * list Out := run grid_map 0 0 3 4.
Definition grid_same_run : RouteOutcome * list Out := run grid_map 0 0 0 0.

(** Two clusters with no road between them. *)
Definition islands_map : MapData := mkMapData
  [mkCoord 0 0; mkCoord 1 0; mkCoord 50 50; mkCoord 51 50]
  [[0; 1]; [2; 3]] 1.

Definition islands_run : RouteOutcome * list Out := run islands_map 0 0 51 50.

(** The spec's nearest-node test: nodes (0,0), (10,10), (50,50). *)
Definition three_points_map : MapData := mkMapData
  [mkCoord 0 0; mkCoord 10 10; mkCoord 50 50] [] 1.

Definition three_points_run : RouteOutcome * list Out := run three_points_map 1 1 1 1.

(** The unreachable end node of the islands run, decided by the search. *)
Lemma islands_unreachable :
  ~ rtc (edge (run_model islands_run)) (rp_start (run_planner islands_run))
        (rp_end (run_planner islands_run)).
Proof.
  assert (Hs : rp_start (run_planner islands_run) < node_count (build_model islands_map))
    by (vm_compute; lia).
  assert (He : search (build_model islands_map) (rp_end (run_planner islands_run))
                 (rp_start (run_planner islands_run)) = Err NoPathFound) by (vm_compute; reflexivity).
  exact (proj2 (model_search_Err islands_map eq_refl _ _ _ Hs He)).
Qed.

(** Run facts proved by evaluation: the run routes, with the model and
    planner the projections return. *)
Ltac routed_by_eval := vm_compute; reflexivity.

(** ** Witnesses of the general theorems *)

Lemma main_route_path_valid_witness :
  valid_path (run_model detour_run) (rp_path (run_planner detour_run)) /\
  head (rp_path (run_planner detour_run)) = Some (rp_start (run_planner detour_run)) /\
  last (rp_path (run_planner detour_run)) = Some (rp_end (run_planner detour_run)) /\
  NoDup (rp_path (run_planner detour_run)).
Proof.
  apply (main_route_path_valid (parse_as detour_map) [] detour_map 10 10 13 10
    (run_model detour_run) (run_planner detour_run) detour_run.2);
    [reflexivity|reflexivity|routed_by_eval|vm_compute; discriminate].
Defined.

Lemma main_route_distance_witness :
  detour_run.2 = distance_report (GetDistance (run_planner detour_run)) /\
  (GetDistance (run_planner detour_run) ==
     path_cost (run_model detour_run) (rp_path (run_planner detour_run)) * rm_scale (run_model detour_run))%Q /\
  exists st,
    search_loop (run_model detour_run) (rp_end (run_planner detour_run))
      (S (node_count (run_model detour_run)))
      (init_state (run_model detour_run) (rp_end (run_planner detour_run)) (rp_start (run_planner detour_run)))
      = Succeeded st /\
    (g_value st !!! rp_end (run_planner detour_run) ==
       path_cost (run_model detour_run) (rp_path (run_planner detour_run)))%Q.
Proof.
  apply (main_route_distance (parse_as detour_map) [] detour_map 10 10 13 10
    (run_model detour_run) (run_planner detour_run) detour_run.2);
    [reflexivity|reflexivity|routed_by_eval|vm_compute; discriminate].
Defined.

Lemma main_route_no_path_iff_witness :
  rp_path (run_planner islands_run) = [] <->
  ~ rtc (edge (run_model islands_run)) (rp_start (run_planner islands_run)) (rp_end (run_planner islands_run)).
Proof.
  apply (main_route_no_path_iff (parse_as islands_map) [] islands_map 0 0 51 50
    (run_model islands_run) (run_planner islands_run) islands_run.2);
    [reflexivity|reflexivity|routed_by_eval].
Defined.

Lemma main_route_no_route_output_witness :
  islands_run.2 = distance_report 0%Q.
Proof.
  apply (main_route_no_route_output (parse_as islands_map) [] islands_map 0 0 51 50
    (run_model islands_run) (run_planner islands_run) islands_run.2);
    [reflexivity|reflexivity|routed_by_eval|exact islands_unreachable].
Defined.

Lemma main_route_search_terminates_witness :
  exists st,
    search_loop (run_model islands_run) (rp_end (run_planner islands_run))
      (S (node_count (run_model islands_run)))
      (init_state (run_model islands_run) (rp_end (run_planner islands_run))
         (rp_start (run_planner islands_run))) = Succeeded st \/
    search_loop (run_model islands_run) (rp_end (run_planner islands_run))
      (S (node_count (run_model islands_run)))
      (init_state (run_model islands_run) (rp_end (run_planner islands_run))
         (rp_start (run_planner islands_run))) = Failed st.
Proof.
  apply (main_route_search_terminates (parse_as islands_map) [] islands_map 0 0 51 50
    (run_model islands_run) (run_planner islands_run) islands_run.2);
    [reflexivity|reflexivity|routed_by_eval].
Defined.

Lemma main_route_endpoints_witness :
  first_closest (mkCoord 10 10) (rm_nodes (run_model detour_run)) (rp_start (run_planner detour_run)) /\
  first_closest (mkCoord 13 10) (rm_nodes (run_model detour_run)) (rp_end (run_planner detour_run)).
Proof.
  apply (main_route_endpoints (parse_as detour_map) [] 10 10 13 10
    (run_model detour_run) (run_planner detour_run) detour_run.2). routed_by_eval.
Defined.

Lemma main_route_adjacency_witness :
  2 ∈ neighbors (run_model grid_run) 0 <-> road_link (md_ways grid_map) 0 2.
Proof.
  apply (main_route_adjacency (parse_as grid_map) [] grid_map 0 0 3 4
    (run_model grid_run) (run_planner grid_run) grid_run.2); [reflexivity|routed_by_eval].
Defined.

Lemma main_route_adjacency_sym_witness :
  3 ∈ neighbors (run_model grid_run) 2 <-> 2 ∈ neighbors (run_model grid_run) 3.
Proof.
  apply (main_route_adjacency_sym (parse_as grid_map) [] grid_map 0 0 3 4
    (run_model grid_run) (run_planner grid_run) grid_run.2); [reflexivity|routed_by_eval].
Defined.

Lemma main_route_same_node_witness :
  rp_path (run_planner grid_same_run) = [rp_start (run_planner grid_same_run)] /\
  (GetDistance (run_planner grid_same_run) == 0)%Q.
Proof.
  apply (main_route_same_node (parse_as grid_map) [] grid_map 0 0 0 0
    (run_model grid_same_run) (run_planner grid_same_run) grid_same_run.2);
    [reflexivity|reflexivity|routed_by_eval|vm_compute; reflexivity].
Defined.

(** ** What the specified search returns on the spec's tests, and what
    it does not guarantee *)

(** The route [main] reports is not always a shortest one.  On the
    detour map the search pops C (f = 4 + 5) before D (f = 4 + 7),
    discovers N from C with g = 9, pops D (f = 11) before N (f = 15)
    without revising N's g, and reports 15 metres, while the route
    S-D-N-T is valid and 11 metres long. *)
Example main_route_not_shortest :
  exists alt, valid_path (run_model detour_run) alt /\
    head alt = Some (rp_start (run_planner detour_run)) /\
    last alt = Some (rp_end (run_planner detour_run)) /\
    (path_cost (run_model detour_run) alt * rm_scale (run_model detour_run)
       < GetDistance (run_planner detour_run))%Q.
Proof.
  exists [0; 2; 3; 4]. split_and!.
  - simpl. split_and!; vm_decide.
  - vm_compute. reflexivity.
  - vm_compute. reflexivity.
  - vm_compute. reflexivity.
Qed.

(** Swapping the start and end coordinates can change the reported
    distance: 15 metres from S to T, 11 metres from T to S. *)
Example main_route_swap_asymmetric :
  (GetDistance (run_planner detour_run) == 15)%Q /\
  (GetDistance (run_planner detour_back_run) == 11)%Q.
Proof. split; vm_compute; reflexivity. Qed.

(** The spec's nearest-node test: with nodes (0,0), (10,10),
    (50,50), the coordinate (1,1) resolves to the node at (0,0). *)
Example main_route_nearest_example :
  rp_start (run_planner three_points_run) = 0 /\
  rm_nodes (run_model three_points_run) !! rp_start (run_planner three_points_run) = Some (mkCoord 0 0).
Proof. split; vm_compute; reflexivity. Qed.

(** The spec's optimality test: on the rectangle with one diagonal,
    the route from (0,0) to (3,4) is the diagonal, 5 metres long, and
    [main] prints that distance. *)
Example main_route_grid_example :
  rp_path (run_planner grid_run) = [0; 2] /\
  (GetDistance (run_planner grid_run) == 5)%Q /\
  grid_run.2 = distance_report (GetDistance (run_planner grid_run)).
Proof. split_and!; vm_compute; reflexivity. Qed.

(** ** Whole runs of [main] *)

Local Open Scope string_scope.

(** A file system with one readable map file. *)
Definition one_file_fs : FileSystem :=
  fun path => if String.eqb path "map.osm" then Some [Byte.x01] else None.

(** A parser that accepts any non-empty data as the detour map. *)
Definition parse_nonempty (bytes : list Byte.byte) : option MapData :=
  match bytes with [] => None | _ => Some detour_map end.

Definition good_world : World :=
  mkWorld ["route"; "-f"; "map.osm"] ["ten"; "10"; "10"; "13"; "10"] one_file_fs.

Definition missing_file_world : World :=
  mkWorld ["route"; "-f"; "missing.osm"] ["10"; "10"; "13"; "10"] one_file_fs.

Definition no_flag_world : World :=
  mkWorld ["route"; "map.osm"] ["10"; "10"; "13"; "10"] one_file_fs.

Definition main_outcome (r : option (RouteOutcome * list Out)) : RouteOutcome * list Out :=
  match r with Some ro => ro | None => (Aborted InvalidMapData, []) end.

Lemma main_routes_in_range_witness :
  exists sx sy ex ey,
    (0 <= sx <= 100 /\ 0 <= sy <= 100 /\ 0 <= ex <= 100 /\ 0 <= ey <= 100)%Q /\
    (main_outcome (main parse_nonempty 5 good_world)).1 =
      fst (main_route parse_nonempty
             (fst (load_osm_data (files good_world) (fst (select_osm_file (argv good_world))))) sx sy ex ey).
Proof.
  apply (main_routes_in_range parse_nonempty 5 good_world
    (main_outcome (main parse_nonempty 5 good_world)).1 (main_outcome (main parse_nonempty 5 good_world)).2).
  vm_compute. reflexivity.
Defined.

Lemma main_too_few_coordinates_witness :
  main parse_nonempty 100 (mkWorld ["route"] ["10"; "abc"; "200"; "5"] one_file_fs) = None.
Proof. apply main_too_few_coordinates. vm_compute. lia. Defined.

Lemma main_load_failure_witness :
  main parse_nonempty 5 missing_file_world =
    Some (Aborted InvalidMapData,
          ([] ++ (reading_message "missing.osm" ++ failed_message) ++
          replicate 1 (prompt "start X") ++ replicate 1 (prompt "start Y") ++
          replicate 1 (prompt "end X") ++ replicate 1 (prompt "end Y"))%list).
Proof.
  apply (main_load_failure parse_nonempty 5 missing_file_world "missing.osm" [] 10 10 13 10 []);
    [reflexivity|discriminate|reflexivity|reflexivity|vm_compute; reflexivity].
Defined.

Lemma main_no_file_flag_witness :
  main parse_nonempty 5 no_flag_world =
    Some (Aborted InvalidMapData,
          (replicate 1 (prompt "start X") ++ replicate 1 (prompt "start Y") ++
          replicate 1 (prompt "end X") ++ replicate 1 (prompt "end Y"))%list).
Proof.
  apply (main_no_file_flag parse_nonempty 5 no_flag_world 10 10 13 10 []);
    [simpl; lia|vm_decide|reflexivity|vm_compute; reflexivity].
Defined.

Lemma read_coordinates_prompt_order_witness :
  exists a b c d,
    (replicate 2 (prompt "start X") ++ replicate 1 (prompt "start Y") ++
     replicate 1 (prompt "end X") ++ replicate 1 (prompt "end Y"))%list =
    (replicate (S a) (prompt "start X") ++ replicate (S b) (prompt "start Y") ++
     replicate (S c) (prompt "end X") ++ replicate (S d) (prompt "end Y"))%list.
Proof.
  apply (read_coordinates_prompt_order 5 (stdin good_world) 10 10 13 10 []).
  vm_compute. reflexivity.
Defined.

(** ** A map file truncated while it is read *)

(** A file of three bytes, of which one is left when [is.read] runs. *)
Lemma ReadFile_short_read_witness :
  List.length [Byte.x01] < 3 /\
  ReadFile_from (mkIfstream [Byte.x01] 3 true) =
    Some ([Byte.x01] ++ replicate (3 - List.length [Byte.x01]) Byte.x00)%list /\
  is_good (snd (read (replicate 3 Byte.x00) 3 (mkIfstream [Byte.x01] 0 true))) = false.
Proof. split; [simpl; lia|]. apply (ReadFile_short_read [Byte.x01] 3). simpl. lia. Defined.

(** ** Single-precision conversion *)

(** ["0.1"] is read as the float [13421773 * 2^-27]. *)
Lemma read_value_error_witness :
  extract_float "0.1" = Some (1#10) /\ strtof (1#10) <> None /\
  read_value "0.1" = (13421773 # 134217728)%Q /\
  (Qabs (read_value "0.1" - (1#10)) <= Qabs (1#10) * pow2 (-24) + pow2 (emin - 1) /\
   (pow2 (emin + prec - 1) <= Qabs (1#10) ->
    Qabs (read_value "0.1" - (1#10)) <= Qabs (1#10) * pow2 (-24)))%Q.
Proof.
  split; [reflexivity|]. split; [discriminate|]. split; [reflexivity|].
  apply read_value_error; [reflexivity|discriminate].
Defined.

Lemma get_user_input_accepts_witness :
  extract_float "42.1" = Some (421#10) /\
  exists f, strtof (421#10) = Some f /\ (0 <= f <= 100)%Q /\
    get_user_input 1 "start X" ["42.1"%string] = Some (f, [], [prompt "start X"]).
Proof.
  split; [reflexivity|].
  apply (get_user_input_accepts 0 "start X" "42.1" [] (421#10)); [reflexivity|].
  split; unfold Qle; simpl; lia.
Defined.


(** ** Refinement on the detour map *)

Lemma main_route_refines_witness :
  astar_outcome (run_model detour_run) (rp_end (run_planner detour_run)) (rp_start (run_planner detour_run))
    (Ok (rp_path (run_planner detour_run), rp_distance (run_planner detour_run))) \/
  (astar_outcome (run_model detour_run) (rp_end (run_planner detour_run)) (rp_start (run_planner detour_run))
     (Err NoPathFound) /\ rp_path (run_planner detour_run) = [] /\ rp_distance (run_planner detour_run) = 0%Q).
Proof.
  apply (main_route_refines (parse_as detour_map) [] detour_map 10 10 13 10
    (run_model detour_run) (run_planner detour_run) detour_run.2);
    [reflexivity|reflexivity|routed_by_eval].
Defined.

(** ** Coordinates as typed *)

Lemma main_coordinates_typed_witness :
  exists sx sy ex ey,
    typed (stdin good_world) sx /\ typed (stdin good_world) sy /\
    typed (stdin good_world) ex /\ typed (stdin good_world) ey /\
    (main_outcome (main parse_nonempty 5 good_world)).1 =
      fst (main_route parse_nonempty
             (fst (load_osm_data (files good_world) (fst (select_osm_file (argv good_world))))) sx sy ex ey).
Proof.
  apply (main_coordinates_typed parse_nonempty 5 good_world
    (main_outcome (main parse_nonempty 5 good_world)).1 (main_outcome (main parse_nonempty 5 good_world)).2).
  vm_compute. reflexivity.
Defined.

(** ** The printed distance line *)

(** The grid route's distance, a sum of square roots, is the whole number 5. *)
Lemma distance_report_whole_witness :
  (0 <= 5 < 10 ^ 6)%Z /\ (GetDistance (run_planner grid_run) == inject_Z 5)%Q /\
  stdout_text (distance_report (GetDistance (run_planner grid_run))) =
    ("Distance: " ++ decimal_Z 5 ++ " meters. " ++ nl)%string.
Proof.
  assert (H1 : (0 <= 5 < 10 ^ 6)%Z) by lia.
  assert (H2 : (GetDistance (run_planner grid_run) == inject_Z 5)%Q) by (vm_compute; reflexivity).
  split; [exact H1|split; [exact H2|]]. apply (distance_report_whole _ 5 H1 H2).
Defined.

(** The text of the distance line: the spec's grid test prints
    "Distance: 5 meters.", a run with no route prints "Distance: 0
    meters.", and with six significant digits a distance of 1234567 m is
    printed as 1.23457e+06 and one of 123456.7 m as 123457. *)
Example distance_line_text :
  stdout_text grid_run.2 = ("Distance: 5 meters. " ++ nl)%string /\
  stdout_text islands_run.2 = ("Distance: 0 meters. " ++ nl)%string /\
  stdout_text (distance_report 1234567) = ("Distance: 1.23457e+06 meters. " ++ nl)%string /\
  stdout_text (distance_report (1234567 # 10)) = ("Distance: 123457 meters. " ++ nl)%string.
Proof. split_and!; vm_compute; reflexivity. Qed.

(** ** The whole program with its window *)

(** A display that draws the size it is given. *)
Definition draw_size (_ : RouteModel) (d : Z * Z) : Z * Z := d.

Definition window_events : list Event :=
  [FrameDue; Resized (800, 600)%Z; FrameDue; Closed; FrameDue].

Definition window_run : option (list Out * option (@OutputSurface (Z * Z))) :=
  program draw_size parse_nonempty 5 good_world window_events.

Definition window_out : list Out :=
  match window_run with Some (out, _) => out | None => [] end.

Definition window_surface : @OutputSurface (Z * Z) :=
  match window_run with
  | Some (_, Some o) => o
  | _ => output_surface 0 0 invalid none fixed 0
  end.

Lemma program_window_witness :
  window_run = Some (window_out, Some window_surface) /\
  exists md p0 sx sy ex ey rest out3 pre,
    parse_nonempty (fst (load_osm_data (files good_world) (fst (select_osm_file (argv good_world))))) = Some md /\
    read_coordinates 5 (stdin good_world) = Some (sx, sy, ex, ey, rest, out3) /\
    make_planner (build_model md) sx sy ex ey = Ok p0 /\
    text_only pre /\ window_out = (pre ++ distance_report (GetDistance (fst (AStarSearch p0))))%list /\
    frames (surface window_surface) = map (draw_size (build_model md)) (frame_sizes (400, 400)%Z window_events).
Proof.
  assert (E : window_run = Some (window_out, Some window_surface)) by (vm_compute; reflexivity).
  split; [exact E|]. apply (program_window draw_size parse_nonempty 5 good_world window_events _ _ E).
Defined.

Lemma program_no_window_witness :
  program draw_size parse_nonempty 5 missing_file_world window_events =
    Some ((reading_message "missing.osm" ++ failed_message ++
          [prompt "start X"; prompt "start Y"; prompt "end X"; prompt "end Y"])%list, None) /\
  text_only (reading_message "missing.osm" ++ failed_message ++
          [prompt "start X"; prompt "start Y"; prompt "end X"; prompt "end Y"])%list.
Proof.
  assert (E : program draw_size parse_nonempty 5 missing_file_world window_events =
    Some ((reading_message "missing.osm" ++ failed_message ++
          [prompt "start X"; prompt "start Y"; prompt "end X"; prompt "end Y"])%list, None))
    by (vm_compute; reflexivity).
  split; [exact E|]. apply (program_no_window draw_size parse_nonempty 5 missing_file_world window_events _ E).
Defined.

(** ** Input just above the range *)

Lemma get_user_input_rounds_into_range_witness :
  extract_float "100.000003" = Some (100000003 # 1000000)%Q /\
  (100 < 100000003 # 1000000 < 100 + pow2 (-18))%Q /\
  get_user_input 1 "x" ["100.000003"] = Some (100%Q, [], [prompt "x"]).
Proof.
  assert (H1 : extract_float "100.000003" = Some (100000003 # 1000000)%Q) by reflexivity.
  assert (H2 : (100 < 100000003 # 1000000 < 100 + pow2 (-18))%Q) by (split; vm_compute; reflexivity).
  split; [exact H1|split; [exact H2|]]. apply (get_user_input_rounds_into_range 0 "x" _ [] _ H1 H2).
Defined.

Lemma get_user_input_rounds_to_zero_witness :
  extract_float "-1e-46" = Some (- (1 # 10 ^ 46))%Q /\
  (- pow2 (-150) < - (1 # 10 ^ 46) < 0)%Q /\
  get_user_input 1 "x" ["-1e-46"] = Some (0%Q, [], [prompt "x"]).
Proof.
  assert (H1 : extract_float "-1e-46" = Some (- (1 # 10 ^ 46))%Q) by (vm_compute; reflexivity).
  assert (H2 : (- pow2 (-150) < - (1 # 10 ^ 46) < 0)%Q) by (split; vm_compute; reflexivity).
  split; [exact H1|split; [exact H2|]]. apply (get_user_input_rounds_to_zero 0 "x" _ [] _ H1 H2).
Defined.

(** ** Large distances *)

Lemma distance_report_scientific_witness :
  (1000000 <= 1234567)%Q /\
  exists mant x, (6 <= x)%Z /\
    stdout_text (distance_report 1234567) = ("Distance: " ++ mant ++ exponent_text x ++ " meters. " ++ nl)%string.
Proof.
  assert (H : (1000000 <= 1234567)%Q) by (vm_compute; discriminate).
  split; [exact H|]. apply (distance_report_scientific _ H).
Defined.
